(** * MamoraBot9: technical signal composition and risk engine

    A shallow embedding of the decision code of the repository
    (src/utils/enhancedTradingEngine.js, src/utils/advancedTradingAI.js and
    the SmartDecisionEngine class) together with the properties its
    specification states about it.

    ** Numbers

    JavaScript numbers are modelled by [JS.num]: a rational for every finite
    value, plus the three special values [+Infinity], [-Infinity] and [NaN],
    with the IEEE rules for the special values (division by zero, absorbing
    NaN, comparisons with NaN false).  Finite arithmetic is exact: rounding
    of binary64, overflow and the sign of zero are not modelled (a zero
    divisor behaves as [+0]).  [Math.sqrt] is irrational and is taken as a
    parameter wherever the code calls it. *)

From Stdlib Require Import QArith Qround Qabs Lqa ZArith List Lia String Bool.
Import ListNotations.

Local Open Scope string_scope.
Local Open Scope list_scope.
Local Open Scope Q_scope.

Module JS.

Inductive num : Type :=
| Fin (q : Q)
| PInf
| NInf
| NaN.

(** Finite results are kept in lowest terms, so that evaluation at a
    concrete input yields one canonical answer. *)
Definition fin (q : Q) : num := Fin (Qred q).

Definition of_Z (z : Z) : num := Fin (inject_Z z).
Definition of_nat (n : nat) : num := of_Z (Z.of_nat n).

Definition Qltb (a b : Q) : bool :=
  match a ?= b with Lt => true | _ => false end.

Definition neg (x : num) : num :=
  match x with
  | Fin q => fin (- q)
  | PInf => NInf
  | NInf => PInf
  | NaN => NaN
  end.

Definition add (x y : num) : num :=
  match x, y with
  | NaN, _ => NaN
  | _, NaN => NaN
  | Fin a, Fin b => fin (a + b)
  | Fin _, PInf => PInf
  | Fin _, NInf => NInf
  | PInf, NInf => NaN
  | PInf, _ => PInf
  | NInf, PInf => NaN
  | NInf, _ => NInf
  end.

Definition sub (x y : num) : num := add x (neg y).

(** An infinity scaled by a finite factor: [NaN] for zero, otherwise the
    infinity with the product's sign. *)
Definition scale_inf (positive : bool) (a : Q) : num :=
  match a ?= 0 with
  | Eq => NaN
  | Gt => if positive then PInf else NInf
  | Lt => if positive then NInf else PInf
  end.

Definition mul (x y : num) : num :=
  match x, y with
  | NaN, _ => NaN
  | _, NaN => NaN
  | Fin a, Fin b => fin (a * b)
  | Fin a, PInf => scale_inf true a
  | Fin a, NInf => scale_inf false a
  | PInf, Fin b => scale_inf true b
  | NInf, Fin b => scale_inf false b
  | PInf, PInf => PInf
  | NInf, NInf => PInf
  | PInf, NInf => NInf
  | NInf, PInf => NInf
  end.

Definition div (x y : num) : num :=
  match x, y with
  | NaN, _ => NaN
  | _, NaN => NaN
  | Fin a, Fin b =>
      if Qeq_bool b 0
      then match a ?= 0 with Eq => NaN | Gt => PInf | Lt => NInf end
      else fin (a / b)
  | Fin _, _ => Fin 0
  | PInf, Fin b => if Qltb b 0 then NInf else PInf
  | NInf, Fin b => if Qltb b 0 then PInf else NInf
  | _, _ => NaN
  end.

(** [x < y]; false as soon as one side is [NaN]. *)
Definition lt (x y : num) : bool :=
  match x, y with
  | NaN, _ => false
  | _, NaN => false
  | Fin a, Fin b => Qltb a b
  | NInf, NInf => false
  | NInf, _ => true
  | _, NInf => false
  | PInf, _ => false
  | Fin _, PInf => true
  end.

Definition gt (x y : num) : bool := lt y x.

(** [x === y] on numbers. *)
Definition strict_eq (x y : num) : bool :=
  match x, y with
  | Fin a, Fin b => Qeq_bool a b
  | PInf, PInf => true
  | NInf, NInf => true
  | _, _ => false
  end.

Definition abs (x : num) : num :=
  match x with
  | Fin q => fin (Qabs q)
  | PInf => PInf
  | NInf => PInf
  | NaN => NaN
  end.

(** [Math.max(x, y)] and [Math.min(x, y)]: [NaN] when an argument is. *)
Definition max (x y : num) : num :=
  match x, y with
  | NaN, _ => NaN
  | _, NaN => NaN
  | _, _ => if lt x y then y else x
  end.

Definition min (x y : num) : num :=
  match x, y with
  | NaN, _ => NaN
  | _, NaN => NaN
  | _, _ => if lt y x then y else x
  end.

(** [Math.max(...xs)] and [Math.min(...xs)] of a spread array. *)
Definition max_list (xs : list num) : num := fold_left max xs NInf.
Definition min_list (xs : list num) : num := fold_left min xs PInf.

(** [Math.round]: the nearest integer, ties towards [+Infinity]. *)
Definition round (x : num) : num :=
  match x with
  | Fin q => of_Z (Qfloor (q + (1 # 2)))
  | _ => x
  end.

(** [x.toFixed(digits)], represented by the number its decimal string
    denotes: the nearest multiple of [10^-digits], ties away from zero. *)
Definition toFixed (digits : nat) (x : num) : num :=
  let scale := inject_Z (10 ^ Z.of_nat digits) in
  match x with
  | Fin q =>
      if Qltb q 0
      then fin (- (inject_Z (Qfloor (- q * scale + (1 # 2))) / scale))
      else fin (inject_Z (Qfloor (q * scale + (1 # 2))) / scale)
  | _ => x
  end.

Definition toFixed2 : num -> num := toFixed 2.

(** A piece of generated text: a string literal, or a template literal with
    one number rendered in it. *)
Inductive phrase : Type :=
| Plain (text : string)
| Templated (before : string) (number : num) (after : string).

(** [Math.pow(x, 2)]. *)
Definition square (x : num) : num := mul x x.

(** A value read from an array slot or an object property: [None] is
    [undefined]. *)
Definition value := option num.

(** [ToNumber]: [undefined] becomes [NaN]. *)
Definition toNumber (v : value) : num :=
  match v with Some x => x | None => NaN end.

(** [ToBoolean] on a possibly missing number: [undefined], [0] and [NaN]
    are falsy. *)
Definition truthy (v : value) : bool :=
  match v with
  | Some (Fin q) => negb (Qeq_bool q 0)
  | Some NaN => false
  | Some _ => true
  | None => false
  end.

(** [xs.slice(-n)]: the last [n] elements; [-0] is [0], so [n = 0] keeps
    the whole array. *)
Definition slice_last {A} (n : nat) (xs : list A) : list A :=
  match n with
  | O => xs
  | _ => skipn (List.length xs - n) xs
  end.

(** [xs.reduce((a, b) => a + b, 0)]. *)
Definition sum (xs : list num) : num := fold_left add xs (Fin 0).

(** [xs[xs.length - 1]]. *)
Definition last_value (xs : list num) : value :=
  match xs with
  | [] => None
  | _ => Some (List.last xs NaN)
  end.

(** An instance of [Math.sqrt] to run the code on concrete inputs: the
    square root truncated to nine decimals (exact on [0], [0.01], [4], ...). *)
Definition sqrt_truncated (x : num) : num :=
  match x with
  | Fin q =>
      if Qltb q 0 then NaN
      else fin (inject_Z (Z.sqrt (Qfloor (q * inject_Z (10 ^ 18))))
                / inject_Z (10 ^ 9))
  | PInf => PInf
  | _ => NaN
  end.

Definition is_finite (x : num) : Prop :=
  match x with Fin _ => True | _ => False end.

(** [x] is finite and lies in the closed interval [[lo, hi]]. *)
Definition within (lo hi : Q) (x : num) : Prop :=
  match x with Fin q => lo <= q <= hi | _ => False end.

End JS.

(** ** Exceptions

    Code that can throw returns a [result]; the only exception the modelled
    code raises is the [TypeError] of a property read on [undefined] or
    [null]. *)

Inductive error : Type :=
| TypeError (what : string).

Inductive result (A : Type) : Type :=
| Ok (a : A)
| Throw (e : error).

Arguments Ok {A} a.
Arguments Throw {A} e.

Definition bind {A B} (c : result A) (k : A -> result B) : result B :=
  match c with
  | Ok a => k a
  | Throw e => Throw e
  end.

Notation "x <- c ;; k" := (bind c (fun x => k))
  (at level 61, c at next level, right associativity).

(** [try { body } catch (error) { handler }]. *)
Definition try_catch {A} (body : result A) (handler : error -> result A)
  : result A :=
  match body with
  | Ok a => Ok a
  | Throw e => handler e
  end.

(** Reading a property of the object [o], which may be [undefined] or
    [null] ([None]): a [TypeError] then. *)
Definition read {A} (o : option A) (property : string) : result A :=
  match o with
  | Some a => Ok a
  | None =>
      Throw (TypeError ("Cannot read properties of undefined (reading '"
                          ++ property ++ "')")%string)
  end.

Inductive Action : Type := BUY | SELL | HOLD.

(** [Math.round(confidence * 100)]: the conversion of a confidence in
    [0, 1] to the percentage that is reported. *)
Definition confidencePct (confidence : JS.num) : JS.num :=
  JS.round (JS.mul confidence (JS.Fin 100)).

(** ** Magnitudes

    The arithmetic of [JS.num] is exact, that of the code rounds to
    binary64.  Where a property depends on the size of the numbers it is
    stated within bounds that keep every sum, product and quotient of the
    code clear of the largest binary64 number (about 1.8e308) and of the
    smallest normal one (about 2.2e-308); where the rounding itself could
    show, it is stated up to a relative [tolerance] well above the rounding
    error of the operations involved. *)

Module Magnitude.

(** [10^n]. *)
Definition ten_to (n : nat) : Q := inject_Z (10 ^ Z.of_nat n).

(** One part in a thousand million. *)
Definition tolerance : Q := 1 # 1000000000.

(** [x] is a number in [[lo, hi]], up to the tolerance. *)
Definition about (lo hi : Q) (x : JS.num) : Prop :=
  JS.within (lo * (1 - tolerance)) (hi * (1 + tolerance)) x.

(** The sizes at which prices are quoted: from a thousandth to a thousand
    million. *)
Definition quoted (price : Q) : Prop := 1 # 1000 <= price <= 1000000000.

End Magnitude.

(** * src/utils/enhancedTradingEngine.js *)

Module EnhancedTradingEngine.
Import JS.

(** One element of [marketData]. *)
Module Bar.
Record t : Type := make
  { open : num; high : num; low : num; close : num; volume : num }.
End Bar.

Module Macd.
Record t : Type := make
  { macd : num; signal : value; histogram : num }.
End Macd.

Module Bollinger.
Record t : Type := make { upper : num; middle : num; lower : num }.
End Bollinger.

Inductive VolumeTrend : Type := increasing | decreasing | stable.

Module Volume.
Record t : Type := make
  { current : value; average : num; trend : VolumeTrend }.
End Volume.

Module Indicators.
Record t : Type := make
  { rsi : num;
    macd : Macd.t;
    sma20 : num;
    sma50 : num;
    ema12 : value;
    ema26 : value;
    bollinger : Bollinger.t;
    stochastic : num;
    volume : Volume.t;
    currentPrice : value }.
End Indicators.

Module Signal.
Record t : Type := make
  { type : Action;
    strength : num;
    factors : list string;
    rawStrength : num }.
End Signal.

(** The entry range is a template string, the [toFixed(2)] renderings of
    the low and the high end with a dash between them; it is kept as the
    pair of numbers rendered.
    [target] and [stopLoss] are [toFixed(2)] strings, kept as numbers. *)
Module Zones.
Record t : Type := make
  { entry : num * num; target : num; stopLoss : num }.
End Zones.

(** [prices[i] - prices[i - 1]] for [i = 1 .. length - 1]. *)
Fixpoint changes (prices : list num) : list num :=
  match prices with
  | previous :: (current :: _) as rest => sub current previous :: changes rest
  | _ => []
  end.

Definition calculateRSI (prices : list num) (period : nat) : num :=
  let gains :=
    map (fun change => if gt change (Fin 0) then change else Fin 0)
        (changes prices) in
  let losses :=
    map (fun change => if lt change (Fin 0) then neg change else Fin 0)
        (changes prices) in
  let avgGain := div (sum (slice_last period gains)) (of_nat period) in
  let avgLoss := div (sum (slice_last period losses)) (of_nat period) in
  if strict_eq avgLoss (Fin 0) then Fin 100
  else
    let rs := div avgGain avgLoss in
    sub (Fin 100) (div (Fin 100) (add (Fin 1) rs)).

(** [ema = prices[0]], then one step per further price; [undefined] on an
    empty array. *)
Definition calculateEMA (prices : list num) (period : nat) : value :=
  let multiplier := div (Fin 2) (add (of_nat period) (Fin 1)) in
  match prices with
  | [] => None
  | first :: rest =>
      Some (fold_left
              (fun ema price =>
                 add (mul price multiplier) (mul ema (sub (Fin 1) multiplier)))
              rest first)
  end.

Definition calculateMACD (prices : list num) : Macd.t :=
  let ema12 := calculateEMA prices 12 in
  let ema26 := calculateEMA prices 26 in
  let macd := sub (toNumber ema12) (toNumber ema26) in
  let signal := calculateEMA [macd] 9 in
  {| Macd.macd := macd;
     Macd.signal := signal;
     Macd.histogram := sub macd (toNumber signal) |}.

Definition calculateSMA (prices : list num) (period : nat) : num :=
  let slice := slice_last period prices in
  div (sum slice) (of_nat (List.length slice)).

Definition calculateStochastic (data : list Bar.t) (period : nat)
  : result num :=
  let slice := slice_last period data in
  let low := min_list (map Bar.low slice) in
  let high := max_list (map Bar.high slice) in
  match data with
  | [] => Throw (TypeError "Cannot read properties of undefined (reading 'close')")
  | first :: rest =>
      let current := Bar.close (List.last data first) in
      Ok (mul (div (sub current low) (sub high low)) (Fin 100))
  end.

Definition analyzeVolume (volumes : list num) : Volume.t :=
  let recent := slice_last 5 volumes in
  let avg := div (sum recent) (of_nat (List.length recent)) in
  let current := last_value volumes in
  {| Volume.current := current;
     Volume.average := avg;
     Volume.trend :=
       if gt (toNumber current) (mul avg (Fin 1.2)) then increasing
       else if lt (toNumber current) (mul avg (Fin 0.8)) then decreasing
       else stable |}.

(** The loop of [calculateVolatility] walks the closes from the newest
    backwards: at step [i] it pushes
    [(close[n - i] - close[n - i - 1]) / close[n - i - 1]], for
    [i = 1 .. min (n - 1) period].  [newest_first] is the reversed list of
    closes. *)
Fixpoint returns_of (newest_first : list num) (period : nat) : list num :=
  match period, newest_first with
  | S period', newer :: (older :: _) as rest =>
      div (sub newer older) older :: returns_of rest period'
  | _, _ => []
  end.

(** The structured signal.  [asset], [timeframe], [contractPeriod] and
    [timestamp] are labels derived from the symbol, the timeframe
    argument and the clock; they are not part of the model. *)
Module Structured.
Record t : Type := make
  { signal : Action;
    entryZone : num * num;
    target : num;
    stopLoss : num;
    confidence : num;
    reasoning : string }.
End Structured.

Section WithSqrt.

(** [Math.sqrt]. *)
Variable Math_sqrt : num -> num.

Definition calculateBollingerBands
  (prices : list num) (period : nat) (stdDev : num) : Bollinger.t :=
  let sma := calculateSMA prices period in
  let slice := slice_last period prices in
  let variance :=
    div (fold_left (fun acc price => add acc (square (sub price sma)))
                   slice (Fin 0))
        (of_nat period) in
  let std := Math_sqrt variance in
  {| Bollinger.upper := add sma (mul std stdDev);
     Bollinger.middle := sma;
     Bollinger.lower := sub sma (mul std stdDev) |}.

Definition calculateVolatility (data : list Bar.t) (period : nat) : num :=
  let returns := returns_of (rev (map Bar.close data)) period in
  let mean := div (sum returns) (of_nat (List.length returns)) in
  let variance :=
    div (fold_left (fun acc ret => add acc (square (sub ret mean)))
                   returns (Fin 0))
        (of_nat (List.length returns)) in
  Math_sqrt variance.

(** The object literal evaluates its properties in order; every
    calculator is pure, so the result is the record unless
    [calculateStochastic] throws. *)
Definition calculateTechnicalIndicators (data : list Bar.t)
  : result Indicators.t :=
  let prices := map Bar.close data in
  let volumes := map Bar.volume data in
  stochastic <- calculateStochastic data 14 ;;
  Ok {| Indicators.rsi := calculateRSI prices 14;
        Indicators.macd := calculateMACD prices;
        Indicators.sma20 := calculateSMA prices 20;
        Indicators.sma50 := calculateSMA prices 50;
        Indicators.ema12 := calculateEMA prices 12;
        Indicators.ema26 := calculateEMA prices 26;
        Indicators.bollinger := calculateBollingerBands prices 20 (Fin 2);
        Indicators.stochastic := stochastic;
        Indicators.volume := analyzeVolume volumes;
        Indicators.currentPrice := last_value prices |}.

(** The running [signalStrength], [signalCount] and [signals] of
    [analyzeSignal]. *)
Definition tally : Type := (num * nat * list string)%type.

Definition bullish (weight : num) (name : string) (t : tally) : tally :=
  let '(signalStrength, signalCount, signals) := t in
  (add signalStrength weight, S signalCount, signals ++ [name]).

Definition bearish (weight : num) (name : string) (t : tally) : tally :=
  let '(signalStrength, signalCount, signals) := t in
  (sub signalStrength weight, S signalCount, signals ++ [name]).

(** The four blocks of [analyzeSignal], each on the running tally. *)
Definition rsiAnalysis (indicators : Indicators.t) (t : tally) : tally :=
  let rsi := Indicators.rsi indicators in
  if lt rsi (Fin 30) then bullish (Fin 1) "RSI oversold" t
  else if gt rsi (Fin 70) then bearish (Fin 1) "RSI overbought" t
  else t.

Definition macdAnalysis (indicators : Indicators.t) (t : tally) : tally :=
  let macd := Indicators.macd indicators in
  if gt (Macd.histogram macd) (Fin 0)
     && gt (Macd.macd macd) (toNumber (Macd.signal macd))
  then bullish (Fin 1) "MACD bullish crossover" t
  else if lt (Macd.histogram macd) (Fin 0)
          && lt (Macd.macd macd) (toNumber (Macd.signal macd))
  then bearish (Fin 1) "MACD bearish crossover" t
  else t.

Definition movingAverageAnalysis (indicators : Indicators.t) (t : tally)
  : tally :=
  let currentPrice := toNumber (Indicators.currentPrice indicators) in
  let sma20 := Indicators.sma20 indicators in
  let sma50 := Indicators.sma50 indicators in
  if gt currentPrice sma20 && gt sma20 sma50
  then bullish (Fin 0.5) "Price above moving averages" t
  else if lt currentPrice sma20 && lt sma20 sma50
  then bearish (Fin 0.5) "Price below moving averages" t
  else t.

Definition bollingerAnalysis (indicators : Indicators.t) (t : tally) : tally :=
  let currentPrice := toNumber (Indicators.currentPrice indicators) in
  let bollinger := Indicators.bollinger indicators in
  if lt currentPrice (Bollinger.lower bollinger)
  then bullish (Fin 0.3) "Price near lower Bollinger band" t
  else if gt currentPrice (Bollinger.upper bollinger)
  then bearish (Fin 0.3) "Price near upper Bollinger band" t
  else t.

Definition analyzeSignal (indicators : Indicators.t) : Signal.t :=
  let '(signalStrength, signalCount, signals) :=
    bollingerAnalysis indicators
      (movingAverageAnalysis indicators
         (macdAnalysis indicators
            (rsiAnalysis indicators (Fin 0, O, [])))) in
  let avgSignal :=
    if (0 <? signalCount)%nat
    then div signalStrength (of_nat signalCount)
    else Fin 0 in
  let signalType :=
    if gt avgSignal (Fin 0.3) then BUY
    else if lt avgSignal (Fin (-0.3)) then SELL
    else HOLD in
  {| Signal.type := signalType;
     Signal.strength := abs avgSignal;
     Signal.factors := signals;
     Signal.rawStrength := avgSignal |}.

Definition VolumeTrend_eqb (a b : VolumeTrend) : bool :=
  match a, b with
  | increasing, increasing | decreasing, decreasing | stable, stable =>
      true
  | _, _ => false
  end.

Definition calculateDynamicConfidence
  (signal : Signal.t) (indicators : Indicators.t) : num :=
  let rsi := Indicators.rsi indicators in
  let confidence := Fin 0.5 in
  let confidence := add confidence (mul (Signal.strength signal) (Fin 0.3)) in
  let confidence :=
    if lt rsi (Fin 20) || gt rsi (Fin 80)
    then add confidence (Fin 0.15) else confidence in
  let confidence :=
    if gt (abs (Macd.histogram (Indicators.macd indicators))) (Fin 0.5)
    then add confidence (Fin 0.1) else confidence in
  let confidence :=
    if VolumeTrend_eqb (Volume.trend (Indicators.volume indicators))
                       increasing
    then add confidence (Fin 0.1) else confidence in
  max (Fin 0.1) (min (Fin 0.95) confidence).

Definition calculateEntryExitZones
  (marketData : list Bar.t) (signal : Signal.t) : result Zones.t :=
  match marketData with
  | [] => Throw (TypeError "Cannot read properties of undefined (reading 'close')")
  | first :: _ =>
      let currentPrice := Bar.close (List.last marketData first) in
      let volatility := calculateVolatility marketData 20 in
      match Signal.type signal with
      | BUY =>
          let entryLow :=
            mul currentPrice (sub (Fin 1) (mul volatility (Fin 0.5))) in
          let entryHigh :=
            mul currentPrice (add (Fin 1) (mul volatility (Fin 0.2))) in
          Ok {| Zones.entry := (toFixed2 entryLow, toFixed2 entryHigh);
                Zones.target :=
                  toFixed2 (mul currentPrice
                                (add (Fin 1) (mul volatility (Fin 2))));
                Zones.stopLoss :=
                  toFixed2 (mul currentPrice
                                (sub (Fin 1) (mul volatility (Fin 1.5)))) |}
      | SELL =>
          let entryLow :=
            mul currentPrice (sub (Fin 1) (mul volatility (Fin 0.2))) in
          let entryHigh :=
            mul currentPrice (add (Fin 1) (mul volatility (Fin 0.5))) in
          Ok {| Zones.entry := (toFixed2 entryLow, toFixed2 entryHigh);
                Zones.target :=
                  toFixed2 (mul currentPrice
                                (sub (Fin 1) (mul volatility (Fin 2))));
                Zones.stopLoss :=
                  toFixed2 (mul currentPrice
                                (add (Fin 1) (mul volatility (Fin 1.5)))) |}
      | HOLD =>
          Ok {| Zones.entry :=
                  (toFixed2 (mul currentPrice (Fin 0.995)),
                   toFixed2 (mul currentPrice (Fin 1.005)));
                Zones.target := toFixed2 currentPrice;
                Zones.stopLoss := toFixed2 currentPrice |}
      end
  end.

(** [reasons.join('; ') || 'Technical analysis inconclusive']. *)
Definition generateReasoning
  (signal : Signal.t) (indicators : Indicators.t) : string :=
  let rsi := Indicators.rsi indicators in
  let histogram := Macd.histogram (Indicators.macd indicators) in
  let currentPrice := toNumber (Indicators.currentPrice indicators) in
  let sma20 := Indicators.sma20 indicators in
  let volumeUp :=
    VolumeTrend_eqb (Volume.trend (Indicators.volume indicators))
                    increasing in
  let when (b : bool) (reason : string) : list string :=
    if b then [reason] else [] in
  let reasons :=
    match Signal.type signal with
    | BUY =>
        when (lt rsi (Fin 35)) "RSI indicates oversold conditions"
        ++ when (gt histogram (Fin 0)) "MACD showing bullish momentum"
        ++ when (gt currentPrice sma20) "Price above key moving average"
        ++ when volumeUp "Strong volume confirmation"
    | SELL =>
        when (gt rsi (Fin 65)) "RSI indicates overbought conditions"
        ++ when (lt histogram (Fin 0)) "MACD showing bearish momentum"
        ++ when (lt currentPrice sma20) "Price below key moving average"
        ++ when volumeUp "Strong volume confirmation"
    | HOLD =>
        ["Mixed signals suggest sideways movement";
         "Wait for clearer market direction"]
    end in
  match String.concat "; " reasons with
  | EmptyString => "Technical analysis inconclusive"
  | joined => joined
  end.

Definition generateStructuredSignal (marketData : list Bar.t)
  : result Structured.t :=
  indicators <- calculateTechnicalIndicators marketData ;;
  let signal := analyzeSignal indicators in
  let confidence := calculateDynamicConfidence signal indicators in
  zones <- calculateEntryExitZones marketData signal ;;
  Ok {| Structured.signal := Signal.type signal;
        Structured.entryZone := Zones.entry zones;
        Structured.target := Zones.target zones;
        Structured.stopLoss := Zones.stopLoss zones;
        Structured.confidence := confidencePct confidence;
        Structured.reasoning := generateReasoning signal indicators |}.

End WithSqrt.

(** The running strength of a tally is a finite number. *)
Definition tally_finite (t : tally) : Prop := is_finite (fst (fst t)).

(** What is asked of an implementation of [Math.sqrt]: a finite,
    non-negative result on finite, non-negative numbers, and [NaN] kept. *)
Definition sqrt_sound (Math_sqrt : num -> num) : Prop :=
  (forall q, 0 <= q -> exists r, Math_sqrt (Fin q) = Fin r /\ 0 <= r)
  /\ Math_sqrt NaN = NaN.

(** Closes that never fall from one bar to the next. *)
Fixpoint nondecreasing (closes : list Q) : Prop :=
  match closes with
  | previous :: (current :: _) as rest =>
      previous <= current /\ nondecreasing rest
  | _ => True
  end.

(** The sum of a list of rationals. *)
Definition Qsum (qs : list Q) : Q := fold_right Qplus 0 qs.

(** A tally of [signalCount] entries: one factor name per entry, and a
    strength between [- signalCount] and [signalCount]. *)
Definition tally_bounded (t : tally) : Prop :=
  let '(signalStrength, signalCount, signals) := t in
  within (- inject_Z (Z.of_nat signalCount)) (inject_Z (Z.of_nat signalCount))
         signalStrength
  /\ List.length signals = signalCount.

(** A bar whose low, close and high are numbers with
    0 <= low <= close <= high. *)
Definition well_formed (bar : Bar.t) : Prop :=
  exists low close high,
    Bar.low bar = Fin low /\ Bar.close bar = Fin close
    /\ Bar.high bar = Fin high /\ 0 <= low /\ low <= close <= high.

(** A bar whose low lies strictly below its high. *)
Definition has_range (bar : Bar.t) : Prop :=
  lt (Bar.low bar) (Bar.high bar) = true.

End EnhancedTradingEngine.

(** * SmartDecisionEngine (dual-source analysis) *)

Module SmartDecisionEngine.
Import JS.

(** The indicator object of one source; a property that is not there reads
    as [undefined]. *)
Module Indicators.
Record t : Type := make
  { rsi : value; macd : value; sma20 : value; currentPrice : value }.
End Indicators.

Module MarketData.
Record t : Type := make
  { currentPrice : value; technicalIndicators : option Indicators.t }.
End MarketData.

Module PocketOptionData.
Record t : Type := make
  { price : value; indicators : option Indicators.t }.
End PocketOptionData.

Inductive SignalKind : Type := RSI | MACD | SMA.

Module Entry.
Record t : Type := make
  { type : SignalKind; value : num; agreement : bool }.
End Entry.

Module Signals.
Record t : Type := make
  { signals : list Entry.t;
    factors : list string;
    bullishCount : num;
    bearishCount : num;
    agreement : num;
    totalSignals : nat }.
End Signals.

Module Signal.
Record t : Type := make
  { symbol : string;
    action : Action;
    confidence : num;
    reasoning : list phrase;
    marketPrice : value;
    pocketOptionPrice : value;
    priceDiscrepancy : num;
    signalStrength : num;
    agreement : num;
    factorsConsidered : nat;
    timestamp : Z;
    technicalFactors : list string }.
End Signal.

Module Metrics.
Record t : Type := make
  { totalSignals : nat; accuracy : num; avgConfidence : num }.
End Metrics.

(** The fields of the class instance. *)
Module Engine.
Record t : Type := make
  { signalHistory : list Signal.t; performanceMetrics : Metrics.t }.
End Engine.

(** [new SmartDecisionEngine()]. *)
Definition constructor : Engine.t :=
  {| Engine.signalHistory := [];
     Engine.performanceMetrics :=
       {| Metrics.totalSignals := 0;
          Metrics.accuracy := Fin 0;
          Metrics.avgConfidence := Fin 0 |} |}.

(** The local variables of [analyzeTechnicalSignals]. *)
Module Tally.
Record t : Type := make
  { signals : list Entry.t;
    factors : list string;
    bullishCount : num;
    bearishCount : num;
    agreementCount : nat;
    totalSignals : nat }.
End Tally.

(** [marketIndicators.p && pocketIndicators.p]: the second object is only
    read when the first property is truthy. *)
Definition both_present
  (p : Indicators.t -> value) (name : string)
  (marketIndicators pocketIndicators : option Indicators.t) : result bool :=
  market <- read marketIndicators name ;;
  if truthy (p market)
  then pocket <- read pocketIndicators name ;; Ok (truthy (p pocket))
  else Ok false.

(** What every branch does after its analysis: push the entry, count the
    agreement, count the signal. *)
Definition record_entry
  (kind : SignalKind) (value : num) (agree : bool)
  (factor : list string) (bullish bearish : num) (t : Tally.t) : Tally.t :=
  {| Tally.signals := Tally.signals t ++ [Entry.make kind value agree];
     Tally.factors := Tally.factors t ++ factor;
     Tally.bullishCount := add (Tally.bullishCount t) bullish;
     Tally.bearishCount := add (Tally.bearishCount t) bearish;
     Tally.agreementCount :=
       if agree then S (Tally.agreementCount t) else Tally.agreementCount t;
     Tally.totalSignals := S (Tally.totalSignals t) |}.

Definition rsiAnalysis (market pocket : Indicators.t) (t : Tally.t)
  : Tally.t :=
  let marketRSI := toNumber (Indicators.rsi market) in
  let pocketRSI := toNumber (Indicators.rsi pocket) in
  let agree := lt (abs (sub marketRSI pocketRSI)) (Fin 10) in
  if lt marketRSI (Fin 30) && lt pocketRSI (Fin 35)
  then record_entry RSI (Fin 1) agree
         ["RSI oversold in both sources"] (Fin 1) (Fin 0) t
  else if gt marketRSI (Fin 70) && gt pocketRSI (Fin 65)
  then record_entry RSI (Fin (-1)) agree
         ["RSI overbought in both sources"] (Fin 0) (Fin 1) t
  else if (lt marketRSI (Fin 30) && gt pocketRSI (Fin 35))
          || (gt marketRSI (Fin 70) && lt pocketRSI (Fin 65))
  then record_entry RSI (Fin 0) agree
         ["RSI signals diverge between sources"] (Fin 0) (Fin 0) t
  else record_entry RSI (Fin 0) agree [] (Fin 0) (Fin 0) t.

Definition macdAnalysis (market pocket : Indicators.t) (t : Tally.t)
  : Tally.t :=
  let marketMACD := toNumber (Indicators.macd market) in
  let pocketMACD := toNumber (Indicators.macd pocket) in
  let agree := Bool.eqb (gt marketMACD (Fin 0)) (gt pocketMACD (Fin 0)) in
  if gt marketMACD (Fin 0) && gt pocketMACD (Fin 0)
  then record_entry MACD (Fin 1) agree
         ["MACD bullish in both sources"] (Fin 1) (Fin 0) t
  else if lt marketMACD (Fin 0) && lt pocketMACD (Fin 0)
  then record_entry MACD (Fin (-1)) agree
         ["MACD bearish in both sources"] (Fin 0) (Fin 1) t
  else record_entry MACD (Fin 0) agree
         ["MACD signals diverge between sources"] (Fin 0) (Fin 0) t.

(** [v || 0]. *)
Definition or_zero (v : value) : num :=
  if truthy v then toNumber v else Fin 0.

Definition smaAnalysis (market pocket : Indicators.t) (t : Tally.t)
  : Tally.t :=
  let marketPrice := or_zero (Indicators.currentPrice market) in
  let pocketPrice := or_zero (Indicators.currentPrice pocket) in
  let marketAboveSMA := gt marketPrice (toNumber (Indicators.sma20 market)) in
  let pocketAboveSMA := gt pocketPrice (toNumber (Indicators.sma20 pocket)) in
  let agree := Bool.eqb marketAboveSMA pocketAboveSMA in
  if marketAboveSMA && pocketAboveSMA
  then record_entry SMA (Fin 0.5) agree
         ["Price above SMA(20) in both sources"] (Fin 0.5) (Fin 0) t
  else if negb marketAboveSMA && negb pocketAboveSMA
  then record_entry SMA (Fin (-0.5)) agree
         ["Price below SMA(20) in both sources"] (Fin 0) (Fin 0.5) t
  else record_entry SMA (Fin 0) agree
         ["SMA signals diverge between sources"] (Fin 0) (Fin 0) t.

(** [if (marketIndicators.p && pocketIndicators.p) { analysis }]. *)
Definition when_both
  (p : Indicators.t -> value) (name : string)
  (marketIndicators pocketIndicators : option Indicators.t)
  (analysis : Indicators.t -> Indicators.t -> Tally.t -> Tally.t)
  (t : Tally.t) : result Tally.t :=
  present <- both_present p name marketIndicators pocketIndicators ;;
  if present : bool
  then market <- read marketIndicators name ;;
       pocket <- read pocketIndicators name ;;
       Ok (analysis market pocket t)
  else Ok t.

Definition analyzeTechnicalSignals
  (marketIndicators pocketIndicators : option Indicators.t)
  : result Signals.t :=
  let t0 :=
    {| Tally.signals := []; Tally.factors := [];
       Tally.bullishCount := Fin 0; Tally.bearishCount := Fin 0;
       Tally.agreementCount := 0; Tally.totalSignals := 0 |} in
  (* RSI Analysis *)
  t1 <- when_both Indicators.rsi "rsi"
          marketIndicators pocketIndicators rsiAnalysis t0 ;;
  (* MACD Analysis *)
  t2 <- when_both Indicators.macd "macd"
          marketIndicators pocketIndicators macdAnalysis t1 ;;
  (* Moving Average Analysis *)
  t3 <- when_both Indicators.sma20 "sma20"
          marketIndicators pocketIndicators smaAnalysis t2 ;;
  (* Calculate overall agreement *)
  let agreement :=
    if (0 <? Tally.totalSignals t3)%nat
    then div (of_nat (Tally.agreementCount t3)) (of_nat (Tally.totalSignals t3))
    else Fin 0 in
  Ok {| Signals.signals := Tally.signals t3;
        Signals.factors := Tally.factors t3;
        Signals.bullishCount := Tally.bullishCount t3;
        Signals.bearishCount := Tally.bearishCount t3;
        Signals.agreement := agreement;
        Signals.totalSignals := Tally.totalSignals t3 |}.

Definition calculateSignalStrength (signals : Signals.t) : num :=
  let netBullish :=
    sub (Signals.bullishCount signals) (Signals.bearishCount signals) in
  let maxPossible :=
    match Signals.totalSignals signals with
    | O => Fin 1
    | n => of_nat n
    end in
  div netBullish maxPossible.

Definition determineAction (signalStrength agreement : num) : Action :=
  let agreementThreshold := Fin 0.6 in
  if lt agreement agreementThreshold then HOLD
  else if gt signalStrength (Fin 0.3) then BUY
  else if lt signalStrength (Fin (-0.3)) then SELL
  else HOLD.

Definition calculateFinalConfidence
  (baseConfidence signalStrength agreement priceDiscrepancy : num) : num :=
  let confidence := baseConfidence in
  let confidence := mul confidence (add (Fin 1) (abs signalStrength)) in
  let confidence := mul confidence (add (Fin 0.5) agreement) in
  let confidence :=
    if gt priceDiscrepancy (Fin 0.02)
    then mul confidence (sub (Fin 1) priceDiscrepancy)
    else confidence in
  max (Fin 0.1) (min (Fin 0.95) confidence).

(** The reasons before [reasons.join('. ') + '.']. *)
Definition generateReasoning
  (signals : Signals.t) (priceDiscrepancy : num) (action : Action)
  : list phrase :=
  let discrepancy :=
    if gt priceDiscrepancy (Fin 0.02)
    then [Templated "High price discrepancy ("
                    (toFixed 1 (mul priceDiscrepancy (Fin 100)))
                    "%) between sources reduces confidence"]
    else if lt priceDiscrepancy (Fin 0.01)
    then [Plain "Low price discrepancy indicates good source alignment"]
    else [] in
  let agreement :=
    if gt (Signals.agreement signals) (Fin 0.8)
    then [Plain "Strong agreement between market and Pocket Option indicators"]
    else if lt (Signals.agreement signals) (Fin 0.5)
    then [Plain "Significant divergence between data sources suggests caution"]
    else [] in
  let closing :=
    match action with
    | BUY => Plain "Technical indicators suggest potential upward movement"
    | SELL => Plain "Technical indicators suggest potential downward movement"
    | HOLD =>
        Plain "Mixed or weak signals recommend waiting for clearer direction"
    end in
  discrepancy ++ agreement ++ map Plain (Signals.factors signals) ++ [closing].

(** [now] is the value of [new Date()]. *)
Definition createNeutralSignal (now : Z) (symbol reason : string) : Signal.t :=
  {| Signal.symbol := symbol;
     Signal.action := HOLD;
     Signal.confidence := Fin 0.5;
     Signal.reasoning := [Plain reason];
     Signal.marketPrice := Some (Fin 0);
     Signal.pocketOptionPrice := Some (Fin 0);
     Signal.priceDiscrepancy := Fin 0;
     Signal.signalStrength := Fin 0;
     Signal.agreement := Fin 0;
     Signal.factorsConsidered := 0;
     Signal.timestamp := now;
     Signal.technicalFactors := [] |}.

Definition updatePerformanceMetrics (engine : Engine.t) : Engine.t :=
  let history := Engine.signalHistory engine in
  let metrics := Engine.performanceMetrics engine in
  {| Engine.signalHistory := history;
     Engine.performanceMetrics :=
       {| Metrics.totalSignals := List.length history;
          Metrics.accuracy := Metrics.accuracy metrics;
          Metrics.avgConfidence :=
            if (0 <? List.length history)%nat
            then div (sum (map Signal.confidence history))
                     (of_nat (List.length history))
            else Metrics.avgConfidence metrics |} |}.

(** The method returns the signal and leaves the instance in a new state;
    both are returned.  The early return for a missing source does not touch
    the history. *)
Definition generateIntelligentSignal
  (now : Z) (engine : Engine.t) (symbol : string)
  (marketData : option MarketData.t)
  (pocketOptionData : option PocketOptionData.t)
  : result (Signal.t * Engine.t) :=
  match marketData, pocketOptionData with
  | Some market, Some pocket =>
      let marketPrice := MarketData.currentPrice market in
      let pocketPrice := PocketOptionData.price pocket in
      let marketIndicators := MarketData.technicalIndicators market in
      let pocketIndicators := PocketOptionData.indicators pocket in
      let priceDiscrepancy :=
        div (abs (sub (toNumber marketPrice) (toNumber pocketPrice)))
            (toNumber marketPrice) in
      let baseConfidence :=
        max (Fin 0.3) (sub (Fin 1) (mul priceDiscrepancy (Fin 5))) in
      signals <- analyzeTechnicalSignals marketIndicators pocketIndicators ;;
      let signalStrength := calculateSignalStrength signals in
      let action := determineAction signalStrength (Signals.agreement signals) in
      let confidence :=
        calculateFinalConfidence baseConfidence signalStrength
          (Signals.agreement signals) priceDiscrepancy in
      let reasoning := generateReasoning signals priceDiscrepancy action in
      let signal :=
        {| Signal.symbol := symbol;
           Signal.action := action;
           Signal.confidence := confidence;
           Signal.reasoning := reasoning;
           Signal.marketPrice := marketPrice;
           Signal.pocketOptionPrice := pocketPrice;
           Signal.priceDiscrepancy := mul priceDiscrepancy (Fin 100);
           Signal.signalStrength := abs signalStrength;
           Signal.agreement := Signals.agreement signals;
           Signal.factorsConsidered := List.length (Signals.factors signals);
           Signal.timestamp := now;
           Signal.technicalFactors := Signals.factors signals |} in
      let engine :=
        {| Engine.signalHistory := Engine.signalHistory engine ++ [signal];
           Engine.performanceMetrics := Engine.performanceMetrics engine |} in
      Ok (signal, updatePerformanceMetrics engine)
  | _, _ => Ok (createNeutralSignal now symbol "Insufficient data", engine)
  end.

(** Finite, valid input: when both sources are there, both prices are
    finite numbers, the market price is not zero, and both carry an
    indicator object. *)
Definition valid_input
  (marketData : option MarketData.t)
  (pocketOptionData : option PocketOptionData.t) : Prop :=
  match marketData, pocketOptionData with
  | Some market, Some pocket =>
      (exists mp, MarketData.currentPrice market = Some (Fin mp) /\ ~ mp == 0)
      /\ (exists pp, PocketOptionData.price pocket = Some (Fin pp))
      /\ MarketData.technicalIndicators market <> None
      /\ PocketOptionData.indicators pocket <> None
  | _, _ => True
  end.

(** Both counters of the tally are finite numbers. *)
Definition tally_finite (t : Tally.t) : Prop :=
  is_finite (Tally.bullishCount t) /\ is_finite (Tally.bearishCount t).

(** [this.signalHistory.slice(-limit)]. *)
Definition getSignalHistory (engine : Engine.t) (limit : nat)
  : list Signal.t :=
  slice_last limit (Engine.signalHistory engine).

(** The metrics, with the average confidence rounded to two decimals. *)
Definition getPerformanceMetrics (engine : Engine.t) : Metrics.t :=
  let metrics := Engine.performanceMetrics engine in
  {| Metrics.totalSignals := Metrics.totalSignals metrics;
     Metrics.accuracy := Metrics.accuracy metrics;
     Metrics.avgConfidence :=
       div (round (mul (Metrics.avgConfidence metrics) (Fin 100))) (Fin 100) |}.

(** A reading with the falsy values ([0], [NaN]) taken for missing. *)
Definition only_truthy (v : value) : value :=
  if truthy v then v else None.

(** The indicator object with every falsy reading removed. *)
Definition without_falsy (indicators : Indicators.t) : Indicators.t :=
  {| Indicators.rsi := only_truthy (Indicators.rsi indicators);
     Indicators.macd := only_truthy (Indicators.macd indicators);
     Indicators.sma20 := only_truthy (Indicators.sma20 indicators);
     Indicators.currentPrice :=
       only_truthy (Indicators.currentPrice indicators) |}.

(** One of the three guarded readings of the market source is truthy. *)
Definition some_reading (indicators : Indicators.t) : bool :=
  truthy (Indicators.rsi indicators)
  || truthy (Indicators.macd indicators)
  || truthy (Indicators.sma20 indicators).

(** Every confidence in the history lies in [0.1, 0.95]. *)
Definition history_clamped (engine : Engine.t) : Prop :=
  Forall (fun signal => within 0.1 0.95 (Signal.confidence signal))
         (Engine.signalHistory engine).

(** The counters of a tally after at most [k] guarded blocks: the two
    counts are non-negative numbers that share out at most one point per
    signal, no more agreements and factors than signals are counted, and
    one entry is pushed per signal. *)
Definition tally_counted (k : nat) (t : Tally.t) : Prop :=
  exists bullish bearish,
    Tally.bullishCount t = Fin bullish
    /\ Tally.bearishCount t = Fin bearish
    /\ 0 <= bullish /\ 0 <= bearish
    /\ bullish + bearish <= inject_Z (Z.of_nat (Tally.totalSignals t))
    /\ (Tally.agreementCount t <= Tally.totalSignals t)%nat
    /\ List.length (Tally.signals t) = Tally.totalSignals t
    /\ (List.length (Tally.factors t) <= Tally.totalSignals t)%nat
    /\ (Tally.totalSignals t <= k)%nat.

(** The states of an instance: a new one, then one call after the other on
    finite, valid input. *)
Inductive reachable : Engine.t -> Prop :=
| reachable_new : reachable constructor
| reachable_call now engine symbol marketData pocketOptionData signal engine' :
    reachable engine ->
    valid_input marketData pocketOptionData ->
    generateIntelligentSignal now engine symbol marketData pocketOptionData
    = Ok (signal, engine') ->
    reachable engine'.

End SmartDecisionEngine.

(** * src/utils/advancedTradingAI.js *)

Module AdvancedTradingAI.
Import JS.

Module TechnicalIndicators.
Record t : Type := make { rsi : value; macd : value; volumeMA : value }.
End TechnicalIndicators.

Module MarketData.
Record t : Type := make
  { currentPrice : value;
    volume : value;
    technicalIndicators : option TechnicalIndicators.t }.
End MarketData.

Module PocketIndicators.
Record t : Type := make { rsi : value; macd : value }.
End PocketIndicators.

Module PocketOptionData.
Record t : Type := make { indicators : option PocketIndicators.t }.
End PocketOptionData.

Inductive RiskLevel : Type := low | medium | high.

Module MarketAnalysis.
Record t : Type := make
  { priceAction : string * num;          (* trend, strength *)
    volumeAnalysis : num * string;       (* relative, trend *)
    volatility : num;
    trendStrength : num;
    sourceAgreement : num;
    sentiment : string;
    timestamp : Z }.
End MarketAnalysis.

Module Composite.
Record t : Type := make { strength : num; direction : num }.
End Composite.

(** The [signal] property of each analysis, and the composite. *)
Module Signals.
Record t : Type := make
  { rsi : num;
    macd : num;
    movingAverages : num;
    bollingerBands : num;
    stochastic : num;
    pricePattern : num;
    volumeProfile : num;
    composite : Composite.t }.
End Signals.

Module Pattern.
Record t : Type := make
  { similarity : num; successRate : num; avgHoldTime : phrase }.
End Pattern.

Module Insights.
Record t : Type := make
  { patternMatch : num;
    successProbability : num;
    riskLevel : RiskLevel;
    recommendedHoldTime : phrase;
    confidence : num }.
End Insights.

Module Risk.
Record t : Type := make { stopLoss : num; takeProfit : num; ratio : num }.
End Risk.

(** The properties only a full recommendation has. *)
Module Details.
Record t : Type := make
  { entryPrice : value;
    entryWindow : string;
    positionSize : num;
    positionAmount : num;
    stopLoss : num;
    takeProfit : num;
    riskRewardRatio : num;
    exitStrategy : string;
    signalStrength : num;
    patternMatch : num;
    successProbability : num;
    timestamp : Z }.
End Details.

(** A recommendation object.  The safe recommendation has the first seven
    properties only: [details] is [None] for it. *)
Module Recommendation.
Record t : Type := make
  { symbol : string;
    action : Action;
    confidence : num;
    reasoning : list phrase;
    riskLevel : RiskLevel;
    bestEntryTime : string;
    estimatedHoldTime : phrase;
    details : option Details.t }.
End Recommendation.

(** A stored trade; [success] is the truth value of the property that
    [learnFromTrade] sets.  The random [id] is not modelled. *)
Module Trade.
Record t : Type := make
  { symbol : string;
    recommendation : Recommendation.t;
    marketAnalysis : MarketAnalysis.t;
    timestamp : Z;
    success : bool }.
End Trade.

(** The instance's trade history, and what was written to
    [console.error]. *)
Module AI.
Record t : Type := make { tradeHistory : list Trade.t; console : list error }.
End AI.

Definition riskThreshold : num := Fin 0.02.
Definition confidenceThreshold : num := Fin 0.75.

(** The helper methods at the end of the class. *)
Definition analyzePriceAction (price : value) : string * num :=
  ("neutral", Fin 0.5).
Definition analyzeVolume (volume volumeMA : value) : num * string :=
  (div (toNumber volume) (toNumber volumeMA), "normal").
Definition calculateVolatility : num := Fin 0.02.
Definition calculateTrendStrength : num := Fin 0.5.
Definition calculateSourceAgreement : num := Fin 0.8.
Definition calculateMarketSentiment : string := "neutral".
Definition findSimilarPatterns (symbol : string) (analysis : MarketAnalysis.t)
  : option Pattern.t := None.
Definition assessRiskLevel : RiskLevel := medium.

(** [now] is the value of [Date.now()], taken to be the same at every
    reading within one call. *)
Definition analyzeMarketConditions
  (now : Z) (marketData : option MarketData.t)
  (pocketOptionData : option PocketOptionData.t)
  : result MarketAnalysis.t :=
  marketData' <- read marketData "technicalIndicators" ;;
  let market := MarketData.technicalIndicators marketData' in
  pocketOptionData' <- read pocketOptionData "indicators" ;;
  let priceAction := analyzePriceAction (MarketData.currentPrice marketData') in
  market' <- read market "volumeMA" ;;
  let volumeAnalysis :=
    analyzeVolume (MarketData.volume marketData')
                  (TechnicalIndicators.volumeMA market') in
  Ok {| MarketAnalysis.priceAction := priceAction;
        MarketAnalysis.volumeAnalysis := volumeAnalysis;
        MarketAnalysis.volatility := calculateVolatility;
        MarketAnalysis.trendStrength := calculateTrendStrength;
        MarketAnalysis.sourceAgreement := calculateSourceAgreement;
        MarketAnalysis.sentiment := calculateMarketSentiment;
        MarketAnalysis.timestamp := now |}.

Definition analyzeRSI (marketRSI pocketRSI : num) : num :=
  let avgRSI := div (add marketRSI pocketRSI) (Fin 2) in
  let signal := Fin 0 in
  let signal := if lt avgRSI (Fin 30) then Fin 1 else signal in
  let signal := if gt avgRSI (Fin 70) then Fin (-1) else signal in
  signal.

Definition analyzeMacd (marketMACD pocketMACD : num) : num :=
  let avgMACD := div (add marketMACD pocketMACD) (Fin 2) in
  let signal := Fin 0 in
  let signal := if gt avgMACD (Fin 0) then Fin 1 else signal in
  let signal := if lt avgMACD (Fin 0) then Fin (-1) else signal in
  signal.

(** Every analysis has a [signal], so all seven are summed and counted. *)
Definition calculateCompositeSignal (signals : list num) : Composite.t :=
  let totalSignal := fold_left add signals (Fin 0) in
  let signalCount := List.length signals in
  {| Composite.strength :=
       if (0 <? signalCount)%nat
       then abs (div totalSignal (of_nat signalCount))
       else Fin 0;
     Composite.direction :=
       if gt totalSignal (Fin 0) then Fin 1
       else if lt totalSignal (Fin 0) then Fin (-1)
       else Fin 0 |}.

Definition calculateAdvancedSignals
  (marketData : MarketData.t) (pocketOptionData : PocketOptionData.t)
  : result Signals.t :=
  market <- read (MarketData.technicalIndicators marketData) "rsi" ;;
  pocket <- read (PocketOptionData.indicators pocketOptionData) "rsi" ;;
  let rsi := analyzeRSI (toNumber (TechnicalIndicators.rsi market))
                        (toNumber (PocketIndicators.rsi pocket)) in
  let macd := analyzeMacd (toNumber (TechnicalIndicators.macd market))
                          (toNumber (PocketIndicators.macd pocket)) in
  let others := Fin 0 in
  Ok {| Signals.rsi := rsi;
        Signals.macd := macd;
        Signals.movingAverages := others;
        Signals.bollingerBands := others;
        Signals.stochastic := others;
        Signals.pricePattern := others;
        Signals.volumeProfile := others;
        Signals.composite :=
          calculateCompositeSignal
            [rsi; macd; others; others; others; others; others] |}.

Definition week_ms : Z := 7 * 24 * 60 * 60 * 1000.

(** The accuracy of [getRecentPerformance]. *)
Definition getRecentPerformance (now : Z) (ai : AI.t) (symbol : string)
  : num :=
  let recentTrades :=
    slice_last 10
      (filter (fun t => String.eqb (Trade.symbol t) symbol
                        && (now - week_ms <? Trade.timestamp t)%Z)
              (AI.tradeHistory ai)) in
  match recentTrades with
  | [] => Fin 0.5
  | _ =>
      div (of_nat (List.length (filter Trade.success recentTrades)))
          (of_nat (List.length recentTrades))
  end.

Definition applyMachineLearning
  (now : Z) (ai : AI.t) (symbol : string) (signals : Signals.t)
  (historicalPattern : option Pattern.t) : Insights.t :=
  let patternMatch :=
    match historicalPattern with
    | Some p => Pattern.similarity p | None => Fin 0 end in
  let successProbability :=
    match historicalPattern with
    | Some p => Pattern.successRate p | None => Fin 0.5 end in
  let recommendedHoldTime :=
    match historicalPattern with
    | Some p => Pattern.avgHoldTime p | None => Plain "2-4 hours" end in
  let accuracy := getRecentPerformance now ai symbol in
  let confidence :=
    if gt accuracy (Fin 0.7) then mul (Fin 0.5) (Fin 1.2)
    else if lt accuracy (Fin 0.4) then mul (Fin 0.5) (Fin 0.8)
    else Fin 0.5 in
  {| Insights.patternMatch := patternMatch;
     Insights.successProbability := successProbability;
     Insights.riskLevel := assessRiskLevel;
     Insights.recommendedHoldTime := recommendedHoldTime;
     Insights.confidence := confidence |}.

Definition calculateOptimalEntry (signals : Signals.t) : string * string :=
  let strength := Composite.strength (Signals.composite signals) in
  if gt strength (Fin 0.8) then ("Now", "0-5 minutes")
  else if gt strength (Fin 0.6) then ("Next 30 minutes", "15-60 minutes")
  else ("Wait for confirmation", "1-4 hours").

Definition riskMultipliers (riskLevel : RiskLevel) : num :=
  match riskLevel with
  | low => Fin 1.5
  | medium => Fin 1
  | high => Fin 0.5
  end.

(** Returns [percentage] and [amount]. *)
Definition calculatePositionSize (confidence : num) (riskLevel : RiskLevel)
  : num * num :=
  let baseSize := Fin 0.1 in
  let adjustedSize := mul (mul baseSize confidence) (riskMultipliers riskLevel) in
  let percentage := min (max adjustedSize (Fin 0.02)) (Fin 0.25) in
  (round (mul percentage (Fin 100)), round (mul percentage (Fin 10000))).

(** The local [stopLoss] and [takeProfit] of [calculateRiskManagement],
    before they are rounded; [None] on the branch that returns early. *)
Definition riskLevels (entryPrice : num) (action : Action) (volatility : num)
  : option (num * num) :=
  let volatilityMultiplier := max (mul volatility (Fin 2)) (Fin 0.02) in
  match action with
  | BUY =>
      Some (mul entryPrice (sub (Fin 1) volatilityMultiplier),
            mul entryPrice (add (Fin 1) (mul volatilityMultiplier (Fin 2))))
  | SELL =>
      Some (mul entryPrice (add (Fin 1) volatilityMultiplier),
            mul entryPrice (sub (Fin 1) (mul volatilityMultiplier (Fin 2))))
  | HOLD => None
  end.

(** [Math.abs(takeProfit - entryPrice) / Math.abs(entryPrice - stopLoss)]. *)
Definition rewardToRisk (entryPrice stopLoss takeProfit : num) : num :=
  div (abs (sub takeProfit entryPrice)) (abs (sub entryPrice stopLoss)).

Definition calculateRiskManagement
  (entryPrice : num) (action : Action) (volatility : num) : Risk.t :=
  match riskLevels entryPrice action volatility with
  | None =>
      {| Risk.stopLoss := Fin 0; Risk.takeProfit := Fin 0; Risk.ratio := Fin 0 |}
  | Some (stopLoss, takeProfit) =>
      let ratio := rewardToRisk entryPrice stopLoss takeProfit in
      {| Risk.stopLoss := div (round (mul stopLoss (Fin 100))) (Fin 100);
         Risk.takeProfit := div (round (mul takeProfit (Fin 100))) (Fin 100);
         Risk.ratio := div (round (mul ratio (Fin 10))) (Fin 10) |}
  end.

(** Returns [duration] (the number in [`${duration} hours`]) and
    [strategy].  [exitConditions] is not copied into the recommendation and
    is left out. *)
Definition estimateHoldTime (signals : Signals.t) (trendStrength : num)
  : num * string :=
  let baseDuration := Fin 4 in
  let baseDuration :=
    if gt trendStrength (Fin 0.8) then mul baseDuration (Fin 2)
    else baseDuration in
  let baseDuration :=
    if lt trendStrength (Fin 0.3) then mul baseDuration (Fin 0.5)
    else baseDuration in
  let baseDuration :=
    if gt (Composite.strength (Signals.composite signals)) (Fin 0.8)
    then mul baseDuration (Fin 1.5)
    else baseDuration in
  let duration := round baseDuration in
  (duration,
   if gt duration (Fin 8) then "swing trading"
   else if gt duration (Fin 2) then "day trading"
   else "scalp trading").

(** The reasons before [reasons.join('. ') + '.']. *)
Definition generateReasoning
  (signals : Signals.t) (mlInsights : Insights.t)
  (marketAnalysis : MarketAnalysis.t) : list phrase :=
  let when (b : bool) (reason : phrase) : list phrase :=
    if b then [reason] else [] in
  when (gt (Signals.rsi signals) (Fin 0))
       (Plain "RSI indicates oversold conditions")
  ++ when (lt (Signals.rsi signals) (Fin 0))
          (Plain "RSI indicates overbought conditions")
  ++ when (gt (Signals.macd signals) (Fin 0))
          (Plain "MACD shows bullish momentum")
  ++ when (lt (Signals.macd signals) (Fin 0))
          (Plain "MACD shows bearish momentum")
  ++ when (gt (Insights.patternMatch mlInsights) (Fin 0.7))
          (Templated "Strong pattern match ("
             (round (mul (Insights.patternMatch mlInsights) (Fin 100)))
             "%) with historical data")
  ++ when (gt (MarketAnalysis.sourceAgreement marketAnalysis) (Fin 0.8))
          (Plain "High agreement between market and Pocket Option data")
  ++ when (gt (MarketAnalysis.trendStrength marketAnalysis) (Fin 0.7))
          (Plain "Strong trend momentum detected").

Definition generateFinalRecommendation
  (now : Z) (symbol : string) (marketAnalysis : MarketAnalysis.t)
  (signals : Signals.t) (mlInsights : Insights.t) (currentPrice : value)
  : Recommendation.t :=
  let composite := Signals.composite signals in
  let confidence :=
    min (mul (Insights.confidence mlInsights)
             (MarketAnalysis.sourceAgreement marketAnalysis))
        (Fin 0.95) in
  let action :=
    if gt (Composite.strength composite) (Fin 0.6)
       && gt confidence confidenceThreshold
    then if gt (Composite.direction composite) (Fin 0) then BUY else SELL
    else HOLD in
  let entryTiming := calculateOptimalEntry signals in
  let positionSize :=
    calculatePositionSize confidence (Insights.riskLevel mlInsights) in
  let riskManagement :=
    calculateRiskManagement (toNumber currentPrice) action
      (MarketAnalysis.volatility marketAnalysis) in
  let holdTime :=
    estimateHoldTime signals (MarketAnalysis.trendStrength marketAnalysis) in
  {| Recommendation.symbol := symbol;
     Recommendation.action := action;
     Recommendation.confidence := confidencePct confidence;
     Recommendation.reasoning :=
       generateReasoning signals mlInsights marketAnalysis;
     Recommendation.riskLevel := Insights.riskLevel mlInsights;
     Recommendation.bestEntryTime := fst entryTiming;
     Recommendation.estimatedHoldTime := Templated "" (fst holdTime) " hours";
     Recommendation.details :=
       Some {| Details.entryPrice := currentPrice;
               Details.entryWindow := snd entryTiming;
               Details.positionSize := fst positionSize;
               Details.positionAmount := snd positionSize;
               Details.stopLoss := Risk.stopLoss riskManagement;
               Details.takeProfit := Risk.takeProfit riskManagement;
               Details.riskRewardRatio := Risk.ratio riskManagement;
               Details.exitStrategy := snd holdTime;
               Details.signalStrength :=
                 round (mul (Composite.strength composite) (Fin 100));
               Details.patternMatch :=
                 round (mul (Insights.patternMatch mlInsights) (Fin 100));
               Details.successProbability :=
                 round (mul (Insights.successProbability mlInsights) (Fin 100));
               Details.timestamp := now |} |}.

(** Pushes the record and keeps the last 1000. *)
Definition storeForLearning
  (now : Z) (ai : AI.t) (symbol : string)
  (recommendation : Recommendation.t) (marketAnalysis : MarketAnalysis.t)
  : AI.t :=
  let tradeRecord :=
    {| Trade.symbol := symbol;
       Trade.recommendation := recommendation;
       Trade.marketAnalysis := marketAnalysis;
       Trade.timestamp := now;
       Trade.success := false |} in
  let history := AI.tradeHistory ai ++ [tradeRecord] in
  {| AI.tradeHistory :=
       if (1000 <? List.length history)%nat
       then slice_last 1000 history else history;
     AI.console := AI.console ai |}.

Definition createSafeRecommendation (symbol : string) : Recommendation.t :=
  {| Recommendation.symbol := symbol;
     Recommendation.action := HOLD;
     Recommendation.confidence := Fin 50;
     Recommendation.reasoning :=
       [Plain "Insufficient data for reliable analysis. Recommend waiting for clearer signals."];
     Recommendation.riskLevel := high;
     Recommendation.bestEntryTime := "Wait";
     Recommendation.estimatedHoldTime := Plain "N/A";
     Recommendation.details := None |}.

(** The body of the [try] block.  The instance is only written by
    [storeForLearning], the last statement, which does not throw: when the
    body throws the instance is as it was. *)
Definition try_block
  (now : Z) (ai : AI.t) (symbol : string)
  (marketData : option MarketData.t)
  (pocketOptionData : option PocketOptionData.t)
  : result (Recommendation.t * AI.t) :=
  marketAnalysis <- analyzeMarketConditions now marketData pocketOptionData ;;
  let historicalPattern := findSimilarPatterns symbol marketAnalysis in
  marketData' <- read marketData "technicalIndicators" ;;
  pocketOptionData' <- read pocketOptionData "indicators" ;;
  signals <- calculateAdvancedSignals marketData' pocketOptionData' ;;
  let mlInsights := applyMachineLearning now ai symbol signals historicalPattern in
  let recommendation :=
    generateFinalRecommendation now symbol marketAnalysis signals mlInsights
      (MarketData.currentPrice marketData') in
  Ok (recommendation,
      storeForLearning now ai symbol recommendation marketAnalysis).

(** The [catch] clause logs the error and returns the safe
    recommendation. *)
Definition generateTradeRecommendation
  (now : Z) (ai : AI.t) (symbol : string)
  (marketData : option MarketData.t)
  (pocketOptionData : option PocketOptionData.t)
  : result (Recommendation.t * AI.t) :=
  try_catch
    (try_block now ai symbol marketData pocketOptionData)
    (fun error =>
       Ok (createSafeRecommendation symbol,
           {| AI.tradeHistory := AI.tradeHistory ai;
              AI.console := AI.console ai ++ [error] |})).

(** [this.performanceMetrics]; [avgHoldTime] and [bestStrategies] are never
    written and are left out. *)
Module Performance.
Record t : Type := make
  { totalTrades : nat;
    successfulTrades : nat;
    accuracy : num;
    totalProfit : num }.
End Performance.

(** The metrics the constructor sets. *)
Definition initialPerformance : Performance.t :=
  {| Performance.totalTrades := 0;
     Performance.successfulTrades := 0;
     Performance.accuracy := Fin 0;
     Performance.totalProfit := Fin 0 |}.

(** [updatePerformanceMetrics(trade)], on the two properties of the trade it
    reads: the truth value of [trade.success] and [trade.actualProfit]. *)
Definition updatePerformanceMetrics
  (metrics : Performance.t) (success : bool) (actualProfit : value)
  : Performance.t :=
  let totalTrades := S (Performance.totalTrades metrics) in
  let successfulTrades :=
    if success then S (Performance.successfulTrades metrics)
    else Performance.successfulTrades metrics in
  {| Performance.totalTrades := totalTrades;
     Performance.successfulTrades := successfulTrades;
     Performance.accuracy := div (of_nat successfulTrades) (of_nat totalTrades);
     Performance.totalProfit :=
       add (Performance.totalProfit metrics)
           (if truthy actualProfit then toNumber actualProfit else Fin 0) |}.

(** The metrics of a new instance after [updatePerformanceMetrics] has run
    on each trade in turn, a trade being its [success] and its
    [actualProfit]. *)
Definition recorded (trades : list (bool * value)) : Performance.t :=
  fold_left
    (fun metrics trade =>
       updatePerformanceMetrics metrics (fst trade) (snd trade))
    trades initialPerformance.


End AdvancedTradingAI.

(** * MarketDataManager (src/utils/advancedTradingAI.js) *)

Module MarketDataManager.
Import JS.

Inductive SymbolType : Type := stock | forex | crypto.

(** The [forex] and [crypto] arrays of [getAvailableSymbols]. *)
Definition forexSymbols : list string :=
  ["EURUSD=X"; "GBPUSD=X"; "USDJPY=X"; "AUDUSD=X"; "USDCAD=X";
   "USDCHF=X"; "NZDUSD=X"; "EURGBP=X"; "EURJPY=X"; "GBPJPY=X"].

Definition cryptoSymbols : list string :=
  ["BTC-USD"; "ETH-USD"; "BNB-USD"; "ADA-USD"; "SOL-USD";
   "DOT-USD"; "AVAX-USD"; "MATIC-USD"; "LINK-USD"; "UNI-USD"].

(** The [stocks] array of [getAvailableSymbols]. *)
Definition stockSymbols : list string :=
  ["AAPL"; "GOOGL"; "MSFT"; "TSLA"; "NVDA"; "AMZN"; "META"; "NFLX";
   "SPY"; "QQQ"; "IWM"; "GLD"].

(** Every symbol of [getAvailableSymbols]. *)
Definition availableSymbols : list string :=
  stockSymbols ++ forexSymbols ++ cryptoSymbols.

(** The object literal of [getBasePrice]. *)
Definition basePrices : list (string * Q) :=
  [("AAPL", 175); ("GOOGL", 135); ("MSFT", 340); ("TSLA", 250);
   ("NVDA", 450); ("AMZN", 140); ("META", 320); ("NFLX", 450);
   ("SPY", 430); ("QQQ", 370); ("IWM", 190); ("GLD", 180);
   ("EURUSD=X", 1.0850); ("GBPUSD=X", 1.2650); ("USDJPY=X", 148.50);
   ("AUDUSD=X", 0.6750); ("USDCAD=X", 1.3450); ("USDCHF=X", 0.8950);
   ("NZDUSD=X", 0.6150); ("EURGBP=X", 0.8580); ("EURJPY=X", 161.20);
   ("GBPJPY=X", 187.90);
   ("BTC-USD", 43500); ("ETH-USD", 2650); ("BNB-USD", 315);
   ("ADA-USD", 0.485); ("SOL-USD", 98.50); ("DOT-USD", 6.85);
   ("AVAX-USD", 38.50); ("MATIC-USD", 0.875); ("LINK-USD", 14.50);
   ("UNI-USD", 6.25)].

(** [basePrices[symbol] || 100.00], for a symbol of the object literal or a
    name the object does not inherit from [Object.prototype]; every price
    of the literal is truthy. *)
Definition getBasePrice (symbol : string) : num :=
  match find (fun entry => String.eqb (fst entry) symbol) basePrices with
  | Some (_, price) => Fin price
  | None => Fin 100
  end.

(** [xs.includes(x)] on an array of strings. *)
Definition includes (xs : list string) (x : string) : bool :=
  existsb (String.eqb x) xs.

Definition getSymbolType (symbol : string) : SymbolType :=
  if includes forexSymbols symbol then forex
  else if includes cryptoSymbols symbol then crypto
  else stock.

(** [getVolatility] on the three types [getSymbolType] returns. *)
Definition getVolatility (symbolType : SymbolType) : num :=
  match symbolType with
  | stock => Fin 0.02
  | forex => Fin 0.008
  | crypto => Fin 0.05
  end.

(** [Math.floor]. *)
Definition floor (x : num) : num :=
  match x with
  | Fin q => of_Z (Qfloor q)
  | _ => x
  end.

(** [parseFloat(x.toFixed(4))]. *)
Definition toFixed4 : num -> num := toFixed 4.

(** One element of the generated series; [timestamp] in milliseconds. *)
Module Candle.
Record t : Type := make
  { timestamp : Z;
    open : num; high : num; low : num; close : num; volume : num }.
End Candle.

Definition quarter_hour_ms : Z := 15 * 60 * 1000.

Section WithRandom.

(** [Math.random]: [Math_random k] is what the call number [k] returns. *)
Variable Math_random : nat -> Q.

(** One turn of the loop of [generateHistoricalData], at loop index [i],
    with [calls] calls of [Math.random] made so far: the candle pushed and
    the new [currentPrice]. *)
Definition turn
  (now : Z) (volatility : num) (i : nat) (currentPrice : num) (calls : nat)
  : Candle.t * num :=
  let random k := Fin (Math_random (calls + k)) in
  let timestamp := (now - Z.of_nat i * quarter_hour_ms)%Z in
  (* Random walk with volatility *)
  let change :=
    mul (mul (mul (sub (random 0%nat) (Fin 0.5)) (Fin 2)) volatility)
        currentPrice in
  let currentPrice := max (Fin 0.01) (add currentPrice change) in
  let open := currentPrice in
  let high := mul open (add (Fin 1) (mul (random 1%nat) volatility)) in
  let low := mul open (sub (Fin 1) (mul (random 2%nat) volatility)) in
  let close := add low (mul (random 3%nat) (sub high low)) in
  let volume :=
    add (floor (mul (random 4%nat) (Fin 1000000))) (Fin 100000) in
  ({| Candle.timestamp := timestamp;
      Candle.open := toFixed4 open;
      Candle.high := toFixed4 high;
      Candle.low := toFixed4 low;
      Candle.close := toFixed4 close;
      Candle.volume := volume |},
   close).

(** [for (let i = periods; i >= 0; i--)], from index [i] on. *)
Fixpoint turns
  (now : Z) (volatility : num) (i : nat) (currentPrice : num) (calls : nat)
  : list Candle.t :=
  let '(candle, close) := turn now volatility i currentPrice calls in
  candle ::
    match i with
    | O => []
    | S i' => turns now volatility i' close (calls + 5)
    end.

(** [now] is the value of [new Date()]; [calls] counts the calls of
    [Math.random] made before this one. *)
Definition generateHistoricalData
  (now : Z) (calls : nat) (basePrice volatility : num) (periods : nat)
  : list Candle.t :=
  turns now volatility periods basePrice calls.

End WithRandom.

(** The series [fetchMarketData] returns for a symbol, after one draw for
    the simulated delay. *)
Definition fetchMarketData
  (Math_random : nat -> Q) (now : Z) (calls : nat) (symbol : string)
  : list Candle.t :=
  let symbolType := getSymbolType symbol in
  let basePrice := getBasePrice symbol in
  let volatility := getVolatility symbolType in
  generateHistoricalData Math_random now (calls + 1) basePrice volatility 100.

(** A candle as [EnhancedTradingEngine] reads it. *)
Definition bar_of (candle : Candle.t) : EnhancedTradingEngine.Bar.t :=
  {| EnhancedTradingEngine.Bar.open := Candle.open candle;
     EnhancedTradingEngine.Bar.high := Candle.high candle;
     EnhancedTradingEngine.Bar.low := Candle.low candle;
     EnhancedTradingEngine.Bar.close := Candle.close candle;
     EnhancedTradingEngine.Bar.volume := Candle.volume candle |}.

(** Every call of [Math.random] returns a number in [0, 1). *)
Definition random_in_unit_interval (Math_random : nat -> Q) : Prop :=
  forall k, 0 <= Math_random k < 1.

(** A candle of positive numbers with low <= open <= high and
    low <= close <= high, an opening price of 0.01 at least, and a volume
    between 100000 and 1099999. *)
Definition well_formed (candle : Candle.t) : Prop :=
  exists open high low close,
    Candle.open candle = Fin open /\ Candle.high candle = Fin high
    /\ Candle.low candle = Fin low /\ Candle.close candle = Fin close
    /\ 0 < low /\ low <= open <= high /\ low <= close <= high
    /\ 0.01 <= open
    /\ within 100000 1099999 (Candle.volume candle).

(** A repeatable source of draws for concrete runs: 0, 1/7, ..., 6/7, 0,
    ... *)
Definition sevenths (k : nat) : Q := inject_Z (Z.of_nat (k mod 7)) / 7.

End MarketDataManager.

(** * Concrete inputs *)

Module Samples.
Import JS.

(** A bar whose four prices are given, with volume 1000. *)
Definition bar (o h l c : Q) : EnhancedTradingEngine.Bar.t :=
  EnhancedTradingEngine.Bar.make (Fin o) (Fin h) (Fin l) (Fin c) (Fin 1000).

(** Three bars closing at 100, 110 and 99: a window far shorter than any
    lookback. *)
Definition three_bars : list EnhancedTradingEngine.Bar.t :=
  [bar 100 101 99 100; bar 100 111 100 110; bar 110 110 98 99].

(** Thirty-five closes 1, 2, ..., 35: enough for every lookback. *)
Definition ramp : list num := map of_nat (seq 1 35).

(** Fourteen bars that all open, peak, bottom and close at 100. *)
Definition flat_window : list EnhancedTradingEngine.Bar.t :=
  repeat (bar 100 100 100 100) 14.

(** Three bars of a currency pair, closing at 1.230, 1.240 and 1.234. *)
Definition forex_bars : list EnhancedTradingEngine.Bar.t :=
  [bar 1.228 1.232 1.226 1.230;
   bar 1.230 1.242 1.229 1.240;
   bar 1.240 1.241 1.231 1.234].

Definition hold_signal : EnhancedTradingEngine.Signal.t :=
  {| EnhancedTradingEngine.Signal.type := HOLD;
     EnhancedTradingEngine.Signal.strength := Fin 0;
     EnhancedTradingEngine.Signal.factors := [];
     EnhancedTradingEngine.Signal.rawStrength := Fin 0 |}.

Definition buy_signal : EnhancedTradingEngine.Signal.t :=
  {| EnhancedTradingEngine.Signal.type := BUY;
     EnhancedTradingEngine.Signal.strength := Fin 1;
     EnhancedTradingEngine.Signal.factors := ["RSI oversold"];
     EnhancedTradingEngine.Signal.rawStrength := Fin 1 |}.

(** Both sources oversold on RSI, but fifteen points apart; a quote of 100
    against 100.5. *)
Definition oversold_market : SmartDecisionEngine.MarketData.t :=
  {| SmartDecisionEngine.MarketData.currentPrice := Some (Fin 100);
     SmartDecisionEngine.MarketData.technicalIndicators :=
       Some (SmartDecisionEngine.Indicators.make
               (Some (Fin 15)) None None None) |}.

Definition oversold_pocket : SmartDecisionEngine.PocketOptionData.t :=
  {| SmartDecisionEngine.PocketOptionData.price := Some (Fin 100.5);
     SmartDecisionEngine.PocketOptionData.indicators :=
       Some (SmartDecisionEngine.Indicators.make
               (Some (Fin 30)) None None None) |}.

(** A market quote with its indicators, for the learning engine. *)
Definition quoted_market : AdvancedTradingAI.MarketData.t :=
  {| AdvancedTradingAI.MarketData.currentPrice := Some (Fin 175.5);
     AdvancedTradingAI.MarketData.volume := Some (Fin 1000000);
     AdvancedTradingAI.MarketData.technicalIndicators :=
       Some (AdvancedTradingAI.TechnicalIndicators.make
               (Some (Fin 45)) (Some (Fin 0.5)) (Some (Fin 800000))) |}.

(** [new AdvancedTradingAI()] with nothing in local storage. *)
Definition fresh_ai : AdvancedTradingAI.AI.t :=
  {| AdvancedTradingAI.AI.tradeHistory := [];
     AdvancedTradingAI.AI.console := [] |}.

End Samples.

(** * The model at work *)

Module Examples.
Import JS.

Example special_values :
  div (Fin 0) (Fin 0) = NaN
  /\ div (Fin 1) (Fin 0) = PInf
  /\ div (Fin (-1)) (Fin 0) = NInf
  /\ mul PInf (Fin 0) = NaN
  /\ lt NaN (Fin 1) = false
  /\ max (Fin 0.1) NaN = NaN
  /\ min_list [] = PInf
  /\ max_list [] = NInf.
Proof. repeat split. Qed.

Example rounding :
  round (Fin 2.5) = Fin 3
  /\ round (Fin (-2.5)) = Fin (-2)
  /\ toFixed2 (Fin 1.234) = Fin 1.23
  /\ toFixed2 (Fin (-1.226)) = Fin (-1.23)
  /\ toFixed 1 (Fin 3.14159) = Fin 3.1
  /\ confidencePct (Fin 0.95) = Fin 95.
Proof. repeat split. Qed.

Example slices :
  slice_last 2 [1; 2; 3]%nat = [2; 3]%nat
  /\ slice_last 5 [1; 2; 3]%nat = [1; 2; 3]%nat
  /\ slice_last 0 [1; 2; 3]%nat = [1; 2; 3]%nat.
Proof. repeat split. Qed.

(** Closes 100, 110, 99: the changes are +10 and -11, so the RSI is
    100 - 100 / (1 + 10/11) = 1000/21; the lowest low is 98 and the highest
    high 111, so the stochastic is (99 - 98) / 13 * 100. *)
Example indicators_of_three_bars :
  let closes := map EnhancedTradingEngine.Bar.close Samples.three_bars in
  EnhancedTradingEngine.changes closes = [Fin 10; Fin (-11)]
  /\ EnhancedTradingEngine.calculateRSI closes 14 = Fin (1000 # 21)
  /\ EnhancedTradingEngine.calculateRSI [Fin 1; Fin 2; Fin 3] 14 = Fin 100
  /\ EnhancedTradingEngine.calculateSMA closes 2 = Fin (209 # 2)
  /\ EnhancedTradingEngine.calculateEMA [] 12 = None
  /\ EnhancedTradingEngine.calculateStochastic Samples.three_bars 14
     = Ok (Fin (100 # 13))
  /\ EnhancedTradingEngine.calculateVolatility sqrt_truncated
       Samples.three_bars 20 = Fin 0.1
  /\ EnhancedTradingEngine.Volume.trend
       (EnhancedTradingEngine.analyzeVolume [Fin 100; Fin 100; Fin 200])
     = EnhancedTradingEngine.increasing.
Proof. vm_compute. repeat split. Qed.

(** The empty window: the stochastic oscillator reads [close] of
    [undefined]. *)
Example empty_window :
  EnhancedTradingEngine.calculateTechnicalIndicators sqrt_truncated []
  = Throw (TypeError "Cannot read properties of undefined (reading 'close')").
Proof. reflexivity. Qed.

(** Market at 100 against 100.5: discrepancy 0.005, base confidence 0.975,
    doubled by the strength 1 and halved by the agreement 0, then capped. *)
Example dual_source_signal :
  exists signal engine,
    SmartDecisionEngine.generateIntelligentSignal 0
      SmartDecisionEngine.constructor "AAPL"
      (Some Samples.oversold_market) (Some Samples.oversold_pocket)
    = Ok (signal, engine)
    /\ SmartDecisionEngine.Signal.confidence signal = Fin 0.95
    /\ SmartDecisionEngine.Signal.priceDiscrepancy signal = Fin (1 # 2)
    /\ SmartDecisionEngine.Engine.signalHistory engine = [signal].
Proof. eexists _, _. split; [reflexivity|]. vm_compute. repeat split. Qed.

(** A zero market price is not valid input: the discrepancy is 0/0. *)
Example zero_price_gives_NaN :
  SmartDecisionEngine.calculateFinalConfidence
    (max (Fin 0.3) (sub (Fin 1) (mul (div (Fin 0) (Fin 0)) (Fin 5))))
    (Fin 0) (Fin 1) (div (Fin 0) (Fin 0))
  = NaN.
Proof. reflexivity. Qed.

(** The learning engine never reaches the confidence threshold 0.75: at
    best 0.5 * 1.2 * 0.8. *)
Example learning_engine_recommendation :
  exists recommendation ai,
    AdvancedTradingAI.generateTradeRecommendation 0 Samples.fresh_ai "AAPL"
      (Some Samples.quoted_market)
      (Some (AdvancedTradingAI.PocketOptionData.make
               (Some (AdvancedTradingAI.PocketIndicators.make
                        (Some (Fin 40)) (Some (Fin 0.2))))))
    = Ok (recommendation, ai)
    /\ AdvancedTradingAI.Recommendation.action recommendation = HOLD
    /\ AdvancedTradingAI.Recommendation.confidence recommendation = Fin 40
    /\ List.length (AdvancedTradingAI.AI.tradeHistory ai) = 1%nat.
Proof. eexists _, _. split; [reflexivity|]. vm_compute. repeat split. Qed.

End Examples.

(** * Facts about numbers *)

Module NumFacts.
Import JS.

Lemma Qltb_true (a b : Q) : Qltb a b = true -> a < b.
Proof.
  unfold Qltb. rewrite Qlt_alt. destruct (a ?= b); congruence.
Qed.

Lemma Qltb_false (a b : Q) : Qltb a b = false -> b <= a.
Proof.
  unfold Qltb. intros H. apply Qnot_lt_le. rewrite Qlt_alt.
  destruct (a ?= b); congruence.
Qed.

Lemma Qltb_lt (a b : Q) : a < b -> Qltb a b = true.
Proof.
  unfold Qltb. rewrite Qlt_alt. intros ->. reflexivity.
Qed.

Lemma Qltb_ge (a b : Q) : b <= a -> Qltb a b = false.
Proof.
  intros H. destruct (Qltb a b) eqn:E; [|reflexivity].
  apply Qltb_true in E. lra.
Qed.

Lemma Qeq_bool_false (a b : Q) : ~ a == b -> Qeq_bool a b = false.
Proof.
  intros H. destruct (Qeq_bool a b) eqn:E; [|reflexivity].
  apply Qeq_bool_eq in E. contradiction.
Qed.

(** Two equal rationals have the same lowest terms. *)
Lemma fin_ext (a b : Q) : a == b -> fin a = fin b.
Proof. intros H. unfold fin. f_equal. apply Qred_complete, H. Qed.

Lemma within_fin (lo hi q : Q) : lo <= q <= hi -> within lo hi (fin q).
Proof. unfold fin, within. rewrite Qred_correct. trivial. Qed.

Lemma within_finite (lo hi : Q) (x : num) : within lo hi x -> is_finite x.
Proof. destruct x; simpl; tauto. Qed.

Lemma within_weaken (lo hi lo' hi' : Q) (x : num) :
  lo' <= lo -> hi <= hi' -> within lo hi x -> within lo' hi' x.
Proof. destruct x; simpl; try tauto. intros. lra. Qed.

Lemma finite_inv (x : num) : is_finite x -> exists q, x = Fin q.
Proof. destruct x; simpl; try tauto. eauto. Qed.

Lemma add_finite (x y : num) : is_finite x -> is_finite y -> is_finite (add x y).
Proof. destruct x, y; simpl; tauto. Qed.

Lemma sub_finite (x y : num) : is_finite x -> is_finite y -> is_finite (sub x y).
Proof. destruct x, y; simpl; tauto. Qed.

Lemma mul_finite (x y : num) : is_finite x -> is_finite y -> is_finite (mul x y).
Proof. destruct x, y; simpl; tauto. Qed.

Lemma abs_finite (x : num) : is_finite x -> is_finite (abs x).
Proof. destruct x; simpl; tauto. Qed.

Lemma max_finite (x y : num) : is_finite x -> is_finite y -> is_finite (max x y).
Proof. destruct x, y; simpl; try tauto. destruct (Qltb q q0); simpl; trivial. Qed.

Lemma div_finite (x : num) (b : Q) :
  is_finite x -> ~ b == 0 -> is_finite (div x (Fin b)).
Proof.
  destruct x; simpl; try tauto. intros _ H.
  rewrite (Qeq_bool_false _ _ H). exact I.
Qed.

Lemma div_of_nat_finite (x : num) (n : nat) :
  is_finite x -> (0 < n)%nat -> is_finite (div x (of_nat n)).
Proof.
  intros Hx Hn. unfold of_nat, of_Z. apply div_finite; [assumption|].
  intros F. unfold Qeq in F. simpl in F. lia.
Qed.

Lemma abs_nonneg (x : num) : is_finite x -> exists q, abs x = Fin q /\ 0 <= q.
Proof.
  destruct x; simpl; try tauto. intros _. eexists. split; [reflexivity|].
  rewrite Qred_correct. apply Qabs_nonneg.
Qed.

(** The clamp [Math.max(lo, Math.min(hi, x))] of anything but [NaN] lies in
    [[lo, hi]]. *)
Lemma clamp_within (lo hi : Q) (x : num) :
  lo <= hi -> x <> NaN -> within lo hi (max (Fin lo) (min (Fin hi) x)).
Proof.
  intros Hlh Hx. destruct x as [q| | |]; try congruence; simpl.
  - destruct (Qltb q hi) eqn:E1; simpl.
    + apply Qltb_true in E1.
      destruct (Qltb lo q) eqn:E2; simpl;
        [apply Qltb_true in E2 | apply Qltb_false in E2]; lra.
    + destruct (Qltb lo hi) eqn:E2; simpl;
        [apply Qltb_true in E2 | apply Qltb_false in E2]; lra.
  - destruct (Qltb lo hi) eqn:E2; simpl;
      [apply Qltb_true in E2 | apply Qltb_false in E2]; lra.
  - lra.
Qed.

(** A clamped finite value stays above any bound that both it and the
    ceiling respect. *)
Lemma clamp_floor (lo hi m q : Q) :
  lo <= hi -> m <= q -> m <= hi ->
  within m hi (max (Fin lo) (min (Fin hi) (Fin q))).
Proof.
  intros Hlh Hq Hm. simpl.
  destruct (Qltb q hi) eqn:E1; simpl.
  - apply Qltb_true in E1.
    destruct (Qltb lo q) eqn:E2; simpl;
      [apply Qltb_true in E2 | apply Qltb_false in E2]; lra.
  - destruct (Qltb lo hi) eqn:E2; simpl;
      [apply Qltb_true in E2 | apply Qltb_false in E2]; lra.
Qed.

Lemma Qfloor_bounds (q : Q) (lo hi : Z) :
  inject_Z lo <= q -> q < inject_Z hi + 1 ->
  (lo <= Qfloor q <= hi)%Z.
Proof.
  intros Hlo Hhi. split.
  - rewrite <- (Qfloor_Z lo). apply Qfloor_resp_le, Hlo.
  - apply Z.lt_succ_r. rewrite Zlt_Qlt.
    apply Qle_lt_trans with q; [apply Qfloor_le|].
    unfold Z.succ. rewrite inject_Z_plus. exact Hhi.
Qed.

(** [Math.round(c * 100)] of a confidence in [[lo/100, hi/100]] is an
    integer percentage in [[lo, hi]]. *)
Lemma confidencePct_within (lo hi : Z) (c : num) :
  within (inject_Z lo / 100) (inject_Z hi / 100) c ->
  within (inject_Z lo) (inject_Z hi) (confidencePct c).
Proof.
  destruct c as [q| | |]; try (simpl; tauto).
  unfold confidencePct, round, mul, fin, of_Z, within. intros [H1 H2].
  rewrite <- !Zle_Qle. apply Qfloor_bounds; rewrite Qred_correct.
  - assert (inject_Z lo == inject_Z lo / 100 * 100) as E by field. lra.
  - assert (inject_Z hi == inject_Z hi / 100 * 100) as E by field. lra.
Qed.

End NumFacts.

(** * Facts about the structured-signal engine *)

Module EnhancedFacts.
Import JS NumFacts EnhancedTradingEngine.

Lemma bullish_finite (w : num) (name : string) (t : tally) :
  is_finite w -> tally_finite t -> tally_finite (bullish w name t).
Proof.
  destruct t as [[s c] l]. unfold tally_finite. simpl. intros.
  now apply add_finite.
Qed.

Lemma bearish_finite (w : num) (name : string) (t : tally) :
  is_finite w -> tally_finite t -> tally_finite (bearish w name t).
Proof.
  destruct t as [[s c] l]. unfold tally_finite. simpl fst. intros.
  now apply sub_finite.
Qed.

Create HintDb tally.
#[local] Hint Resolve bullish_finite bearish_finite : tally.
#[local] Hint Extern 1 (is_finite (Fin _)) => exact I : tally.

Ltac step_finite f :=
  intros; unfold f; cbv zeta;
  repeat match goal with
         | |- context [if ?b then _ else _] => destruct b
         end; auto with tally.

Lemma rsiAnalysis_finite ind t :
  tally_finite t -> tally_finite (rsiAnalysis ind t).
Proof. step_finite rsiAnalysis. Qed.

Lemma macdAnalysis_finite ind t :
  tally_finite t -> tally_finite (macdAnalysis ind t).
Proof. step_finite macdAnalysis. Qed.

Lemma movingAverageAnalysis_finite ind t :
  tally_finite t -> tally_finite (movingAverageAnalysis ind t).
Proof. step_finite movingAverageAnalysis. Qed.

Lemma bollingerAnalysis_finite ind t :
  tally_finite t -> tally_finite (bollingerAnalysis ind t).
Proof. step_finite bollingerAnalysis. Qed.

(** Whatever the indicators are (even [NaN]), the strength of the analysed
    signal is a finite, non-negative number: the tally only ever adds and
    subtracts constants. *)
Lemma analyzeSignal_strength (ind : Indicators.t) :
  exists s, Signal.strength (analyzeSignal ind) = Fin s /\ 0 <= s.
Proof.
  unfold analyzeSignal.
  assert (tally_finite
            (bollingerAnalysis ind
               (movingAverageAnalysis ind
                  (macdAnalysis ind (rsiAnalysis ind (Fin 0, O, []))))))
    as Hfin.
  { apply bollingerAnalysis_finite, movingAverageAnalysis_finite,
      macdAnalysis_finite, rsiAnalysis_finite. exact I. }
  destruct (bollingerAnalysis _ _) as [[signalStrength signalCount] signals].
  unfold tally_finite in Hfin. simpl fst in Hfin. cbv zeta. simpl Signal.strength.
  apply abs_nonneg.
  destruct (0 <? signalCount)%nat eqn:E; [|exact I].
  apply Nat.ltb_lt in E. now apply div_of_nat_finite.
Qed.

(** With a finite non-negative strength the dynamic confidence is at least
    the base 0.5 and at most the cap. *)
Lemma calculateDynamicConfidence_bounds
  (signal : Signal.t) (ind : Indicators.t) (s : Q) :
  Signal.strength signal = Fin s -> 0 <= s ->
  within 0.5 0.95 (calculateDynamicConfidence signal ind).
Proof.
  intros Hs Hpos. unfold calculateDynamicConfidence. cbv zeta. rewrite Hs.
  destruct (lt _ _ || gt _ _);
    destruct (gt (abs _) _);
    destruct (VolumeTrend_eqb _ _);
    cbn [add mul fin]; apply clamp_floor; rewrite ?Qred_correct; lra.
Qed.

Lemma sub_self (x : num) : is_finite x -> sub x x = Fin 0.
Proof.
  destruct x as [q| | |]; try (simpl; tauto). intros _.
  change (fin (q + Qred (- q)) = fin 0). apply fin_ext.
  rewrite Qred_correct. ring.
Qed.

Lemma ema_step_finite (multiplier ema price : num) :
  is_finite multiplier -> is_finite ema -> is_finite price ->
  is_finite (add (mul price multiplier) (mul ema (sub (Fin 1) multiplier))).
Proof.
  intros. apply add_finite; apply mul_finite; try assumption.
  apply sub_finite; [exact I|assumption].
Qed.

Lemma ema_fold_finite (multiplier : num) (rest : list num) (first : num) :
  is_finite multiplier -> is_finite first -> Forall is_finite rest ->
  is_finite
    (fold_left
       (fun ema price =>
          add (mul price multiplier) (mul ema (sub (Fin 1) multiplier)))
       rest first).
Proof.
  intros Hm Hfirst Hrest. revert first Hfirst.
  induction Hrest as [|price rest Hprice _ IH]; intros first Hfirst.
  - exact Hfirst.
  - simpl. apply IH. now apply ema_step_finite.
Qed.

Lemma multiplier_finite (period : nat) :
  is_finite (div (Fin 2) (add (of_nat period) (Fin 1))).
Proof.
  unfold of_nat, of_Z, add, fin. apply div_finite; [exact I|].
  rewrite Qred_correct. intros F. unfold Qeq in F. simpl in F. lia.
Qed.

(** On finite prices the EMA is a finite number, whatever the length of the
    non-empty window. *)
Lemma calculateEMA_finite (prices : list num) (period : nat) :
  prices <> [] -> Forall is_finite prices ->
  exists q, calculateEMA prices period = Some (Fin q).
Proof.
  intros Hne Hfin. destruct prices as [|first rest]; [congruence|].
  inversion Hfin as [|? ? Hfirst Hrest]; subst.
  unfold calculateEMA. cbv zeta.
  pose proof (ema_fold_finite _ rest first (multiplier_finite period)
                Hfirst Hrest) as H.
  apply finite_inv in H. destruct H as [q ->]. eauto.
Qed.

(** The signal line is the EMA of the one-element array [[macd]], that is
    [macd] itself: the histogram of any finite window is 0. *)
Lemma calculateMACD_signal_collapses (prices : list num) :
  Macd.signal (calculateMACD prices) = Some (Macd.macd (calculateMACD prices))
  /\ (prices <> [] -> Forall is_finite prices ->
      Macd.histogram (calculateMACD prices) = Fin 0).
Proof.
  split; [reflexivity|]. intros Hne Hfin.
  unfold calculateMACD. cbv zeta.
  cbn [Macd.histogram calculateEMA fold_left toNumber].
  destruct (calculateEMA_finite prices 12 Hne Hfin) as [a ->].
  destruct (calculateEMA_finite prices 26 Hne Hfin) as [b ->].
  apply sub_self. exact I.
Qed.

(** C3.  On the thirty-five closes 1, ..., 35 the MACD value is positive,
    the signal line equals that very value and the histogram is 0: the
    signal line is not a smoothing of a series of MACD values. *)
Theorem macd_signal_equals_latest_macd :
  let m := calculateMACD Samples.ramp in
  lt (Fin 0) (Macd.macd m) = true
  /\ Macd.signal m = Some (Macd.macd m)
  /\ Macd.histogram m = Fin 0.
Proof. vm_compute. repeat split. Qed.

Lemma last_default {A} (l : list A) (d d' : A) :
  l <> [] -> List.last l d = List.last l d'.
Proof.
  induction l as [|a [|b l] IH]; intros H; [congruence|reflexivity|].
  change (List.last (b :: l) d = List.last (b :: l) d'). apply IH. discriminate.
Qed.

(** A window whose highest high, lowest low and last close coincide makes
    the stochastic oscillator divide zero by zero. *)
Lemma calculateStochastic_flat (data : list Bar.t) (period : nat) (v : Q)
  (first : Bar.t) :
  data <> [] ->
  min_list (map Bar.low (slice_last period data)) = Fin v ->
  max_list (map Bar.high (slice_last period data)) = Fin v ->
  Bar.close (List.last data first) = Fin v ->
  calculateStochastic data period = Ok NaN.
Proof.
  intros Hne Hlow Hhigh Hclose. unfold calculateStochastic. cbv zeta.
  destruct data as [|b rest]; [congruence|].
  rewrite Hlow, Hhigh.
  replace (Bar.close (List.last (b :: rest) b)) with (Fin v).
  - rewrite (sub_self (Fin v) I). reflexivity.
  - rewrite <- Hclose. f_equal. apply last_default. discriminate.
Qed.

(** C4.  On fourteen bars that all sit at 100 (high = low) the stochastic
    oscillator is not guarded: it returns NaN, not 0. *)
Theorem stochastic_of_flat_window_is_NaN :
  calculateStochastic Samples.flat_window 14 = Ok NaN
  /\ calculateStochastic Samples.flat_window 14 <> Ok (Fin 0).
Proof. vm_compute. split; [reflexivity|discriminate]. Qed.

Lemma calculateStochastic_nonempty (data : list Bar.t) (period : nat) :
  data <> [] -> exists k, calculateStochastic data period = Ok k.
Proof.
  intros H. unfold calculateStochastic. destruct data; [congruence|]. eauto.
Qed.

Lemma calculateTechnicalIndicators_nonempty sqrt (data : list Bar.t) :
  data <> [] -> exists ind, calculateTechnicalIndicators sqrt data = Ok ind.
Proof.
  intros H. unfold calculateTechnicalIndicators.
  destruct (calculateStochastic_nonempty data 14 H) as [k ->]. simpl. eauto.
Qed.

Lemma calculateEntryExitZones_nonempty sqrt (data : list Bar.t) signal :
  data <> [] -> exists z, calculateEntryExitZones sqrt data signal = Ok z.
Proof.
  intros H. unfold calculateEntryExitZones. destruct data; [congruence|].
  destruct (Signal.type signal); eauto.
Qed.

Lemma slice_last_short {A} (period : nat) (xs : list A) :
  (List.length xs <= period)%nat -> slice_last period xs = xs.
Proof.
  intros H. unfold slice_last. destruct period as [|n]; [reflexivity|].
  replace (List.length xs - S n)%nat with O by lia. reflexivity.
Qed.

(** A three-bar window, shorter than every lookback, makes no indicator
    fail: each one returns a number. *)
Lemma short_window_is_computed :
  calculateSMA (map Bar.close Samples.three_bars) 20 = Fin 103
  /\ calculateRSI (map Bar.close Samples.three_bars) 14 = Fin (1000 # 21)
  /\ calculateEMA (map Bar.close Samples.three_bars) 12
     = Some (Fin (17094 # 169))
  /\ calculateStochastic Samples.three_bars 14 = Ok (Fin (100 # 13))
  /\ exists indicators,
      calculateTechnicalIndicators sqrt_truncated Samples.three_bars
      = Ok indicators.
Proof. vm_compute. repeat split. eexists. reflexivity. Qed.

(** C6 (amended).  No indicator computation fails on a non-empty window,
    however short: the indicator set is returned, the stochastic oscillator
    and the EMA return a number, and on a window no longer than the period
    the SMA is the mean of all the closes there are. *)
Theorem short_windows_yield_values :
  forall (sqrt : num -> num) (data : list Bar.t),
    data <> [] ->
    (exists indicators, calculateTechnicalIndicators sqrt data = Ok indicators)
    /\ (forall period, exists k, calculateStochastic data period = Ok k)
    /\ (forall period,
           exists ema, calculateEMA (map Bar.close data) period = Some ema)
    /\ (forall period,
           (List.length data <= period)%nat ->
           calculateSMA (map Bar.close data) period
           = div (sum (map Bar.close data)) (of_nat (List.length data))).
Proof.
  intros sqrt data Hne. split; [|split; [|split]].
  - now apply calculateTechnicalIndicators_nonempty.
  - intros period. now apply calculateStochastic_nonempty.
  - intros period. destruct data as [|b rest]; [congruence|].
    unfold calculateEMA. cbn [map]. eauto.
  - intros period Hlen. unfold calculateSMA. cbv zeta.
    rewrite slice_last_short by (now rewrite length_map).
    now rewrite length_map.
Qed.

Lemma short_windows_yield_values_witness :
  (exists indicators,
      calculateTechnicalIndicators sqrt_truncated Samples.three_bars
      = Ok indicators)
  /\ (forall period,
         exists k, calculateStochastic Samples.three_bars period = Ok k)
  /\ (forall period,
         exists ema,
           calculateEMA (map Bar.close Samples.three_bars) period = Some ema)
  /\ (forall period,
         (List.length Samples.three_bars <= period)%nat ->
         calculateSMA (map Bar.close Samples.three_bars) period
         = div (sum (map Bar.close Samples.three_bars))
               (of_nat (List.length Samples.three_bars))).
Proof.
  apply (short_windows_yield_values sqrt_truncated Samples.three_bars).
  discriminate.
Defined.

Lemma Qfloor_nonneg (q : Q) : 0 <= q -> 0 <= inject_Z (Qfloor q).
Proof.
  intros H. change 0 with (inject_Z 0) at 1. rewrite <- Zle_Qle.
  rewrite <- (Qfloor_Z 0). now apply Qfloor_resp_le.
Qed.

Lemma Qfloor_mono (a b : Q) :
  a <= b -> inject_Z (Qfloor a) <= inject_Z (Qfloor b).
Proof. intros H. rewrite <- Zle_Qle. now apply Qfloor_resp_le. Qed.

(** Rounding to two decimals keeps the order. *)
Lemma toFixed2_mono (a b : Q) :
  a <= b ->
  exists ra rb,
    toFixed2 (Fin a) = Fin ra /\ toFixed2 (Fin b) = Fin rb /\ ra <= rb.
Proof.
  intros Hab. unfold toFixed2, toFixed. cbv zeta.
  change (inject_Z (10 ^ Z.of_nat 2)) with 100.
  destruct (Qltb a 0) eqn:Ea; destruct (Qltb b 0) eqn:Eb;
    (eexists _, _; split; [reflexivity|]; split; [reflexivity|]);
    unfold fin; rewrite !Qred_correct;
    unfold Qdiv; setoid_replace (/ 100) with (1 # 100) by reflexivity;
    try apply Qltb_true in Ea; try apply Qltb_false in Ea;
    try apply Qltb_true in Eb; try apply Qltb_false in Eb.
  - assert (- b * 100 + (1 # 2) <= - a * 100 + (1 # 2)) as H by lra.
    apply Qfloor_mono in H. revert H.
    generalize (inject_Z (Qfloor (- a * 100 + (1 # 2))))
               (inject_Z (Qfloor (- b * 100 + (1 # 2)))).
    intros x y H. lra.
  - assert (0 <= - a * 100 + (1 # 2)) as H1 by lra.
    assert (0 <= b * 100 + (1 # 2)) as H2 by lra.
    apply Qfloor_nonneg in H1, H2. revert H1 H2.
    generalize (inject_Z (Qfloor (- a * 100 + (1 # 2))))
               (inject_Z (Qfloor (b * 100 + (1 # 2)))).
    intros x y H1 H2. lra.
  - lra.
  - assert (a * 100 + (1 # 2) <= b * 100 + (1 # 2)) as H by lra.
    apply Qfloor_mono in H. revert H.
    generalize (inject_Z (Qfloor (a * 100 + (1 # 2))))
               (inject_Z (Qfloor (b * 100 + (1 # 2)))).
    intros x y H. lra.
Qed.

(** On the currency-pair bars, whose last close is 1.234, the engine says
    HOLD and the target is 1.23: the current price rendered with two
    decimals, not the current price. *)
Lemma hold_target_is_rounded :
  exists zones structured,
    calculateEntryExitZones sqrt_truncated Samples.forex_bars
      Samples.hold_signal = Ok zones
    /\ generateStructuredSignal sqrt_truncated Samples.forex_bars
       = Ok structured
    /\ Bar.close (List.last Samples.forex_bars (Samples.bar 0 0 0 0))
       = Fin 1.234
    /\ Structured.signal structured = HOLD
    /\ Structured.target structured = Zones.target zones
    /\ Zones.target zones = Fin 1.23
    /\ Zones.stopLoss zones = Fin 1.23
    /\ Zones.target zones <> Fin 1.234.
Proof.
  eexists _, _. split; [reflexivity|]. split; [vm_compute; reflexivity|].
  vm_compute. repeat split. discriminate.
Qed.

(** C7 (amended).  For every action, every non-negative current price and
    every non-negative volatility the entry zone satisfies low <= high, and
    for HOLD the target and the stop-loss both equal the current price
    rounded to two decimals. *)
Theorem entry_zone_is_ordered :
  forall (sqrt : num -> num) (data : list Bar.t) (signal : Signal.t)
         (first : Bar.t) (price volatility : Q),
    data <> [] ->
    Bar.close (List.last data first) = Fin price -> 0 <= price ->
    calculateVolatility sqrt data 20 = Fin volatility -> 0 <= volatility ->
    exists low high target stopLoss,
      calculateEntryExitZones sqrt data signal
      = Ok {| Zones.entry := (Fin low, Fin high);
              Zones.target := target;
              Zones.stopLoss := stopLoss |}
      /\ low <= high
      /\ (Signal.type signal = HOLD ->
          target = toFixed2 (Fin price) /\ stopLoss = toFixed2 (Fin price)).
Proof.
  intros sqrt data signal first p v Hne Hclose Hp Hvol Hv.
  unfold calculateEntryExitZones.
  destruct data as [|b rest]; [congruence|]. cbv zeta.
  rewrite (last_default (b :: rest) b first Hne), Hclose, Hvol.
  destruct (Signal.type signal); cbn [mul sub add neg fin]; unfold fin.
  - destruct (toFixed2_mono
                (Qred (p * Qred (1 + Qred (- Qred (v * 0.5)))))
                (Qred (p * Qred (1 + Qred (v * 0.2)))))
      as (lo & hi & -> & -> & Hle).
    { rewrite !Qred_correct. nra. }
    eexists _, _, _, _. split; [reflexivity|]. split; [exact Hle|].
    discriminate.
  - destruct (toFixed2_mono
                (Qred (p * Qred (1 + Qred (- Qred (v * 0.2)))))
                (Qred (p * Qred (1 + Qred (v * 0.5)))))
      as (lo & hi & -> & -> & Hle).
    { rewrite !Qred_correct. nra. }
    eexists _, _, _, _. split; [reflexivity|]. split; [exact Hle|].
    discriminate.
  - destruct (toFixed2_mono (Qred (p * 0.995)) (Qred (p * 1.005)))
      as (lo & hi & -> & -> & Hle).
    { rewrite !Qred_correct. lra. }
    eexists _, _, _, _. split; [reflexivity|]. split; [exact Hle|].
    intros _. split; reflexivity.
Qed.

Lemma entry_zone_is_ordered_witness :
  exists low high target stopLoss,
    calculateEntryExitZones sqrt_truncated Samples.three_bars
      Samples.buy_signal
    = Ok {| Zones.entry := (Fin low, Fin high);
            Zones.target := target;
            Zones.stopLoss := stopLoss |}
    /\ low <= high
    /\ (Signal.type Samples.buy_signal = HOLD ->
        target = toFixed2 (Fin 99) /\ stopLoss = toFixed2 (Fin 99)).
Proof.
  apply (entry_zone_is_ordered sqrt_truncated Samples.three_bars
           Samples.buy_signal (Samples.bar 0 0 0 0) 99 0.1).
  - discriminate.
  - reflexivity.
  - lra.
  - reflexivity.
  - lra.
Defined.

Lemma dynamic_confidence_floor (ind : Indicators.t) :
  within 0.5 0.95 (calculateDynamicConfidence (analyzeSignal ind) ind).
Proof.
  destruct (analyzeSignal_strength ind) as (s & Hs & Hpos).
  eapply calculateDynamicConfidence_bounds; eassumption.
Qed.

(** C10.  For every indicator set the dynamic confidence of the structured
    signal engine lies in [0.5, 0.95]; hence on every non-empty window
    [generateStructuredSignal] returns a signal whose confidence percentage
    lies in [50, 95]. *)
Theorem structured_confidence_at_least_half :
  (forall ind : Indicators.t,
      within 0.5 0.95 (calculateDynamicConfidence (analyzeSignal ind) ind)) /\
  (forall (sqrt : num -> num) (data : list Bar.t),
      data <> [] ->
      exists s, generateStructuredSignal sqrt data = Ok s
                /\ within 50 95 (Structured.confidence s)).
Proof.
  split; [exact dynamic_confidence_floor|].
  intros sqrt data H. unfold generateStructuredSignal.
  destruct (calculateTechnicalIndicators_nonempty sqrt data H) as [ind ->].
  cbn [bind].
  destruct (calculateEntryExitZones_nonempty sqrt data (analyzeSignal ind) H)
    as [z ->].
  cbn [bind]. eexists. split; [reflexivity|]. cbn [Structured.confidence].
  apply (confidencePct_within 50 95).
  eapply within_weaken; [| |apply dynamic_confidence_floor];
    unfold Qle; simpl; lia.
Qed.

Lemma structured_confidence_at_least_half_witness :
  exists s, generateStructuredSignal sqrt_truncated Samples.three_bars = Ok s
            /\ within 50 95 (Structured.confidence s).
Proof.
  apply (proj2 structured_confidence_at_least_half). discriminate.
Defined.

End EnhancedFacts.

(** * Facts about the dual-source engine *)

Module SmartFacts.
Import JS NumFacts SmartDecisionEngine.

Lemma record_entry_finite kind value agree factor bullish bearish t :
  is_finite bullish -> is_finite bearish -> tally_finite t ->
  tally_finite (record_entry kind value agree factor bullish bearish t).
Proof.
  intros Hb Hc [H1 H2]. split; cbn [record_entry Tally.bullishCount Tally.bearishCount];
    now apply add_finite.
Qed.

Ltac analysis_finite f :=
  intros; unfold f; cbv zeta;
  repeat match goal with
         | |- context [if ?b then _ else _] => destruct b
         end;
  apply record_entry_finite; solve [exact I | assumption].

Lemma dual_rsiAnalysis_finite market pocket t :
  tally_finite t -> tally_finite (rsiAnalysis market pocket t).
Proof. analysis_finite rsiAnalysis. Qed.

Lemma dual_macdAnalysis_finite market pocket t :
  tally_finite t -> tally_finite (macdAnalysis market pocket t).
Proof. analysis_finite macdAnalysis. Qed.

Lemma dual_smaAnalysis_finite market pocket t :
  tally_finite t -> tally_finite (smaAnalysis market pocket t).
Proof. analysis_finite smaAnalysis. Qed.

(** A guarded block keeps whatever its analysis keeps. *)
Lemma when_both_preserves (P : Tally.t -> Prop) p name m q analysis t t' :
  (forall a b u, P u -> P (analysis a b u)) ->
  P t -> when_both p name m q analysis t = Ok t' -> P t'.
Proof.
  intros Hstep Ht. unfold when_both, both_present.
  destruct m as [m|]; cbn [read bind]; [|discriminate].
  destruct (truthy (p m)); cbn [bind].
  - destruct q as [q|]; cbn [read bind]; [|discriminate].
    destruct (truthy (p q)); intros [= <-]; auto.
  - intros [= <-]; auto.
Qed.

(** With both indicator objects there, no property read can fail. *)
Lemma when_both_returns p name m q analysis t :
  exists t', when_both p name (Some m) (Some q) analysis t = Ok t'.
Proof.
  unfold when_both, both_present. cbn [read bind].
  destruct (truthy (p m)); cbn [bind]; [destruct (truthy (p q))|]; eauto.
Qed.

Lemma analyzeTechnicalSignals_returns m q :
  exists signals, analyzeTechnicalSignals (Some m) (Some q) = Ok signals.
Proof.
  unfold analyzeTechnicalSignals. cbv zeta.
  destruct (when_both_returns Indicators.rsi "rsi" m q rsiAnalysis
              (Tally.make [] [] (Fin 0) (Fin 0) 0 0)) as [t1 ->].
  cbn [bind].
  destruct (when_both_returns Indicators.macd "macd" m q macdAnalysis t1)
    as [t2 ->].
  cbn [bind].
  destruct (when_both_returns Indicators.sma20 "sma20" m q smaAnalysis t2)
    as [t3 ->].
  cbn [bind]. eauto.
Qed.

(** The counts and the agreement score are finite whatever the indicators
    hold: they are sums and a quotient of counters. *)
Lemma analyzeTechnicalSignals_finite m q signals :
  analyzeTechnicalSignals m q = Ok signals ->
  is_finite (Signals.bullishCount signals)
  /\ is_finite (Signals.bearishCount signals)
  /\ is_finite (Signals.agreement signals).
Proof.
  unfold analyzeTechnicalSignals. cbv zeta.
  destruct (when_both Indicators.rsi _ _ _ _ _) as [t1|] eqn:E1;
    cbn [bind]; [|discriminate].
  destruct (when_both Indicators.macd _ _ _ _ _) as [t2|] eqn:E2;
    cbn [bind]; [|discriminate].
  destruct (when_both Indicators.sma20 _ _ _ _ _) as [t3|] eqn:E3;
    cbn [bind]; [|discriminate].
  intros [= <-].
  cbn [Signals.bullishCount Signals.bearishCount Signals.agreement].
  assert (tally_finite t3) as [H1 H2].
  { eapply when_both_preserves; [exact dual_smaAnalysis_finite| |exact E3].
    eapply when_both_preserves; [exact dual_macdAnalysis_finite| |exact E2].
    eapply when_both_preserves; [exact dual_rsiAnalysis_finite| |exact E1].
    split; exact I. }
  split; [assumption|]. split; [assumption|].
  destruct (0 <? Tally.totalSignals t3)%nat eqn:E; [|exact I].
  apply Nat.ltb_lt in E.
  change (is_finite (div (of_nat (Tally.agreementCount t3))
                         (of_nat (Tally.totalSignals t3)))).
  now apply div_of_nat_finite.
Qed.

Lemma calculateSignalStrength_finite signals :
  is_finite (Signals.bullishCount signals) ->
  is_finite (Signals.bearishCount signals) ->
  is_finite (calculateSignalStrength signals).
Proof.
  intros H1 H2. unfold calculateSignalStrength. cbv zeta.
  destruct (Signals.totalSignals signals) as [|n].
  - apply div_finite; [now apply sub_finite|]. discriminate.
  - apply div_of_nat_finite; [now apply sub_finite|lia].
Qed.

Lemma finite_not_NaN (x : num) : is_finite x -> x <> NaN.
Proof. destruct x; simpl; congruence || tauto. Qed.

(** The final confidence of finite inputs lies in [0.1, 0.95]. *)
Lemma calculateFinalConfidence_within base strength agreement discrepancy :
  is_finite base -> is_finite strength -> is_finite agreement ->
  is_finite discrepancy ->
  within 0.1 0.95
    (calculateFinalConfidence base strength agreement discrepancy).
Proof.
  intros Hb Hs Ha Hd. unfold calculateFinalConfidence. cbv zeta.
  apply clamp_within; [lra|]. apply finite_not_NaN.
  assert (is_finite (mul (mul base (add (Fin 1) (abs strength)))
                         (add (Fin 0.5) agreement))) as H.
  { repeat first [apply mul_finite | apply add_finite | apply abs_finite
                 | exact I | assumption]. }
  destruct (gt discrepancy (Fin 0.02)); [|exact H].
  apply mul_finite; [exact H|]. apply sub_finite; [exact I|assumption].
Qed.

Lemma priceDiscrepancy_finite (mp pp : Q) :
  ~ mp == 0 -> is_finite (div (abs (sub (Fin mp) (Fin pp))) (Fin mp)).
Proof. intros H. apply div_finite; [exact I|exact H]. Qed.

Lemma confidence_percentage (c : num) :
  within 0.1 0.95 c -> within 10 95 (confidencePct c).
Proof.
  intros H. apply (confidencePct_within 10 95).
  eapply within_weaken; [| |exact H]; unfold Qle; simpl; lia.
Qed.

(** C1.  On every finite, valid input the dual-source pipeline returns a
    signal whose confidence lies in [0.1, 0.95], so that its percentage
    [Math.round(confidence * 100)] lies in [10, 95]; the structured-signal
    engine's confidence percentage lies in [10, 95] as well, for every
    indicator set. *)
Theorem confidence_is_clamped :
  (forall now engine symbol marketData pocketOptionData,
      valid_input marketData pocketOptionData ->
      exists signal engine',
        generateIntelligentSignal now engine symbol marketData pocketOptionData
        = Ok (signal, engine')
        /\ within 0.1 0.95 (Signal.confidence signal)
        /\ within 10 95 (confidencePct (Signal.confidence signal)))
  /\ (forall indicators : EnhancedTradingEngine.Indicators.t,
         within 10 95
           (confidencePct
              (EnhancedTradingEngine.calculateDynamicConfidence
                 (EnhancedTradingEngine.analyzeSignal indicators)
                 indicators))).
Proof.
  split.
  - intros now engine symbol [market|] [pocket|] Hvalid;
      unfold generateIntelligentSignal;
      try (eexists _, _; split; [reflexivity|];
           cbn [createNeutralSignal Signal.confidence];
           split; [|apply confidence_percentage]; simpl; lra).
    destruct Hvalid as ((mp & Hmp & Hnz) & (pp & Hpp) & Hmi & Hpi).
    destruct (MarketData.technicalIndicators market) as [mi|];
      [|congruence].
    destruct (PocketOptionData.indicators pocket) as [pi|]; [|congruence].
    destruct (analyzeTechnicalSignals_returns mi pi) as [signals Hs].
    rewrite Hs, Hmp, Hpp. cbn [bind toNumber].
    eexists _, _. split; [reflexivity|]. cbn [Signal.confidence].
    destruct (analyzeTechnicalSignals_finite _ _ _ Hs) as (Hb & Hc & Ha).
    assert (within 0.1 0.95
              (calculateFinalConfidence
                 (max (Fin 0.3)
                    (sub (Fin 1)
                       (mul (div (abs (sub (Fin mp) (Fin pp))) (Fin mp))
                            (Fin 5))))
                 (calculateSignalStrength signals)
                 (Signals.agreement signals)
                 (div (abs (sub (Fin mp) (Fin pp))) (Fin mp)))) as H.
    { pose proof (priceDiscrepancy_finite mp pp Hnz) as Hd.
      apply calculateFinalConfidence_within; try assumption.
      - apply max_finite; [exact I|]. apply sub_finite; [exact I|].
        apply mul_finite; [assumption|exact I].
      - now apply calculateSignalStrength_finite. }
    split; [exact H|apply confidence_percentage, H].
  - intros indicators. apply confidence_percentage.
    eapply within_weaken;
      [| |apply EnhancedFacts.dynamic_confidence_floor]; lra.
Qed.

Lemma confidence_is_clamped_witness :
  exists signal engine',
    generateIntelligentSignal 0 constructor "AAPL"
      (Some Samples.oversold_market) (Some Samples.oversold_pocket)
    = Ok (signal, engine')
    /\ within 0.1 0.95 (Signal.confidence signal)
    /\ within 10 95 (confidencePct (Signal.confidence signal)).
Proof.
  apply (proj1 confidence_is_clamped). simpl.
  repeat split; try discriminate.
  - exists 100. split; [reflexivity|discriminate].
  - exists 100.5. reflexivity.
Defined.

(** C2.  Whenever the agreement score is strictly below 0.6 the action is
    HOLD, whatever the signal strength: for [determineAction] itself, and
    for every signal [generateIntelligentSignal] returns. *)
Theorem low_agreement_forces_hold :
  (forall signalStrength agreement : num,
      lt agreement (Fin 0.6) = true ->
      determineAction signalStrength agreement = HOLD)
  /\ (forall now engine symbol marketData pocketOptionData signal engine',
         generateIntelligentSignal now engine symbol marketData pocketOptionData
         = Ok (signal, engine') ->
         lt (Signal.agreement signal) (Fin 0.6) = true ->
         Signal.action signal = HOLD).
Proof.
  assert (forall signalStrength agreement : num,
             lt agreement (Fin 0.6) = true ->
             determineAction signalStrength agreement = HOLD) as Hdet.
  { intros s a H. unfold determineAction. cbv zeta. now rewrite H. }
  split; [exact Hdet|].
  intros now engine symbol [market|] [pocket|] signal engine';
    unfold generateIntelligentSignal;
    try (intros [= <- <-]; reflexivity).
  destruct (analyzeTechnicalSignals _ _) as [signals|]; cbn [bind];
    [|discriminate].
  intros [= <- <-]. cbn [Signal.agreement Signal.action]. apply Hdet.
Qed.

(** A fully bullish RSI reading (strength 1) with the two sources fifteen
    points apart: the agreement is 0 and the action HOLD. *)
Lemma low_agreement_forces_hold_witness :
  exists signal engine',
    generateIntelligentSignal 0 constructor "AAPL"
      (Some Samples.oversold_market) (Some Samples.oversold_pocket)
    = Ok (signal, engine')
    /\ Signal.signalStrength signal = Fin 1
    /\ Signal.agreement signal = Fin 0
    /\ Signal.action signal = HOLD.
Proof.
  eexists _, _. split; [reflexivity|]. split; [reflexivity|].
  split; [reflexivity|].
  eapply (proj2 low_agreement_forces_hold 0%Z constructor "AAPL"
            (Some Samples.oversold_market) (Some Samples.oversold_pocket));
    reflexivity.
Defined.

(** When a source is missing the engine answers with the neutral signal and
    leaves its history alone. *)
Lemma missing_source_is_neutral now engine symbol marketData pocketOptionData :
  marketData = None \/ pocketOptionData = None ->
  generateIntelligentSignal now engine symbol marketData pocketOptionData
  = Ok (createNeutralSignal now symbol "Insufficient data", engine).
Proof.
  intros [-> | ->]; [reflexivity|]. now destruct marketData.
Qed.

(** With the secondary source absent the agreement reported is 0, not 1. *)
Lemma single_source_agreement_is_zero :
  exists signal engine',
    generateIntelligentSignal 0 constructor "AAPL"
      (Some Samples.oversold_market) None
    = Ok (signal, engine')
    /\ Signal.agreement signal = Fin 0
    /\ Signal.agreement signal <> Fin 1.
Proof.
  eexists _, _. split; [reflexivity|]. split; [reflexivity|]. discriminate.
Qed.

(** C5 (amended).  When either source is absent the engine returns, without
    touching its history, the neutral signal: HOLD, confidence 0.5,
    agreement 0, price discrepancy 0, no factors, and the reason
    "Insufficient data". *)
Theorem missing_source_yields_neutral_signal :
  forall now engine symbol marketData pocketOptionData,
    marketData = None \/ pocketOptionData = None ->
    exists signal,
      generateIntelligentSignal now engine symbol marketData pocketOptionData
      = Ok (signal, engine)
      /\ Signal.action signal = HOLD
      /\ Signal.confidence signal = Fin 0.5
      /\ Signal.agreement signal = Fin 0
      /\ Signal.priceDiscrepancy signal = Fin 0
      /\ Signal.technicalFactors signal = []
      /\ Signal.reasoning signal = [Plain "Insufficient data"].
Proof.
  intros now engine symbol marketData pocketOptionData H.
  eexists. split; [now apply missing_source_is_neutral|].
  repeat split.
Qed.

Lemma missing_source_yields_neutral_signal_witness :
  exists signal,
    generateIntelligentSignal 0 constructor "AAPL"
      (Some Samples.oversold_market) None
    = Ok (signal, constructor)
    /\ Signal.action signal = HOLD
    /\ Signal.confidence signal = Fin 0.5
    /\ Signal.agreement signal = Fin 0
    /\ Signal.priceDiscrepancy signal = Fin 0
    /\ Signal.technicalFactors signal = []
    /\ Signal.reasoning signal = [Plain "Insufficient data"].
Proof.
  apply missing_source_yields_neutral_signal. right. reflexivity.
Defined.

End SmartFacts.

(** * Facts about the learning engine *)

Module AdvancedFacts.
Import JS NumFacts AdvancedTradingAI.

Lemma Qabs_zero_inv (x : Q) : Qabs x == 0 -> x == 0.
Proof. apply Qabs_case; intros; lra. Qed.

Lemma Qabs_double (x : Q) : Qabs (2 * x) == 2 * Qabs x.
Proof. rewrite Qabs_Qmult. reflexivity. Qed.

(** When the reward is twice the risk, the ratio is 2. *)
Lemma rewardToRisk_two (e sl tp : Q) :
  tp - e == 2 * (e - sl) -> ~ e - sl == 0 ->
  rewardToRisk (Fin e) (Fin sl) (Fin tp) = Fin 2.
Proof.
  intros Hdouble Hrisk.
  unfold rewardToRisk, sub, neg, add, abs, div, fin.
  assert (Qred (e + Qred (- sl)) == e - sl) as Erisk
    by (rewrite !Qred_correct; ring).
  assert (Qred (tp + Qred (- e)) == 2 * (e - sl)) as Ereward
    by (rewrite !Qred_correct, <- Hdouble; ring).
  rewrite Qeq_bool_false.
  - change (fin (Qred (Qabs (Qred (tp + Qred (- e))))
                 / Qred (Qabs (Qred (e + Qred (- sl))))) = fin 2).
    apply fin_ext. rewrite !(Qred_correct (Qabs _)), Ereward, Erisk.
    rewrite Qabs_double. field.
    intros F. now apply Qabs_zero_inv in F.
  - rewrite (Qred_correct (Qabs _)), Erisk.
    intros F. now apply Qabs_zero_inv in F.
Qed.

(** The volatility multiplier is a finite number, at least 0.02. *)
Lemma volatilityMultiplier_floor (v : Q) :
  exists m, max (mul (Fin v) (Fin 2)) (Fin 0.02) = Fin m /\ 0.02 <= m.
Proof.
  cbn [mul max lt fin]. unfold fin.
  destruct (Qltb (Qred (v * 2)) 0.02) eqn:E; eexists; (split; [reflexivity|]).
  - lra.
  - now apply Qltb_false in E.
Qed.

(** For BUY and SELL on a non-zero entry price the take-profit is twice as
    far from the entry as the stop-loss. *)
Lemma riskLevels_two_to_one (e v : Q) (action : Action) :
  ~ e == 0 -> action <> HOLD ->
  exists sl tp,
    riskLevels (Fin e) action (Fin v) = Some (Fin sl, Fin tp)
    /\ tp - e == 2 * (e - sl) /\ ~ e - sl == 0.
Proof.
  intros He Ha. unfold riskLevels. cbv zeta.
  destruct (volatilityMultiplier_floor v) as (m & -> & Hm).
  destruct action; [| |congruence]; cbn [mul sub add neg fin]; unfold fin;
    (eexists _, _; split; [reflexivity|]); rewrite !Qred_correct.
  - split; [ring|]. intros F.
    assert (e * m == 0) as F'.
    { setoid_replace (e * m) with (e - e * (1 + - m)) by ring. exact F. }
    apply Qmult_integral in F'. destruct F'; [contradiction|lra].
  - split; [ring|]. intros F.
    assert (e * m == 0) as F'.
    { setoid_replace (e * m) with (- (e - e * (1 + m))) by ring.
      rewrite F. reflexivity. }
    apply Qmult_integral in F'. destruct F'; [contradiction|lra].
Qed.

(** With an entry price of 1.234 the levels returned for BUY are 1.21 and
    1.28, the ratio returned is 2, and the ratio of the returned levels is
    23/12. *)
Lemma returned_levels_break_the_ratio :
  let risk := calculateRiskManagement (Fin 1.234) BUY (Fin 0.01) in
  Risk.stopLoss risk = Fin 1.21
  /\ Risk.takeProfit risk = fin 1.28
  /\ Risk.ratio risk = Fin 2
  /\ rewardToRisk (Fin 1.234) (Risk.stopLoss risk) (Risk.takeProfit risk)
     = Fin (23 # 12)
  /\ Risk.ratio risk
     <> rewardToRisk (Fin 1.234) (Risk.stopLoss risk) (Risk.takeProfit risk).
Proof. vm_compute. repeat split. discriminate. Qed.

(** C8 (amended).  For an entry price between 10^-6 and 10^12 in absolute
    value and a volatility of at most 1000, the ratio returned is 0 exactly
    when the action is HOLD; for BUY and SELL it is
    |takeProfit - entry| / |entry - stopLoss| of the levels before they are
    rounded to cents, itself rounded to one decimal, which is 2, strictly
    greater than 0. *)
Theorem risk_reward_ratio :
  forall (entry volatility : Q) (action : Action),
    1 # 1000000 <= Qabs entry <= 1000000000000 ->
    volatility <= 1000 ->
    let risk := calculateRiskManagement (Fin entry) action (Fin volatility) in
    (Risk.ratio risk = Fin 0 <-> action = HOLD)
    /\ (action <> HOLD ->
        exists stopLoss takeProfit,
          riskLevels (Fin entry) action (Fin volatility)
          = Some (stopLoss, takeProfit)
          /\ Risk.ratio risk
             = div (round (mul (rewardToRisk (Fin entry) stopLoss takeProfit)
                               (Fin 10)))
                   (Fin 10)
          /\ Risk.ratio risk = Fin 2
          /\ lt (Fin 0) (Risk.ratio risk) = true).
Proof.
  intros e v action [Hentry _] _ risk.
  assert (~ e == 0) as He.
  { intros F. revert Hentry. apply Qabs_case; intros; lra. }
  assert (action = HOLD \/ action <> HOLD) as [-> | Ha]
      by (destruct action; (now left) || (right; discriminate)).
  - split; [split; reflexivity|congruence].
  - destruct (riskLevels_two_to_one e v action He Ha)
      as (sl & tp & Hlevels & Hdouble & Hrisk).
    assert (Risk.ratio risk
            = div (round (mul (rewardToRisk (Fin e) (Fin sl) (Fin tp))
                              (Fin 10)))
                  (Fin 10)) as Hrounded.
    { unfold risk, calculateRiskManagement. rewrite Hlevels. reflexivity. }
    assert (Risk.ratio risk = Fin 2) as Hratio.
    { rewrite Hrounded, (rewardToRisk_two e sl tp Hdouble Hrisk).
      reflexivity. }
    split.
    + rewrite Hratio. split; [discriminate|contradiction].
    + intros _. exists (Fin sl), (Fin tp). split; [exact Hlevels|].
      split; [exact Hrounded|]. rewrite Hratio. split; reflexivity.
Qed.

Lemma risk_reward_ratio_witness :
  let risk := calculateRiskManagement (Fin 1.234) BUY (Fin 0.01) in
  (Risk.ratio risk = Fin 0 <-> BUY = HOLD)
  /\ (BUY <> HOLD ->
      exists stopLoss takeProfit,
        riskLevels (Fin 1.234) BUY (Fin 0.01) = Some (stopLoss, takeProfit)
        /\ Risk.ratio risk
           = div (round (mul (rewardToRisk (Fin 1.234) stopLoss takeProfit)
                             (Fin 10)))
                 (Fin 10)
        /\ Risk.ratio risk = Fin 2
        /\ lt (Fin 0) (Risk.ratio risk) = true).
Proof.
  apply (risk_reward_ratio 1.234 0.01 BUY).
  - vm_compute. split; discriminate.
  - vm_compute. discriminate.
Defined.

(** A missing source makes the [try] block raise. *)
Lemma try_block_throws_without_data now ai symbol marketData pocketOptionData :
  marketData = None \/ pocketOptionData = None ->
  exists error,
    try_block now ai symbol marketData pocketOptionData = Throw error.
Proof.
  intros [-> | ->]; [eexists; reflexivity|].
  destruct marketData; eexists; reflexivity.
Qed.

Lemma generateTradeRecommendation_never_throws
  now ai symbol marketData pocketOptionData :
  exists recommendation ai',
    generateTradeRecommendation now ai symbol marketData pocketOptionData
    = Ok (recommendation, ai').
Proof.
  unfold generateTradeRecommendation, try_catch.
  destruct (try_block _ _ _ _ _) as [[r a]|e]; eauto.
Qed.

(** With the secondary source missing, [analyzeMarketConditions] raises a
    TypeError, and [generateTradeRecommendation] returns a HOLD
    recommendation all the same. *)
Lemma raised_error_is_swallowed :
  analyzeMarketConditions 0 (Some Samples.quoted_market) None
  = Throw (TypeError "Cannot read properties of undefined (reading 'indicators')")
  /\ exists recommendation ai',
      generateTradeRecommendation 0 Samples.fresh_ai "AAPL"
        (Some Samples.quoted_market) None
      = Ok (recommendation, ai')
      /\ Recommendation.action recommendation = HOLD
      /\ Recommendation.confidence recommendation = Fin 50.
Proof.
  split; [reflexivity|]. eexists _, _. repeat split.
Qed.

(** C9 (amended).  [generateTradeRecommendation] never raises: whenever a
    component inside its [try] block raises an error, the error is logged
    and the safe recommendation (HOLD, confidence 50, high risk) is
    returned in place of a decision, the trade history being left as it
    was. *)
Theorem errors_yield_the_safe_recommendation :
  forall now ai symbol marketData pocketOptionData,
    (exists recommendation ai',
        generateTradeRecommendation now ai symbol marketData pocketOptionData
        = Ok (recommendation, ai'))
    /\ (forall error,
           try_block now ai symbol marketData pocketOptionData = Throw error ->
           generateTradeRecommendation now ai symbol marketData
             pocketOptionData
           = Ok (createSafeRecommendation symbol,
                 {| AI.tradeHistory := AI.tradeHistory ai;
                    AI.console := AI.console ai ++ [error] |})).
Proof.
  intros now ai symbol marketData pocketOptionData. split.
  - apply generateTradeRecommendation_never_throws.
  - intros error H. unfold generateTradeRecommendation. now rewrite H.
Qed.

Lemma errors_yield_the_safe_recommendation_witness :
  generateTradeRecommendation 0 Samples.fresh_ai "AAPL"
    (Some Samples.quoted_market) None
  = Ok (createSafeRecommendation "AAPL",
        {| AI.tradeHistory := [];
           AI.console :=
             [TypeError "Cannot read properties of undefined (reading 'indicators')"] |}).
Proof.
  apply (proj2 (errors_yield_the_safe_recommendation 0 Samples.fresh_ai "AAPL"
                  (Some Samples.quoted_market) None)).
  reflexivity.
Defined.

End AdvancedFacts.

(** * Sums and means of finite series *)

Module SeriesFacts.
Import JS NumFacts EnhancedTradingEngine.

Lemma finite_series (xs : list num) :
  Forall is_finite xs -> exists qs, xs = map Fin qs.
Proof.
  induction 1 as [|x xs Hx _ [qs ->]]; [now exists []|].
  apply finite_inv in Hx. destruct Hx as [q ->]. now exists (q :: qs).
Qed.

Lemma bounded_series (lo hi : Q) (xs : list num) :
  Forall (within lo hi) xs ->
  exists qs, xs = map Fin qs /\ Forall (fun q => lo <= q <= hi) qs.
Proof.
  induction 1 as [|x xs Hx _ (qs & -> & Hqs)]; [now exists []|].
  destruct x as [q| | |]; simpl in Hx; try tauto.
  exists (q :: qs). split; [reflexivity|]. now constructor.
Qed.

Lemma fold_add_series (qs : list Q) (a : Q) :
  exists s, fold_left add (map Fin qs) (Fin a) = Fin s /\ s == a + Qsum qs.
Proof.
  revert a. induction qs as [|q qs IH]; intros a.
  - exists a. split; [reflexivity|]. unfold Qsum. simpl. ring.
  - cbn [map fold_left].
    change (add (Fin a) (Fin q)) with (Fin (Qred (a + q))).
    destruct (IH (Qred (a + q))) as (s & -> & Hs).
    exists s. split; [reflexivity|].
    rewrite Hs, Qred_correct. unfold Qsum. simpl. ring.
Qed.

Lemma sum_series (qs : list Q) :
  exists s, sum (map Fin qs) = Fin s /\ s == Qsum qs.
Proof.
  destruct (fold_add_series qs 0) as (s & Hs & E).
  exists s. split; [exact Hs|]. rewrite E. ring.
Qed.

Lemma Qsum_bounds (lo hi : Q) (qs : list Q) :
  Forall (fun q => lo <= q <= hi) qs ->
  inject_Z (Z.of_nat (List.length qs)) * lo <= Qsum qs
  /\ Qsum qs <= inject_Z (Z.of_nat (List.length qs)) * hi.
Proof.
  induction 1 as [|q qs Hq _ IH].
  - change (0 * lo <= 0 /\ 0 <= 0 * hi). lra.
  - change (Qsum (q :: qs)) with (q + Qsum qs).
    change (List.length (q :: qs)) with (S (List.length qs)).
    rewrite Nat2Z.inj_succ. unfold Z.succ. rewrite inject_Z_plus.
    revert IH. generalize (inject_Z (Z.of_nat (List.length qs))) (Qsum qs).
    intros n t IH. change (inject_Z 1) with 1. nra.
Qed.

Lemma Qsum_nonneg (qs : list Q) : Forall (fun q => 0 <= q) qs -> 0 <= Qsum qs.
Proof.
  induction 1 as [|q qs Hq _ IH]; [change (0 <= 0); lra|].
  change (Qsum (q :: qs)) with (q + Qsum qs). lra.
Qed.

Lemma length_positive (n : nat) : (0 < n)%nat -> 0 < inject_Z (Z.of_nat n).
Proof.
  intros H. change 0 with (inject_Z 0). rewrite <- Zlt_Qlt. lia.
Qed.

Lemma div_by_count (s : Q) (n : nat) :
  (0 < n)%nat -> div (Fin s) (of_nat n) = fin (s / inject_Z (Z.of_nat n)).
Proof.
  intros H. unfold of_nat, of_Z, div. rewrite Qeq_bool_false; [reflexivity|].
  pose proof (length_positive n H). lra.
Qed.

(** The mean of a non-empty series within [lo, hi] is within [lo, hi]. *)
Lemma mean_within (lo hi : Q) (xs : list num) :
  xs <> [] -> Forall (within lo hi) xs ->
  within lo hi (div (sum xs) (of_nat (List.length xs))).
Proof.
  intros Hne Hxs. destruct (bounded_series lo hi xs Hxs) as (qs & -> & Hqs).
  destruct (sum_series qs) as (s & -> & Hs).
  assert (0 < List.length (map Fin qs))%nat as Hlen
      by (destruct qs; [now elim Hne|simpl; lia]).
  rewrite (div_by_count s _ Hlen). apply within_fin.
  rewrite length_map in *. pose proof (length_positive _ Hlen) as Hn.
  destruct (Qsum_bounds lo hi qs Hqs) as [H1 H2]. rewrite Hs.
  split.
  - apply Qle_shift_div_l; [exact Hn|]. lra.
  - apply Qle_shift_div_r; [exact Hn|]. lra.
Qed.

Lemma Forall_slice_last {A} (P : A -> Prop) (n : nat) (xs : list A) :
  Forall P xs -> Forall P (slice_last n xs).
Proof.
  intros H. unfold slice_last. destruct n; [exact H|].
  rewrite <- (firstn_skipn (List.length xs - S n) xs) in H.
  apply Forall_app in H. tauto.
Qed.

Lemma slice_last_nonempty {A} (n : nat) (xs : list A) :
  xs <> [] -> slice_last n xs <> [].
Proof.
  intros H. unfold slice_last. destruct n; [exact H|].
  intros E. apply (f_equal (@List.length A)) in E.
  rewrite length_skipn in E. destruct xs; [congruence|].
  cbn [List.length] in E. lia.
Qed.

Lemma slice_last_length {A} (n : nat) (xs : list A) :
  (0 < n)%nat -> List.length (slice_last n xs) = Nat.min n (List.length xs).
Proof.
  intros H. unfold slice_last. destruct n; [lia|].
  rewrite length_skipn. lia.
Qed.

Lemma slice_last_suffix {A} (n : nat) (xs : list A) :
  exists older, xs = older ++ slice_last n xs.
Proof.
  unfold slice_last. destruct n; [now exists []|].
  exists (firstn (List.length xs - S n) xs). now rewrite firstn_skipn.
Qed.

End SeriesFacts.

(** * Further facts about the indicator library *)

Module IndicatorFacts.
Import JS NumFacts SeriesFacts EnhancedTradingEngine.

Lemma calculateSMA_empty (period : nat) : calculateSMA [] period = NaN.
Proof. destruct period; reflexivity. Qed.

Lemma calculateSMA_within (lo hi : Q) (prices : list num) (period : nat) :
  prices <> [] -> Forall (within lo hi) prices ->
  within lo hi (calculateSMA prices period).
Proof.
  intros Hne Hin. unfold calculateSMA. cbv zeta. apply mean_within.
  - now apply slice_last_nonempty.
  - now apply Forall_slice_last.
Qed.

Lemma ten_to_pos (n : nat) : 0 < Magnitude.ten_to n.
Proof.
  unfold Magnitude.ten_to. change 0 with (inject_Z 0). rewrite <- Zlt_Qlt.
  apply Z.pow_pos_nonneg; lia.
Qed.

Lemma small_is_positive (n : nat) (q : Q) : / Magnitude.ten_to n <= q -> 0 < q.
Proof.
  intros H. pose proof (Qinv_lt_0_compat _ (ten_to_pos n)). lra.
Qed.

(** A non-negative range contains itself up to the tolerance. *)
Lemma within_about (lo hi : Q) (x : num) :
  0 <= lo -> within lo hi x -> Magnitude.about lo hi x.
Proof.
  unfold Magnitude.about, Magnitude.tolerance.
  destruct x as [q| | |]; simpl; try tauto. intros Hlo [H1 H2]. lra.
Qed.

(** X1.  The SMA of an empty window is NaN.  The SMA of a non-empty window
    of at most a million prices that lie in [lo, hi], with
    10^-300 <= lo and hi <= 10^300, is a number in [lo, hi] up to the
    tolerance, whatever the period. *)
Theorem sma_within_price_range :
  (forall period, calculateSMA [] period = NaN)
  /\ (forall (lo hi : Q) (prices : list num) (period : nat),
         / Magnitude.ten_to 300 <= lo -> hi <= Magnitude.ten_to 300 ->
         prices <> [] -> (Z.of_nat (List.length prices) <= 1000000)%Z ->
         Forall (within lo hi) prices ->
         Magnitude.about lo hi (calculateSMA prices period)).
Proof.
  split; [exact calculateSMA_empty|].
  intros lo hi prices period Hlo _ Hne _ Hin.
  apply within_about; [apply Qlt_le_weak, (small_is_positive 300), Hlo|].
  now apply calculateSMA_within.
Qed.

Lemma sma_within_price_range_witness :
  Magnitude.about 99 110
    (calculateSMA (map Bar.close Samples.three_bars) 20).
Proof.
  apply (proj2 sma_within_price_range).
  - vm_compute. discriminate.
  - vm_compute. discriminate.
  - discriminate.
  - vm_compute. discriminate.
  - repeat constructor; simpl; lra.
Defined.

(** The smoothing factor of a period of at least one bar lies in (0, 1]. *)
Lemma multiplier_range (period : nat) :
  (1 <= period)%nat ->
  exists m, div (Fin 2) (add (of_nat period) (Fin 1)) = Fin m /\ 0 < m <= 1.
Proof.
  intros H. unfold of_nat, of_Z, add, fin, div.
  pose proof (length_positive period H) as Hp.
  assert (1 <= inject_Z (Z.of_nat period)) as Hp1.
  { change 1 with (inject_Z 1). rewrite <- Zle_Qle. lia. }
  rewrite Qeq_bool_false by (rewrite Qred_correct; lra).
  eexists. split; [reflexivity|]. rewrite !Qred_correct. split.
  - apply Qlt_shift_div_l; lra.
  - apply Qle_shift_div_r; lra.
Qed.

Lemma ema_step_within (lo hi m ema price : Q) :
  0 < m <= 1 -> lo <= ema <= hi -> lo <= price <= hi ->
  within lo hi
    (add (mul (Fin price) (Fin m)) (mul (Fin ema) (sub (Fin 1) (Fin m)))).
Proof.
  intros Hm He Hp. cbn [add mul sub neg fin]. apply within_fin.
  rewrite !Qred_correct. split; nra.
Qed.

Lemma ema_fold_within (lo hi m : Q) (rest : list Q) (first : Q) :
  0 < m <= 1 -> lo <= first <= hi -> Forall (fun q => lo <= q <= hi) rest ->
  within lo hi
    (fold_left
       (fun ema price =>
          add (mul price (Fin m)) (mul ema (sub (Fin 1) (Fin m))))
       (map Fin rest) (Fin first)).
Proof.
  intros Hm Hfirst Hrest. revert first Hfirst.
  induction Hrest as [|price rest Hprice _ IH]; intros first Hfirst.
  - exact Hfirst.
  - cbn [map fold_left].
    pose proof (ema_step_within lo hi m first price Hm Hfirst Hprice) as H.
    destruct (add _ _) as [q| | |]; simpl in H; try tauto.
    now apply IH.
Qed.

Lemma calculateEMA_within :
  forall (lo hi : Q) (prices : list num) (period : nat),
    (1 <= period)%nat -> prices <> [] -> Forall (within lo hi) prices ->
    exists ema,
      calculateEMA prices period = Some (Fin ema) /\ lo <= ema <= hi.
Proof.
  intros lo hi prices period Hperiod Hne Hin.
  destruct (bounded_series lo hi prices Hin) as (qs & -> & Hqs).
  destruct qs as [|first rest]; [now elim Hne|].
  inversion Hqs as [|? ? Hfirst Hrest]; subst.
  unfold calculateEMA. cbv zeta.
  destruct (multiplier_range period Hperiod) as (m & -> & Hm).
  cbn [map].
  pose proof (ema_fold_within lo hi m rest first Hm Hfirst Hrest) as H.
  destruct (fold_left _ _ _) as [q| | |]; simpl in H; try tauto.
  now exists q.
Qed.

(** X2.  The EMA of an empty window is [undefined].  For a period between
    1 and a million, the EMA of a non-empty window whose prices lie in
    [lo, hi], with 10^-300 <= lo and hi <= 10^300, is a number in [lo, hi]
    up to the tolerance. *)
Theorem ema_within_price_range :
  (forall period, calculateEMA [] period = None)
  /\ (forall (lo hi : Q) (prices : list num) (period : nat),
         / Magnitude.ten_to 300 <= lo -> hi <= Magnitude.ten_to 300 ->
         (1 <= Z.of_nat period <= 1000000)%Z ->
         prices <> [] -> Forall (within lo hi) prices ->
         exists ema,
           calculateEMA prices period = Some (Fin ema)
           /\ Magnitude.about lo hi (Fin ema)).
Proof.
  split; [reflexivity|].
  intros lo hi prices period Hlo _ [Hperiod _] Hne Hin.
  destruct (calculateEMA_within lo hi prices period ltac:(lia) Hne Hin)
    as (ema & Hema & Hrange).
  exists ema. split; [exact Hema|].
  apply within_about; [apply Qlt_le_weak, (small_is_positive 300), Hlo|].
  exact Hrange.
Qed.

Lemma ema_within_price_range_witness :
  exists ema,
    calculateEMA (map Bar.close Samples.three_bars) 12 = Some (Fin ema)
    /\ Magnitude.about 99 110 (Fin ema).
Proof.
  apply (proj2 ema_within_price_range).
  - vm_compute. discriminate.
  - vm_compute. discriminate.
  - lia.
  - discriminate.
  - repeat constructor; simpl; lra.
Defined.

Lemma div_nonzero (a b : Q) : ~ b == 0 -> div (Fin a) (Fin b) = fin (a / b).
Proof. intros H. unfold div. now rewrite Qeq_bool_false. Qed.

Lemma changes_finite (prices : list num) :
  Forall is_finite prices -> Forall is_finite (changes prices).
Proof.
  induction 1 as [|previous rest Hp Hrest IH]; [constructor|].
  destruct rest as [|current rest]; [constructor|].
  change (Forall is_finite
            (sub current previous :: changes (current :: rest))).
  inversion Hrest; subst. constructor; [now apply sub_finite|exact IH].
Qed.

Lemma gain_nonneg (change : num) :
  is_finite change ->
  within 0 (Qabs (match change with Fin q => q | _ => 0 end))
         (if gt change (Fin 0) then change else Fin 0).
Proof.
  destruct change as [q| | |]; simpl; try tauto. intros _.
  destruct (Qltb 0 q) eqn:E; simpl.
  - apply Qltb_true in E. split; [lra|apply Qle_Qabs].
  - split; [lra|apply Qabs_nonneg].
Qed.

Lemma loss_nonneg (change : num) :
  is_finite change ->
  within 0 (Qabs (match change with Fin q => q | _ => 0 end))
         (if lt change (Fin 0) then neg change else Fin 0).
Proof.
  destruct change as [q| | |]; try (simpl; tauto). intros _.
  cbn [lt]. destruct (Qltb q 0) eqn:E.
  - apply Qltb_true in E. cbn [neg]. apply within_fin.
    split; [lra|]. rewrite <- Qabs_opp. apply Qle_Qabs.
  - simpl. split; [lra|apply Qabs_nonneg].
Qed.

Lemma within_nonneg (hi : Q) (x : num) :
  within 0 hi x -> exists q, x = Fin q /\ 0 <= q.
Proof. destruct x as [q| | |]; simpl; try tauto. intros [H _]. eauto. Qed.

Lemma nonneg_series (xs : list num) :
  Forall (fun x => exists q, x = Fin q /\ 0 <= q) xs ->
  exists qs, xs = map Fin qs /\ Forall (fun q => 0 <= q) qs.
Proof.
  induction 1 as [|x xs (q & -> & Hq) _ (qs & -> & Hqs)]; [now exists []|].
  exists (q :: qs). split; [reflexivity|]. now constructor.
Qed.

(** The average of the last [period] entries of a series of non-negative
    numbers is a non-negative number. *)
Lemma average_nonneg (xs : list num) (period : nat) :
  (0 < period)%nat ->
  Forall (fun x => exists q, x = Fin q /\ 0 <= q) xs ->
  exists a,
    div (sum (slice_last period xs)) (of_nat period) = Fin a /\ 0 <= a.
Proof.
  intros Hperiod Hxs.
  destruct (nonneg_series _ (Forall_slice_last _ period xs Hxs))
    as (qs & -> & Hqs).
  destruct (sum_series qs) as (s & -> & Hs).
  rewrite (div_by_count s period Hperiod). eexists. split; [reflexivity|].
  rewrite Qred_correct, Hs.
  apply Qle_shift_div_l; [now apply length_positive|].
  pose proof (Qsum_nonneg qs Hqs). lra.
Qed.

Lemma gains_nonneg (prices : list num) :
  Forall is_finite prices ->
  Forall (fun x => exists q, x = Fin q /\ 0 <= q)
    (map (fun change => if gt change (Fin 0) then change else Fin 0)
         (changes prices)).
Proof.
  intros H. apply changes_finite in H. apply Forall_map.
  eapply Forall_impl; [|exact H]. intros c Hc.
  eapply within_nonneg, gain_nonneg, Hc.
Qed.

Lemma losses_nonneg (prices : list num) :
  Forall is_finite prices ->
  Forall (fun x => exists q, x = Fin q /\ 0 <= q)
    (map (fun change => if lt change (Fin 0) then neg change else Fin 0)
         (changes prices)).
Proof.
  intros H. apply changes_finite in H. apply Forall_map.
  eapply Forall_impl; [|exact H]. intros c Hc.
  eapply within_nonneg, loss_nonneg, Hc.
Qed.

Lemma calculateRSI_within (prices : list num) (period : nat) :
  (0 < period)%nat -> Forall is_finite prices ->
  within 0 100 (calculateRSI prices period).
Proof.
  intros Hperiod Hfin. unfold calculateRSI. cbv zeta.
  destruct (average_nonneg _ period Hperiod (gains_nonneg prices Hfin))
    as (g & -> & Hg).
  destruct (average_nonneg _ period Hperiod (losses_nonneg prices Hfin))
    as (l & -> & Hl).
  cbn [strict_eq]. destruct (Qeq_bool l 0) eqn:E; [simpl; lra|].
  assert (~ l == 0) as Hl0.
  { intros F. apply Qeq_bool_iff in F. congruence. }
  assert (0 < l) as Hlpos by (apply Qnot_le_lt; intros F; apply Hl0; lra).
  rewrite (div_nonzero g l Hl0). unfold fin at 1.
  set (rs := Qred (g / l)).
  assert (0 <= rs) as Hrs.
  { unfold rs. rewrite Qred_correct. apply Qle_shift_div_l; lra. }
  change (add (Fin 1) (Fin rs)) with (Fin (Qred (1 + rs))).
  rewrite div_nonzero by (rewrite Qred_correct; lra).
  unfold fin at 1.
  change (within 0 100
            (fin (100 + Qred (- Qred (100 / Qred (1 + rs)))))).
  apply within_fin. rewrite !Qred_correct.
  assert (0 < 1 + rs) as Hd by lra.
  assert (0 <= 100 / (1 + rs)) as H1 by (apply Qle_shift_div_l; lra).
  assert (100 / (1 + rs) <= 100) as H2 by (apply Qle_shift_div_r; lra).
  revert H1 H2. generalize (100 / (1 + rs)). intros y H1 H2. lra.
Qed.

(** X3.  For prices of a magnitude of at most 10^200 and a period of at
    least one bar the RSI is a number in [0, 100]. *)
Theorem rsi_between_0_and_100 :
  forall (prices : list num) (period : nat),
    (0 < period)%nat ->
    Forall (within (- Magnitude.ten_to 200) (Magnitude.ten_to 200)) prices ->
    within 0 100 (calculateRSI prices period).
Proof.
  intros prices period Hperiod Hprices.
  apply calculateRSI_within; [exact Hperiod|].
  eapply Forall_impl; [|exact Hprices]. intros price. apply within_finite.
Qed.

Lemma rsi_between_0_and_100_witness :
  within 0 100 (calculateRSI (map Bar.close Samples.three_bars) 14).
Proof.
  apply rsi_between_0_and_100.
  - lia.
  - repeat constructor; vm_compute; discriminate.
Defined.

Lemma changes_of_nondecreasing (qs : list Q) :
  nondecreasing qs ->
  Forall (fun c => exists q, c = Fin q /\ 0 <= q) (changes (map Fin qs)).
Proof.
  induction qs as [|previous rest IH]; [constructor|].
  destruct rest as [|current rest]; [constructor|].
  intros [Hle Hrest].
  change (Forall (fun c => exists q, c = Fin q /\ 0 <= q)
            (sub (Fin current) (Fin previous)
               :: changes (map Fin (current :: rest)))).
  constructor; [|exact (IH Hrest)].
  eexists. split; [reflexivity|]. rewrite !Qred_correct. lra.
Qed.

Lemma sum_of_zeros (xs : list num) :
  Forall (fun x => x = Fin 0) xs -> sum xs = Fin 0.
Proof.
  unfold sum. induction 1 as [|x xs -> _ IH]; [reflexivity|exact IH].
Qed.

Lemma no_losses (qs : list Q) :
  nondecreasing qs ->
  Forall (fun x => x = Fin 0)
    (map (fun change => if lt change (Fin 0) then neg change else Fin 0)
         (changes (map Fin qs))).
Proof.
  intros H. apply Forall_map.
  eapply Forall_impl; [|exact (changes_of_nondecreasing qs H)].
  intros c (q & -> & Hq). cbn [lt]. now rewrite Qltb_ge.
Qed.

Lemma calculateRSI_nondecreasing :
  forall (closes : list Q) (period : nat),
    (0 < period)%nat -> nondecreasing closes ->
    calculateRSI (map Fin closes) period = Fin 100.
Proof.
  intros qs period Hperiod Hup. unfold calculateRSI. cbv zeta.
  rewrite (sum_of_zeros _ (Forall_slice_last _ period _ (no_losses qs Hup))).
  rewrite (div_by_count 0 period Hperiod).
  replace (strict_eq (fin (0 / inject_Z (Z.of_nat period))) (Fin 0))
    with true; [reflexivity|].
  symmetry. apply Qeq_bool_iff. rewrite Qred_correct.
  unfold Qdiv. ring.
Qed.

(** X4.  When the closes never fall (in particular on an empty or a
    one-bar window) the RSI is exactly 100, for every period of at least
    one bar. *)
Theorem rsi_is_100_without_losses :
  forall (closes : list Q) (period : nat),
    (0 < period)%nat -> nondecreasing closes ->
    calculateRSI (map Fin closes) period = Fin 100.
Proof. exact calculateRSI_nondecreasing. Qed.

Lemma rsi_is_100_without_losses_witness :
  calculateRSI (map Fin [100; 100; 101.5; 103]) 14 = Fin 100.
Proof.
  apply rsi_is_100_without_losses.
  - lia.
  - simpl. repeat split; lra.
Defined.

Lemma calculateSMA_finite (prices : list num) (period : nat) :
  prices <> [] -> Forall is_finite prices ->
  exists m, calculateSMA prices period = Fin m.
Proof.
  intros Hne Hfin. unfold calculateSMA. cbv zeta.
  pose proof (slice_last_nonempty period prices Hne) as Hslice.
  destruct (finite_series _ (Forall_slice_last _ period _ Hfin)) as [qs E].
  rewrite E in *. destruct (sum_series qs) as (s & -> & _).
  rewrite div_by_count; [eexists; reflexivity|].
  destruct qs; [now elim Hslice|simpl; lia].
Qed.

(** The sum of squared deviations is a non-negative number. *)
Lemma squared_deviations_nonneg (m : Q) (qs : list Q) (a : Q) :
  0 <= a ->
  exists total,
    fold_left (fun acc price => add acc (square (sub price (Fin m))))
              (map Fin qs) (Fin a) = Fin total
    /\ 0 <= total.
Proof.
  revert a. induction qs as [|q qs IH]; intros a Ha;
    [exists a; split; [reflexivity|exact Ha]|].
  cbn [map fold_left].
  change (add (Fin a) (square (sub (Fin q) (Fin m))))
    with (Fin (Qred (a + Qred (Qred (q + Qred (- m))
                               * Qred (q + Qred (- m)))))).
  apply IH. rewrite !Qred_correct.
  generalize (q + - m). intros d. nra.
Qed.

Lemma calculateBollingerBands_shape :
  forall (sqrt : num -> num) (prices : list num) (period : nat) (width : Q),
    sqrt_sound sqrt -> prices <> [] -> Forall is_finite prices ->
    (0 < period)%nat -> 0 <= width ->
    exists lower middle upper,
      calculateBollingerBands sqrt prices period (Fin width)
      = {| Bollinger.upper := Fin upper;
           Bollinger.middle := Fin middle;
           Bollinger.lower := Fin lower |}
      /\ calculateSMA prices period = Fin middle
      /\ lower <= middle <= upper
      /\ upper - middle == middle - lower.
Proof.
  intros sqrt prices period k [Hsqrt _] Hne Hfin Hperiod Hk.
  unfold calculateBollingerBands. cbv zeta.
  destruct (calculateSMA_finite prices period Hne Hfin) as [m ->].
  destruct (finite_series _ (Forall_slice_last _ period _ Hfin)) as [qs ->].
  destruct (squared_deviations_nonneg m qs 0 (Qle_refl 0))
    as (total & -> & Htotal).
  rewrite (div_by_count total period Hperiod).
  destruct (Hsqrt (Qred (total / inject_Z (Z.of_nat period))))
    as (std & Hstd & Hpos).
  { rewrite Qred_correct. apply Qle_shift_div_l; [now apply length_positive|].
    lra. }
  unfold fin. rewrite !Hstd. cbn [add sub mul neg fin]. unfold fin.
  eexists _, m, _. split; [reflexivity|]. split; [reflexivity|].
  rewrite !Qred_correct. split; [split; nra|ring].
Qed.

(** X5.  For a non-empty window of prices of a magnitude of at most
    10^100, a period of at least one bar, a width between 0 and 1000 and a
    sound square root, the Bollinger bands are numbers, the middle band is
    the SMA, and lower <= middle <= upper. *)
Theorem bollinger_bands_enclose_the_sma :
  forall (sqrt : num -> num) (prices : list num) (period : nat) (width : Q),
    sqrt_sound sqrt -> prices <> [] ->
    Forall (within (- Magnitude.ten_to 100) (Magnitude.ten_to 100)) prices ->
    (0 < period)%nat -> 0 <= width <= 1000 ->
    exists lower middle upper,
      calculateBollingerBands sqrt prices period (Fin width)
      = {| Bollinger.upper := Fin upper;
           Bollinger.middle := Fin middle;
           Bollinger.lower := Fin lower |}
      /\ calculateSMA prices period = Fin middle
      /\ lower <= middle <= upper.
Proof.
  intros sqrt prices period width Hsqrt Hne Hprices Hperiod [Hwidth _].
  assert (Forall is_finite prices) as Hfin.
  { eapply Forall_impl; [|exact Hprices]. intros price. apply within_finite. }
  destruct (calculateBollingerBands_shape sqrt prices period width
              Hsqrt Hne Hfin Hperiod Hwidth)
    as (lower & middle & upper & Hbands & Hmiddle & Horder & _).
  exists lower, middle, upper. split; [exact Hbands|].
  split; [exact Hmiddle|exact Horder].
Qed.

(** The square root truncated to nine decimals is a sound square root. *)
Lemma sqrt_truncated_sound : sqrt_sound sqrt_truncated.
Proof.
  split; [|reflexivity]. intros q Hq. unfold sqrt_truncated.
  rewrite Qltb_ge by exact Hq. eexists. split; [reflexivity|].
  rewrite Qred_correct. apply Qle_shift_div_l; [reflexivity|].
  setoid_replace (0 * inject_Z (10 ^ 9)) with (inject_Z 0) by reflexivity.
  rewrite <- Zle_Qle. apply Z.sqrt_nonneg.
Qed.

Lemma bollinger_bands_enclose_the_sma_witness :
  exists lower middle upper,
    calculateBollingerBands sqrt_truncated
      (map Bar.close Samples.three_bars) 20 (Fin 2)
    = {| Bollinger.upper := Fin upper;
         Bollinger.middle := Fin middle;
         Bollinger.lower := Fin lower |}
    /\ calculateSMA (map Bar.close Samples.three_bars) 20 = Fin middle
    /\ lower <= middle <= upper.
Proof.
  apply bollinger_bands_enclose_the_sma.
  - exact sqrt_truncated_sound.
  - discriminate.
  - repeat constructor; vm_compute; discriminate.
  - lia.
  - split; discriminate.
Defined.

End IndicatorFacts.

(** * Further facts about the structured signal *)

Module SignalFacts.
Import JS NumFacts SeriesFacts IndicatorFacts EnhancedTradingEngine.

Lemma lt_irrefl (x : num) : lt x x = false.
Proof.
  destruct x as [q| | |]; try reflexivity. apply Qltb_ge. lra.
Qed.

Lemma sub_self_cases (x : num) : sub x x = Fin 0 \/ sub x x = NaN.
Proof.
  destruct x as [q| | |]; try (right; reflexivity).
  left. apply EnhancedFacts.sub_self. exact I.
Qed.

(** The histogram is [macd - macd]: 0, or NaN when [macd] is not finite. *)
Lemma histogram_is_idle (prices : list num) :
  Macd.histogram (calculateMACD prices) = Fin 0
  \/ Macd.histogram (calculateMACD prices) = NaN.
Proof. unfold calculateMACD. cbv zeta. apply sub_self_cases. Qed.

Lemma macdAnalysis_idle (ind : Indicators.t) (t : tally) :
  Macd.histogram (Indicators.macd ind) = Fin 0
  \/ Macd.histogram (Indicators.macd ind) = NaN ->
  macdAnalysis ind t = t.
Proof. unfold macdAnalysis. cbv zeta. intros [-> | ->]; reflexivity. Qed.

Lemma indicators_of_window sqrt (data : list Bar.t) (ind : Indicators.t) :
  calculateTechnicalIndicators sqrt data = Ok ind ->
  data <> []
  /\ Indicators.rsi ind = calculateRSI (map Bar.close data) 14
  /\ Indicators.macd ind = calculateMACD (map Bar.close data)
  /\ Indicators.sma20 ind = calculateSMA (map Bar.close data) 20
  /\ Indicators.sma50 ind = calculateSMA (map Bar.close data) 50
  /\ Indicators.bollinger ind
     = calculateBollingerBands sqrt (map Bar.close data) 20 (Fin 2)
  /\ Indicators.currentPrice ind = last_value (map Bar.close data).
Proof.
  unfold calculateTechnicalIndicators. cbv zeta.
  destruct data as [|b rest]; [discriminate|].
  destruct (calculateStochastic (b :: rest) 14) as [k|e]; cbn [bind];
    [|discriminate].
  intros [= <-]. repeat split. discriminate.
Qed.

(** What the tally of any indicator set keeps. *)
Lemma bullish_bounded (w : Q) (name : string) (t : tally) :
  0 <= w <= 1 -> tally_bounded t -> tally_bounded (bullish (Fin w) name t).
Proof.
  destruct t as [[s c] l]. intros Hw [Hs Hl].
  destruct s as [q| | |]; simpl in Hs; try tauto.
  cbn [bullish tally_bounded add]. split.
  - apply within_fin. rewrite Nat2Z.inj_succ. unfold Z.succ.
    rewrite inject_Z_plus. change (inject_Z 1) with 1. lra.
  - rewrite length_app. simpl. lia.
Qed.

Lemma bearish_bounded (w : Q) (name : string) (t : tally) :
  0 <= w <= 1 -> tally_bounded t -> tally_bounded (bearish (Fin w) name t).
Proof.
  destruct t as [[s c] l]. intros Hw [Hs Hl].
  destruct s as [q| | |]; simpl in Hs; try tauto.
  cbn [bearish tally_bounded sub add neg fin]. split.
  - apply within_fin. rewrite Qred_correct.
    rewrite Nat2Z.inj_succ. unfold Z.succ.
    rewrite inject_Z_plus. change (inject_Z 1) with 1. lra.
  - rewrite length_app. simpl. lia.
Qed.

Ltac step_bounded f :=
  intros; unfold f; cbv zeta;
  repeat match goal with
         | |- context [if ?b then _ else _] => destruct b
         end;
  try assumption;
  match goal with
  | |- tally_bounded (bullish _ _ _) => apply bullish_bounded
  | |- tally_bounded (bearish _ _ _) => apply bearish_bounded
  end; (assumption || lra).

Lemma rsiAnalysis_bounded ind t :
  tally_bounded t -> tally_bounded (rsiAnalysis ind t).
Proof. step_bounded rsiAnalysis. Qed.

Lemma macdAnalysis_bounded ind t :
  tally_bounded t -> tally_bounded (macdAnalysis ind t).
Proof. step_bounded macdAnalysis. Qed.

Lemma movingAverageAnalysis_bounded ind t :
  tally_bounded t -> tally_bounded (movingAverageAnalysis ind t).
Proof. step_bounded movingAverageAnalysis. Qed.

Lemma bollingerAnalysis_bounded ind t :
  tally_bounded t -> tally_bounded (bollingerAnalysis ind t).
Proof. step_bounded bollingerAnalysis. Qed.

(** X6.  For the indicators computed from any window, the MACD block of
    [analyzeSignal] leaves the tally as it is, no MACD factor is ever
    listed, and the MACD bonus of the dynamic confidence is never
    granted: the histogram is [macd - macd]. *)
Theorem macd_never_contributes :
  forall (sqrt : num -> num) (data : list Bar.t) (ind : Indicators.t),
    calculateTechnicalIndicators sqrt data = Ok ind ->
    (forall t, macdAnalysis ind t = t)
    /\ gt (abs (Macd.histogram (Indicators.macd ind))) (Fin 0.5) = false
    /\ ~ In "MACD bullish crossover" (Signal.factors (analyzeSignal ind))
    /\ ~ In "MACD bearish crossover" (Signal.factors (analyzeSignal ind)).
Proof.
  intros sqrt data ind H.
  destruct (indicators_of_window sqrt data ind H) as (_ & _ & Hmacd & _).
  pose proof (histogram_is_idle (map Bar.close data)) as Hidle.
  rewrite <- Hmacd in Hidle.
  split; [intros t; now apply macdAnalysis_idle|].
  split; [destruct Hidle as [-> | ->]; reflexivity|].
  unfold analyzeSignal. rewrite (macdAnalysis_idle ind _ Hidle).
  unfold rsiAnalysis, movingAverageAnalysis, bollingerAnalysis. cbv zeta.
  repeat match goal with
         | |- context [if ?b then _ else _] => destruct b
         end;
    cbn [bullish bearish Signal.factors app];
    split; intros F; simpl in F; intuition discriminate.
Qed.

Lemma macd_never_contributes_witness :
  exists ind,
    calculateTechnicalIndicators sqrt_truncated Samples.three_bars = Ok ind
    /\ (forall t, macdAnalysis ind t = t)
    /\ gt (abs (Macd.histogram (Indicators.macd ind))) (Fin 0.5) = false
    /\ ~ In "MACD bullish crossover" (Signal.factors (analyzeSignal ind))
    /\ ~ In "MACD bearish crossover" (Signal.factors (analyzeSignal ind)).
Proof.
  eexists. split; [reflexivity|].
  apply (macd_never_contributes sqrt_truncated Samples.three_bars).
  reflexivity.
Defined.

Ltac step_count f :=
  intros; unfold f; cbv zeta;
  repeat match goal with
         | |- context [if ?b then _ else _] => destruct b
         end;
  match goal with
  | t : tally |- _ => destruct t as [[? ?] ?]
  end; cbn [bullish bearish fst snd]; lia.

Lemma rsiAnalysis_count ind t :
  (snd (fst (rsiAnalysis ind t)) <= S (snd (fst t)))%nat.
Proof. step_count rsiAnalysis. Qed.

Lemma macdAnalysis_count ind t :
  (snd (fst (macdAnalysis ind t)) <= S (snd (fst t)))%nat.
Proof. step_count macdAnalysis. Qed.

Lemma movingAverageAnalysis_count ind t :
  (snd (fst (movingAverageAnalysis ind t)) <= S (snd (fst t)))%nat.
Proof. step_count movingAverageAnalysis. Qed.

Lemma bollingerAnalysis_count ind t :
  (snd (fst (bollingerAnalysis ind t)) <= S (snd (fst t)))%nat.
Proof. step_count bollingerAnalysis. Qed.

(** X7.  For every indicator set the strength of the analysed signal is a
    number in [0, 1] and the raw strength one in [-1, 1]; at most four
    factors are listed, and with no factor the signal is HOLD. *)
Theorem signal_strength_is_a_fraction :
  forall ind : Indicators.t,
    within 0 1 (Signal.strength (analyzeSignal ind))
    /\ within (-1) 1 (Signal.rawStrength (analyzeSignal ind))
    /\ (List.length (Signal.factors (analyzeSignal ind)) <= 4)%nat
    /\ (Signal.factors (analyzeSignal ind) = [] ->
        Signal.type (analyzeSignal ind) = HOLD).
Proof.
  intros ind. unfold analyzeSignal.
  set (t3 := movingAverageAnalysis ind
               (macdAnalysis ind (rsiAnalysis ind (Fin 0, 0%nat, [])))).
  assert (tally_bounded (bollingerAnalysis ind t3)) as Hb.
  { apply bollingerAnalysis_bounded, movingAverageAnalysis_bounded,
      macdAnalysis_bounded, rsiAnalysis_bounded.
    split; [vm_compute; split; discriminate|reflexivity]. }
  assert (snd (fst (bollingerAnalysis ind t3)) <= 4)%nat as Hc.
  { pose proof (bollingerAnalysis_count ind t3).
    pose proof (movingAverageAnalysis_count ind
                  (macdAnalysis ind (rsiAnalysis ind (Fin 0, 0%nat, [])))).
    pose proof (macdAnalysis_count ind (rsiAnalysis ind (Fin 0, 0%nat, []))).
    pose proof (rsiAnalysis_count ind (Fin 0, 0%nat, [])).
    subst t3. simpl snd in *. lia. }
  destruct (bollingerAnalysis ind t3) as [[s c] l].
  destruct Hb as [Hs Hl]. cbn [fst snd] in Hc.
  destruct s as [q| | |]; simpl in Hs; try tauto.
  cbv zeta. cbn [Signal.strength Signal.rawStrength Signal.factors Signal.type].
  assert (within (-1) 1
            (if (0 <? c)%nat then div (Fin q) (of_nat c) else Fin 0)) as Havg.
  { destruct (0 <? c)%nat eqn:E; [|simpl; lra].
    apply Nat.ltb_lt in E. rewrite (div_by_count q c E). apply within_fin.
    pose proof (length_positive c E) as Hn. split.
    - apply Qle_shift_div_l; [exact Hn|]. lra.
    - apply Qle_shift_div_r; [exact Hn|]. lra. }
  split; [|split; [exact Havg|split; [lia|]]].
  - destruct (if (0 <? c)%nat then _ else _) as [a| | |];
      simpl in Havg; try tauto.
    cbn [abs]. apply within_fin. split; [apply Qabs_nonneg|].
    apply Qabs_Qle_condition. lra.
  - intros ->. simpl in Hl. subst c. reflexivity.
Qed.

Lemma toFixed2_value (q : Q) : exists r, toFixed2 (Fin q) = Fin r.
Proof.
  destruct (EnhancedFacts.toFixed2_mono q q (Qle_refl q)) as (r & _ & H & _).
  eauto.
Qed.

Lemma toFixed2_order (a b ra rb : Q) :
  a <= b -> toFixed2 (Fin a) = Fin ra -> toFixed2 (Fin b) = Fin rb ->
  ra <= rb.
Proof.
  intros Hab Ha Hb.
  destruct (EnhancedFacts.toFixed2_mono a b Hab) as (x & y & Hx & Hy & Hxy).
  rewrite Ha in Hx. rewrite Hb in Hy.
  injection Hx as <-. injection Hy as <-. exact Hxy.
Qed.

Lemma calculateEntryExitZones_ordered :
  forall (sqrt : num -> num) (data : list Bar.t) (signal : Signal.t)
         (first : Bar.t) (price volatility : Q),
    data <> [] ->
    Bar.close (List.last data first) = Fin price -> 0 <= price ->
    calculateVolatility sqrt data 20 = Fin volatility -> 0 <= volatility ->
    exists low high target stopLoss,
      calculateEntryExitZones sqrt data signal
      = Ok {| Zones.entry := (Fin low, Fin high);
              Zones.target := Fin target;
              Zones.stopLoss := Fin stopLoss |}
      /\ match Signal.type signal with
         | BUY => stopLoss <= low /\ low <= high /\ high <= target
         | SELL => target <= low /\ low <= high /\ high <= stopLoss
         | HOLD => low <= target /\ target <= high /\ stopLoss = target
         end.
Proof.
  intros sqrt data signal first p v Hne Hclose Hp Hvol Hv.
  unfold calculateEntryExitZones.
  destruct data as [|b rest]; [congruence|]. cbv zeta.
  rewrite (EnhancedFacts.last_default (b :: rest) b first Hne), Hclose, Hvol.
  destruct (Signal.type signal); cbn [mul sub add neg fin]; unfold fin.
  - destruct (toFixed2_value (Qred (p * Qred (1 + Qred (- Qred (v * 1.5))))))
      as [sl Hsl].
    destruct (toFixed2_value (Qred (p * Qred (1 + Qred (- Qred (v * 0.5))))))
      as [lo Hlo].
    destruct (toFixed2_value (Qred (p * Qred (1 + Qred (v * 0.2)))))
      as [hi Hhi].
    destruct (toFixed2_value (Qred (p * Qred (1 + Qred (v * 2)))))
      as [tg Htg].
    rewrite Hsl, Hlo, Hhi, Htg. eexists _, _, _, _.
    split; [reflexivity|].
    split; [|split];
      (eapply toFixed2_order; [|eassumption|eassumption]);
      rewrite !Qred_correct; nra.
  - destruct (toFixed2_value (Qred (p * Qred (1 + Qred (v * 1.5)))))
      as [sl Hsl].
    destruct (toFixed2_value (Qred (p * Qred (1 + Qred (- Qred (v * 0.2))))))
      as [lo Hlo].
    destruct (toFixed2_value (Qred (p * Qred (1 + Qred (v * 0.5)))))
      as [hi Hhi].
    destruct (toFixed2_value (Qred (p * Qred (1 + Qred (- Qred (v * 2))))))
      as [tg Htg].
    rewrite Hsl, Hlo, Hhi, Htg. eexists _, _, _, _.
    split; [reflexivity|].
    split; [|split];
      (eapply toFixed2_order; [|eassumption|eassumption]);
      rewrite !Qred_correct; nra.
  - destruct (toFixed2_value (Qred (p * 0.995))) as [lo Hlo].
    destruct (toFixed2_value (Qred (p * 1.005))) as [hi Hhi].
    destruct (toFixed2_value p) as [tg Htg].
    rewrite Hlo, Hhi, Htg. eexists _, _, _, _.
    split; [reflexivity|].
    split; [|split; [|reflexivity]];
      (eapply toFixed2_order; [|eassumption|eassumption]);
      rewrite ?Qred_correct; lra.
Qed.

(** X8.  For a non-negative current price and a non-negative volatility
    the levels are numbers in the order a trader expects: for BUY
    stop-loss <= entry low <= entry high <= target, for SELL
    target <= entry low <= entry high <= stop-loss, and for HOLD
    entry low <= target = stop-loss <= entry high. *)
Theorem levels_are_ordered :
  forall (sqrt : num -> num) (data : list Bar.t) (signal : Signal.t)
         (first : Bar.t) (price volatility : Q),
    data <> [] ->
    Bar.close (List.last data first) = Fin price -> 0 <= price ->
    calculateVolatility sqrt data 20 = Fin volatility -> 0 <= volatility ->
    exists low high target stopLoss,
      calculateEntryExitZones sqrt data signal
      = Ok {| Zones.entry := (Fin low, Fin high);
              Zones.target := Fin target;
              Zones.stopLoss := Fin stopLoss |}
      /\ match Signal.type signal with
         | BUY => stopLoss <= low /\ low <= high /\ high <= target
         | SELL => target <= low /\ low <= high /\ high <= stopLoss
         | HOLD => low <= target /\ target <= high /\ stopLoss = target
         end.
Proof. exact calculateEntryExitZones_ordered. Qed.

Lemma levels_are_ordered_witness :
  exists low high target stopLoss,
    calculateEntryExitZones sqrt_truncated Samples.three_bars
      Samples.buy_signal
    = Ok {| Zones.entry := (Fin low, Fin high);
            Zones.target := Fin target;
            Zones.stopLoss := Fin stopLoss |}
    /\ stopLoss <= low /\ low <= high /\ high <= target.
Proof.
  apply (levels_are_ordered sqrt_truncated Samples.three_bars
           Samples.buy_signal (Samples.bar 0 0 0 0) 99 0.1).
  - discriminate.
  - reflexivity.
  - discriminate.
  - reflexivity.
  - discriminate.
Defined.

Lemma rsiAnalysis_overbought (ind : Indicators.t) (t : tally) :
  Indicators.rsi ind = Fin 100 ->
  rsiAnalysis ind t = bearish (Fin 1) "RSI overbought" t.
Proof. unfold rsiAnalysis. cbv zeta. now intros ->. Qed.

Lemma movingAverageAnalysis_idle (ind : Indicators.t) (t : tally) :
  Indicators.sma20 ind = Indicators.sma50 ind ->
  movingAverageAnalysis ind t = t.
Proof.
  unfold movingAverageAnalysis, gt. cbv zeta. intros ->.
  now rewrite lt_irrefl, !andb_false_r.
Qed.

Lemma bollingerAnalysis_above_lower (ind : Indicators.t) (t : tally)
  (price lower : Q) :
  Indicators.currentPrice ind = Some (Fin price) ->
  Bollinger.lower (Indicators.bollinger ind) = Fin lower ->
  lower <= price ->
  bollingerAnalysis ind t
  = if gt (Fin price) (Bollinger.upper (Indicators.bollinger ind))
    then bearish (Fin 0.3) "Price near upper Bollinger band" t
    else t.
Proof.
  unfold bollingerAnalysis. cbv zeta. intros -> -> H.
  cbn [toNumber lt]. now rewrite Qltb_ge.
Qed.

(** An RSI of 100 with level moving averages and a price not below the
    lower band: the only factors are bearish. *)
Lemma analyzeSignal_overbought (ind : Indicators.t) (price lower : Q) :
  Indicators.rsi ind = Fin 100 ->
  (Macd.histogram (Indicators.macd ind) = Fin 0
   \/ Macd.histogram (Indicators.macd ind) = NaN) ->
  Indicators.sma20 ind = Indicators.sma50 ind ->
  Indicators.currentPrice ind = Some (Fin price) ->
  Bollinger.lower (Indicators.bollinger ind) = Fin lower ->
  lower <= price ->
  Signal.type (analyzeSignal ind) = SELL
  /\ (gt (Fin price) (Bollinger.upper (Indicators.bollinger ind)) = false ->
      Signal.strength (analyzeSignal ind) = Fin 1).
Proof.
  intros Hrsi Hmacd Hsma Hprice Hlower Hle. unfold analyzeSignal.
  rewrite (rsiAnalysis_overbought ind _ Hrsi), (macdAnalysis_idle ind _ Hmacd),
    (movingAverageAnalysis_idle ind _ Hsma),
    (bollingerAnalysis_above_lower ind _ price lower Hprice Hlower Hle).
  destruct (gt (Fin price) _); split; try reflexivity; discriminate.
Qed.

Lemma nondecreasing_range (first : Q) (rest : list Q) :
  nondecreasing (first :: rest) ->
  Forall (fun q => first <= q <= List.last (first :: rest) first)
         (first :: rest).
Proof.
  revert first. induction rest as [|next rest IH]; intros first H.
  - constructor; [simpl; lra|constructor].
  - destruct H as [Hle Hrest]. specialize (IH next Hrest).
    change (List.last (first :: next :: rest) first)
      with (List.last (next :: rest) first).
    rewrite (EnhancedFacts.last_default (next :: rest) first next)
      by discriminate.
    assert (next <= List.last (next :: rest) next) as Hlast.
    { inversion IH; subst. lra. }
    constructor; [lra|].
    eapply Forall_impl; [|exact IH]. simpl. intros q Hq. lra.
Qed.

Lemma last_of_series (rest : list Q) (first : Q) (d : num) :
  List.last (map Fin (first :: rest)) d
  = Fin (List.last (first :: rest) first).
Proof.
  revert first. induction rest as [|next rest IH]; intros first;
    [reflexivity|].
  change (List.last (map Fin (next :: rest)) d
          = Fin (List.last (next :: rest) first)).
  rewrite IH. f_equal. apply EnhancedFacts.last_default. discriminate.
Qed.

Lemma last_value_series (first : Q) (rest : list Q) :
  last_value (map Fin (first :: rest))
  = Some (Fin (List.last (first :: rest) first)).
Proof. unfold last_value. cbn [map]. f_equal. apply last_of_series. Qed.

(** The indicators of 1 to 20 bars whose closes never fall. *)
Lemma indicators_of_rising_window
  sqrt (data : list Bar.t) (first : Q) (rest : list Q) (ind : Indicators.t) :
  sqrt_sound sqrt ->
  map Bar.close data = map Fin (first :: rest) ->
  (List.length data <= 20)%nat ->
  nondecreasing (first :: rest) ->
  calculateTechnicalIndicators sqrt data = Ok ind ->
  exists lower middle upper,
    Indicators.rsi ind = Fin 100
    /\ Indicators.sma20 ind = Indicators.sma50 ind
    /\ Indicators.currentPrice ind
       = Some (Fin (List.last (first :: rest) first))
    /\ Indicators.bollinger ind
       = {| Bollinger.upper := Fin upper;
            Bollinger.middle := Fin middle;
            Bollinger.lower := Fin lower |}
    /\ lower <= middle <= upper
    /\ first <= middle <= List.last (first :: rest) first.
Proof.
  intros Hsqrt Hcloses Hlen Hup Hind.
  destruct (indicators_of_window sqrt data ind Hind)
    as (_ & -> & _ & -> & -> & -> & ->).
  rewrite Hcloses.
  assert (forall period, (20 <= period)%nat ->
            calculateSMA (map Fin (first :: rest)) period
            = div (sum (map Fin (first :: rest)))
                  (of_nat (List.length (map Fin (first :: rest))))) as Hsma.
  { intros period Hp. unfold calculateSMA. cbv zeta.
    rewrite EnhancedFacts.slice_last_short; [reflexivity|].
    rewrite <- Hcloses, length_map. lia. }
  assert (Forall is_finite (map Fin (first :: rest))) as Hfin
      by (apply Forall_map, Forall_forall; intros; exact I).
  destruct (calculateBollingerBands_shape sqrt (map Fin (first :: rest)) 20 2
              Hsqrt ltac:(discriminate) Hfin ltac:(lia) ltac:(lra))
    as (lower & middle & upper & Hbands & Hmiddle & Horder & _).
  exists lower, middle, upper.
  split; [apply calculateRSI_nondecreasing; [lia|exact Hup]|].
  split; [now rewrite !Hsma by lia|].
  split; [apply last_value_series|].
  split; [exact Hbands|]. split; [exact Horder|].
  pose proof (calculateSMA_within first (List.last (first :: rest) first)
                (map Fin (first :: rest)) 20 ltac:(discriminate)) as H.
  rewrite Hmiddle in H. apply H. apply Forall_map.
  exact (nondecreasing_range first rest Hup).
Qed.

(** X9.  On a window of 1 to 20 bars whose closes never fall, the engine
    answers SELL: the RSI is 100, which counts as overbought, and no
    bullish factor can fire. *)
Theorem rising_short_window_is_sold :
  forall (sqrt : num -> num) (data : list Bar.t) (closes : list Q),
    sqrt_sound sqrt ->
    map Bar.close data = map Fin closes ->
    (1 <= List.length data <= 20)%nat ->
    nondecreasing closes ->
    exists structured,
      generateStructuredSignal sqrt data = Ok structured
      /\ Structured.signal structured = SELL.
Proof.
  intros sqrt data closes Hsqrt Hcloses [Hlen1 Hlen20] Hup.
  assert (data <> []) as Hne by (destruct data; [simpl in Hlen1; lia|discriminate]).
  destruct closes as [|first rest].
  { destruct data; [congruence|discriminate]. }
  unfold generateStructuredSignal.
  destruct (EnhancedFacts.calculateTechnicalIndicators_nonempty sqrt data Hne)
    as [ind Hind].
  rewrite Hind. cbn [bind].
  destruct (EnhancedFacts.calculateEntryExitZones_nonempty sqrt data
              (analyzeSignal ind) Hne) as [zones ->].
  cbn [bind]. eexists. split; [reflexivity|]. cbn [Structured.signal].
  destruct (indicators_of_rising_window sqrt data first rest ind
              Hsqrt Hcloses Hlen20 Hup Hind)
    as (lower & middle & upper & Hrsi & Hsma & Hprice & Hbands & Ho & Hm).
  destruct (indicators_of_window sqrt data ind Hind) as (_ & _ & Hmacd & _).
  apply (analyzeSignal_overbought ind (List.last (first :: rest) first) lower);
    try assumption.
  - rewrite Hmacd. apply histogram_is_idle.
  - now rewrite Hbands.
  - lra.
Qed.

Lemma rising_short_window_is_sold_witness :
  exists structured,
    generateStructuredSignal sqrt_truncated
      [Samples.bar 100 102 99 101; Samples.bar 101 104 100 103;
       Samples.bar 103 106 102 105]
    = Ok structured
    /\ Structured.signal structured = SELL.
Proof.
  apply (rising_short_window_is_sold sqrt_truncated _ [101; 103; 105]).
  - exact sqrt_truncated_sound.
  - reflexivity.
  - simpl. lia.
  - simpl. repeat split; discriminate.
Defined.

Lemma gt_upper_band (price upper : Q) :
  price <= upper -> gt (Fin price) (Fin upper) = false.
Proof. intros H. unfold gt. cbn [lt]. now apply Qltb_ge. Qed.

(** X10.  On a window of a single bar the engine answers SELL with a
    confidence of 95, and its entry zone, target and stop-loss are NaN: the
    RSI of one close is 100, and the volatility of one close is the square
    root of 0/0. *)
Theorem one_bar_window_is_sold_blind :
  forall (sqrt : num -> num) (bar : Bar.t) (close : Q),
    sqrt_sound sqrt -> Bar.close bar = Fin close ->
    exists structured,
      generateStructuredSignal sqrt [bar] = Ok structured
      /\ Structured.signal structured = SELL
      /\ Structured.confidence structured = Fin 95
      /\ Structured.entryZone structured = (NaN, NaN)
      /\ Structured.target structured = NaN
      /\ Structured.stopLoss structured = NaN.
Proof.
  intros sqrt bar q Hsqrt Hclose.
  assert (calculateTechnicalIndicators sqrt [bar]
          = Ok {| Indicators.rsi := calculateRSI [Bar.close bar] 14;
                  Indicators.macd := calculateMACD [Bar.close bar];
                  Indicators.sma20 := calculateSMA [Bar.close bar] 20;
                  Indicators.sma50 := calculateSMA [Bar.close bar] 50;
                  Indicators.ema12 := calculateEMA [Bar.close bar] 12;
                  Indicators.ema26 := calculateEMA [Bar.close bar] 26;
                  Indicators.bollinger :=
                    calculateBollingerBands sqrt [Bar.close bar] 20 (Fin 2);
                  Indicators.stochastic :=
                    mul (div (sub (Bar.close bar)
                                  (min_list [Bar.low bar]))
                             (sub (max_list [Bar.high bar])
                                  (min_list [Bar.low bar])))
                        (Fin 100);
                  Indicators.volume := analyzeVolume [Bar.volume bar];
                  Indicators.currentPrice := last_value [Bar.close bar] |})
    as Hind by reflexivity.
  set (ind := {| Indicators.rsi := calculateRSI [Bar.close bar] 14 |}) in Hind.
  destruct (indicators_of_rising_window sqrt [bar] q [] ind Hsqrt)
    as (lower & middle & upper & Hrsi & Hsma & Hprice & Hbands & Ho & Hm);
    [now cbn [map]; rewrite Hclose|simpl; lia|exact I|exact Hind|].
  cbn [List.last] in Hprice, Hm.
  destruct (indicators_of_window sqrt [bar] ind Hind) as (_ & _ & Hmacd & _).
  assert (Macd.histogram (Indicators.macd ind) = Fin 0
          \/ Macd.histogram (Indicators.macd ind) = NaN) as Hidle
      by (rewrite Hmacd; apply histogram_is_idle).
  destruct (analyzeSignal_overbought ind q lower Hrsi Hidle Hsma Hprice
              ltac:(now rewrite Hbands) ltac:(lra)) as [Htype Hstrength].
  specialize (Hstrength ltac:(rewrite Hbands; apply gt_upper_band; lra)).
  unfold generateStructuredSignal. rewrite Hind. cbn [bind].
  unfold calculateEntryExitZones. cbv zeta. rewrite Htype.
  replace (calculateVolatility sqrt [bar] 20) with NaN
    by (symmetry; exact (proj2 Hsqrt)).
  cbn [bind List.last]. rewrite Hclose.
  eexists. split; [reflexivity|].
  cbn [Structured.signal Structured.confidence Structured.entryZone
         Structured.target Structured.stopLoss].
  split; [reflexivity|]. split; [|repeat split].
  unfold calculateDynamicConfidence. cbv zeta. rewrite Hstrength, Hrsi.
  replace (gt (abs (Macd.histogram (Indicators.macd ind))) (Fin 0.5))
    with false by (destruct Hidle as [-> | ->]; reflexivity).
  destruct (VolumeTrend_eqb _ _); reflexivity.
Qed.

Lemma one_bar_window_is_sold_blind_witness :
  exists structured,
    generateStructuredSignal sqrt_truncated [Samples.bar 100 101 99 100]
    = Ok structured
    /\ Structured.signal structured = SELL
    /\ Structured.confidence structured = Fin 95
    /\ Structured.entryZone structured = (NaN, NaN)
    /\ Structured.target structured = NaN
    /\ Structured.stopLoss structured = NaN.
Proof.
  apply (one_bar_window_is_sold_blind sqrt_truncated
           (Samples.bar 100 101 99 100) 100).
  - exact sqrt_truncated_sound.
  - reflexivity.
Defined.

(** The returns of positive closes are numbers, and there is one as soon
    as there are two closes and the period allows it. *)
Lemma returns_of_series (period : nat) (newest_first : list Q) :
  Forall (fun q => 0 < q) newest_first ->
  exists rs,
    returns_of (map Fin newest_first) period = map Fin rs
    /\ ((1 <= period)%nat -> (2 <= List.length newest_first)%nat -> rs <> []).
Proof.
  revert newest_first.
  induction period as [|period IH]; intros qs Hpos.
  - exists []. split; [now destruct qs|lia].
  - destruct qs as [|newer [|older rest]].
    + exists []. split; [reflexivity|simpl; lia].
    + exists []. split; [reflexivity|simpl; lia].
    + inversion Hpos as [|? ? _ Hrest]; subst.
      assert (0 < older) as Holder by (inversion Hrest; assumption).
      destruct (IH (older :: rest) Hrest) as (rs & Hrs & _).
      change (returns_of (map Fin (newer :: older :: rest)) (S period))
        with (div (sub (Fin newer) (Fin older)) (Fin older)
                :: returns_of (map Fin (older :: rest)) period).
      rewrite Hrs. change (sub (Fin newer) (Fin older))
        with (Fin (Qred (newer + Qred (- older)))).
      rewrite div_nonzero by lra.
      eexists (_ :: rs). split; [reflexivity|]. discriminate.
Qed.

Lemma calculateVolatility_defined
  sqrt (data : list Bar.t) (closes : list Q) :
  sqrt_sound sqrt ->
  map Bar.close data = map Fin closes ->
  Forall (fun q => 0 < q) closes ->
  (2 <= List.length data)%nat ->
  exists v, calculateVolatility sqrt data 20 = Fin v /\ 0 <= v.
Proof.
  intros [Hsqrt _] Hcloses Hpos Hlen. unfold calculateVolatility. cbv zeta.
  rewrite Hcloses, <- map_rev.
  destruct (returns_of_series 20 (rev closes)) as (rs & -> & Hne).
  { apply Forall_rev, Hpos. }
  assert (rs <> []) as Hrs.
  { apply Hne; [lia|].
    rewrite length_rev, <- (length_map Fin), <- Hcloses, length_map. exact Hlen. }
  assert (0 < List.length (map Fin rs))%nat as Hcount
      by (destruct rs; [congruence|simpl; lia]).
  destruct (sum_series rs) as (total & -> & _).
  rewrite (div_by_count total _ Hcount). unfold fin.
  destruct (squared_deviations_nonneg
              (Qred (total / inject_Z (Z.of_nat (List.length (map Fin rs)))))
              rs 0 (Qle_refl 0)) as (squares & -> & Hsquares).
  rewrite (div_by_count squares _ Hcount). unfold fin.
  apply Hsqrt. rewrite Qred_correct.
  apply Qle_shift_div_l; [now apply length_positive|]. lra.
Qed.

Lemma quoted_is_positive (closes : list Q) :
  Forall Magnitude.quoted closes -> Forall (fun q => 0 < q) closes.
Proof.
  apply Forall_impl. unfold Magnitude.quoted. intros q H. lra.
Qed.

(** X11.  The volatility of fewer than two bars is the square root of NaN;
    from two bars on, with closes between 0.001 and 10^9 and a sound square
    root, it is a non-negative number. *)
Theorem volatility_needs_two_bars :
  (forall (sqrt : num -> num) (data : list Bar.t),
      (List.length data <= 1)%nat ->
      calculateVolatility sqrt data 20 = sqrt NaN)
  /\ (forall (sqrt : num -> num) (data : list Bar.t) (closes : list Q),
         sqrt_sound sqrt ->
         map Bar.close data = map Fin closes ->
         Forall Magnitude.quoted closes ->
         (2 <= List.length data)%nat ->
         exists v, calculateVolatility sqrt data 20 = Fin v /\ 0 <= v).
Proof.
  split.
  - intros sqrt [|b [|c rest]] H; [reflexivity|reflexivity|simpl in H; lia].
  - intros sqrt data closes Hsqrt Hcloses Hquoted Hlen.
    apply (calculateVolatility_defined sqrt data closes Hsqrt Hcloses);
      [now apply quoted_is_positive|exact Hlen].
Qed.

Lemma volatility_needs_two_bars_witness :
  exists v,
    calculateVolatility sqrt_truncated Samples.three_bars 20 = Fin v
    /\ 0 <= v.
Proof.
  apply (proj2 volatility_needs_two_bars sqrt_truncated Samples.three_bars
           [100; 110; 99]).
  - exact sqrt_truncated_sound.
  - reflexivity.
  - repeat constructor; vm_compute; discriminate.
  - simpl. lia.
Defined.

Lemma last_is_member {A} (l : list A) (d : A) :
  l <> [] -> In (List.last l d) l.
Proof.
  induction l as [|a [|b l] IH]; intros Hne;
    [congruence|now left|right; apply IH; discriminate].
Qed.

Lemma last_of_map {A B} (f : A -> B) (l : list A) (d : A) :
  List.last (map f l) (f d) = f (List.last l d).
Proof.
  induction l as [|a [|b l] IH]; [reflexivity|reflexivity|exact IH].
Qed.

Lemma generateStructuredSignal_on_valid_window :
  forall (sqrt : num -> num) (data : list Bar.t) (closes : list Q),
    sqrt_sound sqrt ->
    map Bar.close data = map Fin closes ->
    Forall (fun q => 0 < q) closes ->
    (2 <= List.length data)%nat ->
    exists structured low high target stopLoss,
      generateStructuredSignal sqrt data = Ok structured
      /\ within 50 95 (Structured.confidence structured)
      /\ Structured.entryZone structured = (Fin low, Fin high)
      /\ Structured.target structured = Fin target
      /\ Structured.stopLoss structured = Fin stopLoss
      /\ match Structured.signal structured with
         | BUY => stopLoss <= low /\ low <= high /\ high <= target
         | SELL => target <= low /\ low <= high /\ high <= stopLoss
         | HOLD => low <= target /\ target <= high /\ stopLoss = target
         end.
Proof.
  intros sqrt data closes Hsqrt Hcloses Hpos Hlen.
  assert (data <> []) as Hne by (destruct data; [simpl in Hlen; lia|discriminate]).
  destruct (calculateVolatility_defined sqrt data closes Hsqrt Hcloses Hpos Hlen)
    as (v & Hv & Hvpos).
  destruct data as [|b rest]; [congruence|].
  destruct closes as [|first others]; [discriminate|].
  assert (Bar.close (List.last (b :: rest) b)
          = Fin (List.last (first :: others) first)) as Hlast.
  { rewrite <- last_of_map, Hcloses. apply last_of_series. }
  assert (0 <= List.last (first :: others) first) as Hprice.
  { apply Qlt_le_weak.
    assert (In (List.last (first :: others) first) (first :: others)) as Hin
        by (apply last_is_member; discriminate).
    rewrite Forall_forall in Hpos. now apply Hpos. }
  unfold generateStructuredSignal.
  destruct (EnhancedFacts.calculateTechnicalIndicators_nonempty sqrt
              (b :: rest) Hne) as [ind ->].
  cbn [bind].
  destruct (calculateEntryExitZones_ordered sqrt (b :: rest)
              (analyzeSignal ind) b _ v Hne Hlast Hprice Hv Hvpos)
    as (low & high & target & stopLoss & -> & Horder).
  cbn [bind]. eexists _, low, high, target, stopLoss.
  split; [reflexivity|].
  cbn [Structured.confidence Structured.entryZone Structured.target
         Structured.stopLoss Structured.signal Zones.entry Zones.target
         Zones.stopLoss].
  split; [|repeat split; exact Horder].
  apply (confidencePct_within 50 95).
  eapply within_weaken; [| |apply EnhancedFacts.dynamic_confidence_floor];
    unfold Qle; simpl; lia.
Qed.

(** X12.  On every window of at least two bars with closes between 0.001
    and 10^9 the engine returns a decision: its confidence lies in [50, 95]
    and its levels are numbers in the order that goes with its signal. *)
Theorem decision_on_valid_window :
  forall (sqrt : num -> num) (data : list Bar.t) (closes : list Q),
    sqrt_sound sqrt ->
    map Bar.close data = map Fin closes ->
    Forall Magnitude.quoted closes ->
    (2 <= List.length data)%nat ->
    exists structured low high target stopLoss,
      generateStructuredSignal sqrt data = Ok structured
      /\ within 50 95 (Structured.confidence structured)
      /\ Structured.entryZone structured = (Fin low, Fin high)
      /\ Structured.target structured = Fin target
      /\ Structured.stopLoss structured = Fin stopLoss
      /\ match Structured.signal structured with
         | BUY => stopLoss <= low /\ low <= high /\ high <= target
         | SELL => target <= low /\ low <= high /\ high <= stopLoss
         | HOLD => low <= target /\ target <= high /\ stopLoss = target
         end.
Proof.
  intros sqrt data closes Hsqrt Hcloses Hquoted Hlen.
  apply (generateStructuredSignal_on_valid_window sqrt data closes
           Hsqrt Hcloses); [now apply quoted_is_positive|exact Hlen].
Qed.

Lemma decision_on_valid_window_witness :
  exists structured low high target stopLoss,
    generateStructuredSignal sqrt_truncated Samples.three_bars = Ok structured
    /\ within 50 95 (Structured.confidence structured)
    /\ Structured.entryZone structured = (Fin low, Fin high)
    /\ Structured.target structured = Fin target
    /\ Structured.stopLoss structured = Fin stopLoss
    /\ match Structured.signal structured with
       | BUY => stopLoss <= low /\ low <= high /\ high <= target
       | SELL => target <= low /\ low <= high /\ high <= stopLoss
       | HOLD => low <= target /\ target <= high /\ stopLoss = target
       end.
Proof.
  apply (decision_on_valid_window sqrt_truncated Samples.three_bars
           [100; 110; 99]).
  - exact sqrt_truncated_sound.
  - reflexivity.
  - repeat constructor; vm_compute; discriminate.
  - simpl. lia.
Defined.

End SignalFacts.

(** * The stochastic oscillator *)

Module OscillatorFacts.
Import JS NumFacts SeriesFacts EnhancedTradingEngine.

Lemma fold_min_series (qs : list Q) (a : Q) :
  exists m,
    fold_left min (map Fin qs) (Fin a) = Fin m
    /\ m <= a /\ Forall (fun q => m <= q) qs.
Proof.
  revert a. induction qs as [|q qs IH]; intros a.
  - exists a. split; [reflexivity|]. split; [lra|constructor].
  - cbn [map fold_left]. change (min (Fin a) (Fin q))
      with (if Qltb q a then Fin q else Fin a).
    destruct (Qltb q a) eqn:E.
    + apply Qltb_true in E. destruct (IH q) as (m & -> & Hm & Hall).
      exists m. split; [reflexivity|]. split; [lra|]. now constructor.
    + apply Qltb_false in E. destruct (IH a) as (m & -> & Hm & Hall).
      exists m. split; [reflexivity|]. split; [lra|].
      constructor; [lra|exact Hall].
Qed.

Lemma fold_max_series (qs : list Q) (a : Q) :
  exists m,
    fold_left max (map Fin qs) (Fin a) = Fin m
    /\ a <= m /\ Forall (fun q => q <= m) qs.
Proof.
  revert a. induction qs as [|q qs IH]; intros a.
  - exists a. split; [reflexivity|]. split; [lra|constructor].
  - cbn [map fold_left]. change (max (Fin a) (Fin q))
      with (if Qltb a q then Fin q else Fin a).
    destruct (Qltb a q) eqn:E.
    + apply Qltb_true in E. destruct (IH q) as (m & -> & Hm & Hall).
      exists m. split; [reflexivity|]. split; [lra|]. now constructor.
    + apply Qltb_false in E. destruct (IH a) as (m & -> & Hm & Hall).
      exists m. split; [reflexivity|]. split; [lra|].
      constructor; [lra|exact Hall].
Qed.

(** The lowest of a non-empty series of numbers is a number below each of
    them. *)
Lemma min_list_series (qs : list Q) :
  qs <> [] ->
  exists m, min_list (map Fin qs) = Fin m /\ Forall (fun q => m <= q) qs.
Proof.
  destruct qs as [|q qs]; [congruence|]. intros _.
  unfold min_list. cbn [map fold_left].
  change (min PInf (Fin q)) with (Fin q).
  destruct (fold_min_series qs q) as (m & -> & Hm & Hall).
  exists m. split; [reflexivity|]. now constructor.
Qed.

Lemma max_list_series (qs : list Q) :
  qs <> [] ->
  exists m, max_list (map Fin qs) = Fin m /\ Forall (fun q => q <= m) qs.
Proof.
  destruct qs as [|q qs]; [congruence|]. intros _.
  unfold max_list. cbn [map fold_left].
  change (max NInf (Fin q)) with (Fin q).
  destruct (fold_max_series qs q) as (m & -> & Hm & Hall).
  exists m. split; [reflexivity|]. now constructor.
Qed.

Lemma In_series (q : Q) (qs : list Q) : In (Fin q) (map Fin qs) -> In q qs.
Proof.
  intros H. apply in_map_iff in H. destruct H as (x & [= ->] & H). exact H.
Qed.

(** The lowest low and the highest high of a non-empty window of
    well-formed bars bracket every bar of the window. *)
Lemma window_range (bars : list Bar.t) :
  bars <> [] -> Forall well_formed bars ->
  exists lowest highest,
    min_list (map Bar.low bars) = Fin lowest
    /\ max_list (map Bar.high bars) = Fin highest
    /\ forall bar low high,
        In bar bars -> Bar.low bar = Fin low -> Bar.high bar = Fin high ->
        lowest <= low /\ high <= highest.
Proof.
  intros Hne Hall.
  assert (Forall is_finite (map Bar.low bars)) as Hlows.
  { apply Forall_map. eapply Forall_impl; [|exact Hall].
    intros bar (l & c & h & -> & _). exact I. }
  assert (Forall is_finite (map Bar.high bars)) as Hhighs.
  { apply Forall_map. eapply Forall_impl; [|exact Hall].
    intros bar (l & c & h & _ & _ & -> & _). exact I. }
  destruct (finite_series _ Hlows) as [lows Elows].
  destruct (finite_series _ Hhighs) as [highs Ehighs].
  assert (lows <> []) as Hl
      by (intros ->; destruct bars; [congruence|discriminate]).
  assert (highs <> []) as Hh
      by (intros ->; destruct bars; [congruence|discriminate]).
  destruct (min_list_series lows Hl) as (lowest & Hmin & Hlowest).
  destruct (max_list_series highs Hh) as (highest & Hmax & Hhighest).
  exists lowest, highest. rewrite Elows, Ehighs.
  split; [exact Hmin|]. split; [exact Hmax|].
  intros bar low high Hin Hlow Hhigh.
  rewrite Forall_forall in Hlowest, Hhighest. split.
  - apply Hlowest, In_series. rewrite <- Elows, <- Hlow. now apply in_map.
  - apply Hhighest, In_series. rewrite <- Ehighs, <- Hhigh. now apply in_map.
Qed.

Lemma last_of_append {A} (older newer : list A) (d : A) :
  newer <> [] -> List.last (older ++ newer) d = List.last newer d.
Proof.
  intros Hne. induction older as [|x older IH]; [reflexivity|].
  cbn [app]. destruct (older ++ newer) eqn:E; [|exact IH].
  apply app_eq_nil in E. destruct E as [_ ->]. congruence.
Qed.

Lemma last_of_slice_last {A} (n : nat) (xs : list A) (d : A) :
  xs <> [] -> List.last (slice_last n xs) d = List.last xs d.
Proof.
  intros Hne. destruct (slice_last_suffix n xs) as [older E].
  pose proof (slice_last_nonempty n xs Hne) as Hslice.
  rewrite E at 2. now rewrite last_of_append.
Qed.

(** X24.  On a non-empty series of well-formed bars
    (0 <= low <= close <= high) whose window holds a bar with low < high,
    and for every period, the stochastic oscillator is a number between 0
    and 100. *)
Theorem stochastic_between_0_and_100 :
  forall (data : list Bar.t) (period : nat),
    data <> [] ->
    Forall well_formed data ->
    Exists has_range (slice_last period data) ->
    exists k, calculateStochastic data period = Ok (Fin k) /\ 0 <= k <= 100.
Proof.
  intros data period Hne Hall Hrange. unfold calculateStochastic. cbv zeta.
  destruct data as [|first rest]; [congruence|].
  pose proof (slice_last_nonempty period _ Hne) as Hslice.
  pose proof (Forall_slice_last well_formed period _ Hall) as Hwindow.
  destruct (window_range _ Hslice Hwindow)
    as (lowest & highest & -> & -> & Hbracket).
  assert (In (List.last (first :: rest) first) (slice_last period (first :: rest)))
    as Hlast.
  { rewrite <- (last_of_slice_last period (first :: rest) first Hne).
    now apply SignalFacts.last_is_member. }
  pose proof Hlast as Hbar. rewrite Forall_forall in Hwindow.
  apply Hwindow in Hbar. destruct Hbar as (l & c & h & Hl & Hc & Hh & Hlch).
  destruct (Hbracket _ l h Hlast Hl Hh) as [H1 H2].
  apply Exists_exists in Hrange.
  destruct Hrange as (wide & Hin & Hwide).
  destruct (Hwindow wide Hin) as (wl & wc & wh & Hwl & _ & Hwh & _).
  unfold has_range in Hwide. rewrite Hwl, Hwh in Hwide.
  apply Qltb_true in Hwide.
  destruct (Hbracket _ wl wh Hin Hwl Hwh) as [H3 H4].
  rewrite Hc.
  change (sub (Fin c) (Fin lowest)) with (Fin (Qred (c + Qred (- lowest)))).
  change (sub (Fin highest) (Fin lowest))
    with (Fin (Qred (highest + Qred (- lowest)))).
  rewrite IndicatorFacts.div_nonzero by (rewrite !Qred_correct; lra).
  eexists. split; [reflexivity|]. rewrite !Qred_correct.
  assert (0 < highest + - lowest) as Hpos by lra.
  assert (0 <= (c + - lowest) / (highest + - lowest) <= 1) as [Hq0 Hq1].
  { split.
    - apply Qle_shift_div_l; [exact Hpos|]. lra.
    - apply Qle_shift_div_r; [exact Hpos|]. lra. }
  revert Hq0 Hq1. generalize ((c + - lowest) / (highest + - lowest)).
  intros ratio Hq0 Hq1. lra.
Qed.

Lemma stochastic_between_0_and_100_witness :
  exists k,
    calculateStochastic Samples.three_bars 14 = Ok (Fin k) /\ 0 <= k <= 100.
Proof.
  apply (stochastic_between_0_and_100 Samples.three_bars 14).
  - discriminate.
  - repeat constructor.
    + exists 99, 100, 101. repeat split; try reflexivity; lra.
    + exists 100, 110, 111. repeat split; try reflexivity; lra.
    + exists 98, 99, 110. repeat split; try reflexivity; lra.
  - apply Exists_cons_hd. reflexivity.
Defined.

End OscillatorFacts.

(** * The dual-source engine: scores, history and failures *)

Module DualSourceFacts.
Import JS NumFacts SeriesFacts SmartDecisionEngine.

Lemma record_entry_counted k kind value agree factor (b c : Q) t :
  0 <= b -> 0 <= c -> b + c <= 1 -> (List.length factor <= 1)%nat ->
  tally_counted k t ->
  tally_counted (S k)
    (record_entry kind value agree factor (Fin b) (Fin c) t).
Proof.
  intros Hb Hc Hbc Hf (B & C & HB & HC & H1 & H2 & H3 & H4 & H5 & H6 & H7).
  unfold tally_counted, record_entry.
  cbn [Tally.bullishCount Tally.bearishCount Tally.totalSignals
         Tally.agreementCount Tally.signals Tally.factors].
  rewrite HB, HC. exists (Qred (B + b)), (Qred (C + c)).
  split; [reflexivity|]. split; [reflexivity|].
  rewrite !Qred_correct, Nat2Z.inj_succ. unfold Z.succ.
  rewrite inject_Z_plus, !length_app. change (inject_Z 1) with 1.
  cbn [List.length].
  split; [lra|]. split; [lra|]. split; [lra|].
  split; [destruct agree; lia|]. split; [lia|]. split; lia.
Qed.

Lemma tally_counted_later k t : tally_counted k t -> tally_counted (S k) t.
Proof.
  intros (B & C & HB & HC & H1 & H2 & H3 & H4 & H5 & H6 & H7).
  exists B, C. repeat (split; [assumption|]). lia.
Qed.

Ltac analysis_counted f :=
  intros; unfold f; cbv zeta;
  repeat match goal with
         | |- context [if ?b then _ else _] => destruct b
         end;
  (apply record_entry_counted; [lra|lra|lra|simpl; lia|assumption]).

Lemma rsiAnalysis_counted k market pocket t :
  tally_counted k t -> tally_counted (S k) (rsiAnalysis market pocket t).
Proof. analysis_counted rsiAnalysis. Qed.

Lemma macdAnalysis_counted k market pocket t :
  tally_counted k t -> tally_counted (S k) (macdAnalysis market pocket t).
Proof. analysis_counted macdAnalysis. Qed.

Lemma smaAnalysis_counted k market pocket t :
  tally_counted k t -> tally_counted (S k) (smaAnalysis market pocket t).
Proof. analysis_counted smaAnalysis. Qed.

(** A guarded block takes a tally from one invariant to the next when both
    its analysis and skipping it do. *)
Lemma when_both_advances (before after : Tally.t -> Prop)
  p name m q analysis t t' :
  (forall a b u, before u -> after (analysis a b u)) ->
  (forall u, before u -> after u) ->
  before t -> when_both p name m q analysis t = Ok t' -> after t'.
Proof.
  intros Hstep Hskip Ht. unfold when_both, both_present.
  destruct m as [m|]; cbn [read bind]; [|discriminate].
  destruct (truthy (p m)); cbn [bind].
  - destruct q as [q|]; cbn [read bind]; [|discriminate].
    destruct (truthy (p q)); intros [= <-]; auto.
  - intros [= <-]; auto.
Qed.

Lemma ratio_of_counts (a n : nat) :
  (a <= n)%nat -> (0 < n)%nat -> within 0 1 (div (of_nat a) (of_nat n)).
Proof.
  intros Han Hn. change (of_nat a) with (Fin (inject_Z (Z.of_nat a))).
  rewrite (div_by_count _ _ Hn). apply within_fin.
  pose proof (length_positive n Hn) as Hpos.
  assert (0 <= inject_Z (Z.of_nat a)) as H0
      by (change 0 with (inject_Z 0); rewrite <- Zle_Qle; lia).
  assert (inject_Z (Z.of_nat a) <= inject_Z (Z.of_nat n)) as H1
      by (rewrite <- Zle_Qle; lia).
  split.
  - apply Qle_shift_div_l; [exact Hpos|]. lra.
  - apply Qle_shift_div_r; [exact Hpos|]. lra.
Qed.

(** What the analysis of the indicators returns, whenever it returns. *)
Lemma analyzeTechnicalSignals_counted m q signals :
  analyzeTechnicalSignals m q = Ok signals ->
  (exists bullish bearish,
      Signals.bullishCount signals = Fin bullish
      /\ Signals.bearishCount signals = Fin bearish
      /\ 0 <= bullish /\ 0 <= bearish
      /\ bullish + bearish
         <= inject_Z (Z.of_nat (Signals.totalSignals signals)))
  /\ within 0 1 (Signals.agreement signals)
  /\ List.length (Signals.signals signals) = Signals.totalSignals signals
  /\ (List.length (Signals.factors signals)
      <= Signals.totalSignals signals)%nat
  /\ (Signals.totalSignals signals <= 3)%nat.
Proof.
  unfold analyzeTechnicalSignals. cbv zeta.
  destruct (when_both Indicators.rsi _ _ _ _ _) as [t1|] eqn:E1;
    cbn [bind]; [|discriminate].
  destruct (when_both Indicators.macd _ _ _ _ _) as [t2|] eqn:E2;
    cbn [bind]; [|discriminate].
  destruct (when_both Indicators.sma20 _ _ _ _ _) as [t3|] eqn:E3;
    cbn [bind]; [|discriminate].
  intros [= <-].
  cbn [Signals.bullishCount Signals.bearishCount Signals.agreement
         Signals.signals Signals.factors Signals.totalSignals].
  assert (tally_counted 3 t3)
    as (B & C & HB & HC & H1 & H2 & H3 & H4 & H5 & H6 & H7).
  { apply (when_both_advances (tally_counted 2) (tally_counted 3)
             _ _ _ _ _ _ _ (smaAnalysis_counted 2) (tally_counted_later 2))
      with (2 := E3).
    apply (when_both_advances (tally_counted 1) (tally_counted 2)
             _ _ _ _ _ _ _ (macdAnalysis_counted 1) (tally_counted_later 1))
      with (2 := E2).
    apply (when_both_advances (tally_counted 0) (tally_counted 1)
             _ _ _ _ _ _ _ (rsiAnalysis_counted 0) (tally_counted_later 0))
      with (2 := E1).
    exists 0, 0. cbn [Tally.bullishCount Tally.bearishCount
                        Tally.totalSignals Tally.agreementCount
                        Tally.signals Tally.factors List.length].
    repeat split; try reflexivity; try lia; try (change (0 <= 0); lra). }
  split; [exists B, C; repeat (split; [assumption|]); assumption|].
  split; [|repeat split; assumption].
  destruct (0 <? Tally.totalSignals t3)%nat eqn:E.
  - apply Nat.ltb_lt in E.
    change (within 0 1 (div (of_nat (Tally.agreementCount t3))
                            (of_nat (Tally.totalSignals t3)))).
    now apply ratio_of_counts.
  - change (0 <= 0 <= 1). lra.
Qed.

Lemma calculateSignalStrength_within signals (bullish bearish : Q) :
  Signals.bullishCount signals = Fin bullish ->
  Signals.bearishCount signals = Fin bearish ->
  0 <= bullish -> 0 <= bearish ->
  bullish + bearish <= inject_Z (Z.of_nat (Signals.totalSignals signals)) ->
  within (-1) 1 (calculateSignalStrength signals).
Proof.
  intros HB HC Hb Hc Hbc. unfold calculateSignalStrength. cbv zeta.
  rewrite HB, HC.
  change (sub (Fin bullish) (Fin bearish))
    with (Fin (Qred (bullish + Qred (- bearish)))).
  destruct (Signals.totalSignals signals) as [|n] eqn:En.
  - change (inject_Z (Z.of_nat 0)) with 0 in Hbc.
    rewrite IndicatorFacts.div_nonzero by discriminate. apply within_fin. rewrite !Qred_correct.
    unfold Qdiv. setoid_replace (/ 1) with 1 by reflexivity. lra.
  - assert (0 < S n)%nat as Hn by lia.
    rewrite (div_by_count _ _ Hn). apply within_fin.
    pose proof (length_positive _ Hn) as Hpos. rewrite !Qred_correct.
    split.
    + apply Qle_shift_div_l; [exact Hpos|]. lra.
    + apply Qle_shift_div_r; [exact Hpos|]. lra.
Qed.

Lemma abs_of_fraction (x : num) : within (-1) 1 x -> within 0 1 (abs x).
Proof.
  destruct x as [q| | |]; simpl; try tauto. intros [H1 H2].
  rewrite Qred_correct. split; [apply Qabs_nonneg|].
  apply Qabs_Qle_condition. lra.
Qed.

(** X13.  Every signal the dual-source engine returns, whatever it was
    given, reports an agreement and a signal strength in [0, 1], and at
    most three factors: as many as it lists. *)
Theorem returned_scores_are_fractions :
  forall now engine symbol marketData pocketOptionData signal engine',
    generateIntelligentSignal now engine symbol marketData pocketOptionData
    = Ok (signal, engine') ->
    within 0 1 (Signal.agreement signal)
    /\ within 0 1 (Signal.signalStrength signal)
    /\ (Signal.factorsConsidered signal <= 3)%nat
    /\ Signal.factorsConsidered signal
       = List.length (Signal.technicalFactors signal).
Proof.
  assert (within 0 1 (Fin 0)) as Hzero by (change (0 <= 0 <= 1); lra).
  intros now engine symbol [market|] [pocket|] signal engine';
    unfold generateIntelligentSignal;
    try (intros [= <- <-];
         cbn [createNeutralSignal Signal.agreement Signal.signalStrength
                Signal.factorsConsidered Signal.technicalFactors List.length];
         repeat split; try exact (proj1 Hzero); try exact (proj2 Hzero); lia).
  destruct (analyzeTechnicalSignals _ _) as [signals|] eqn:Hs;
    cbn [bind]; [|discriminate].
  intros [= <- <-].
  cbn [Signal.agreement Signal.signalStrength Signal.factorsConsidered
         Signal.technicalFactors].
  destruct (analyzeTechnicalSignals_counted _ _ _ Hs)
    as ((B & C & HB & HC & Hb & Hc & Hbc) & Ha & _ & Hf & Hn).
  split; [exact Ha|]. split; [|split; [lia|reflexivity]].
  apply abs_of_fraction.
  now apply (calculateSignalStrength_within signals B C).
Qed.

Lemma returned_scores_are_fractions_witness :
  exists signal engine',
    generateIntelligentSignal 0 constructor "AAPL"
      (Some Samples.oversold_market) (Some Samples.oversold_pocket)
    = Ok (signal, engine')
    /\ within 0 1 (Signal.agreement signal)
    /\ within 0 1 (Signal.signalStrength signal)
    /\ (Signal.factorsConsidered signal <= 3)%nat
    /\ Signal.factorsConsidered signal
       = List.length (Signal.technicalFactors signal).
Proof.
  eexists _, _. split; [reflexivity|].
  eapply (returned_scores_are_fractions 0%Z constructor "AAPL"
            (Some Samples.oversold_market) (Some Samples.oversold_pocket)).
  reflexivity.
Defined.

(** On finite, valid input the confidence returned is clamped. *)
Lemma returned_confidence_within
  now engine symbol marketData pocketOptionData signal engine' :
  valid_input marketData pocketOptionData ->
  generateIntelligentSignal now engine symbol marketData pocketOptionData
  = Ok (signal, engine') ->
  within 0.1 0.95 (Signal.confidence signal).
Proof.
  destruct marketData as [market|], pocketOptionData as [pocket|];
    unfold generateIntelligentSignal; intros Hvalid;
    try (intros [= <- <-]; cbn [createNeutralSignal Signal.confidence];
         simpl; lra).
  destruct Hvalid as ((mp & Hmp & Hnz) & (pp & Hpp) & _ & _).
  rewrite Hmp, Hpp.
  destruct (analyzeTechnicalSignals _ _) as [signals|] eqn:Hs;
    cbn [bind toNumber]; [|discriminate].
  intros [= <- <-].
  destruct (SmartFacts.analyzeTechnicalSignals_finite _ _ _ Hs)
    as (Hb & Hc & Ha).
  pose proof (SmartFacts.priceDiscrepancy_finite mp pp Hnz) as Hd.
  assert (within 0.1 0.95
            (calculateFinalConfidence
               (max (Fin 0.3)
                  (sub (Fin 1)
                     (mul (div (abs (sub (Fin mp) (Fin pp))) (Fin mp))
                          (Fin 5))))
               (calculateSignalStrength signals)
               (Signals.agreement signals)
               (div (abs (sub (Fin mp) (Fin pp))) (Fin mp)))) as H.
  { apply SmartFacts.calculateFinalConfidence_within; try assumption.
    - apply max_finite; [exact I|]. apply sub_finite; [exact I|].
      apply mul_finite; [assumption|exact I].
    - now apply SmartFacts.calculateSignalStrength_finite. }
  exact H.
Qed.

(** A call with both sources pushes the signal it returns and then
    refreshes the metrics. *)
Lemma call_appends now engine symbol market pocket signal engine' :
  generateIntelligentSignal now engine symbol (Some market) (Some pocket)
  = Ok (signal, engine') ->
  engine'
  = updatePerformanceMetrics
      {| Engine.signalHistory := Engine.signalHistory engine ++ [signal];
         Engine.performanceMetrics := Engine.performanceMetrics engine |}.
Proof.
  unfold generateIntelligentSignal.
  destruct (analyzeTechnicalSignals _ _) as [signals|];
    cbn [bind]; [|discriminate].
  now intros [= <- <-].
Qed.

Lemma rounded_average_within (average : num) :
  within 0.1 0.95 average ->
  within 0.1 0.95 (div (round (mul average (Fin 100))) (Fin 100)).
Proof.
  intros H. apply SmartFacts.confidence_percentage in H.
  change (round (mul average (Fin 100))) with (confidencePct average).
  destruct (confidencePct average) as [q| | |]; simpl in H; try tauto.
  rewrite IndicatorFacts.div_nonzero by discriminate. apply within_fin.
  change (inject_Z 10) with 10 in H. change (inject_Z 95) with 95 in H.
  unfold Qdiv. setoid_replace (/ 100) with (1 # 100) by reflexivity. lra.
Qed.

Lemma engine_invariant (engine : Engine.t) :
  reachable engine ->
  history_clamped engine
  /\ Metrics.totalSignals (Engine.performanceMetrics engine)
     = List.length (Engine.signalHistory engine)
  /\ Metrics.accuracy (Engine.performanceMetrics engine) = Fin 0
  /\ (Engine.signalHistory engine = [] ->
      Metrics.avgConfidence (Engine.performanceMetrics engine) = Fin 0)
  /\ (Engine.signalHistory engine <> [] ->
      within 0.1 0.95
        (Metrics.avgConfidence (Engine.performanceMetrics engine))).
Proof.
  induction 1 as [|now engine symbol marketData pocketOptionData signal
                   engine' _ IH Hvalid Hcall].
  - split; [constructor|]. split; [reflexivity|]. split; [reflexivity|].
    split; [reflexivity|]. intros H. now elim H.
  - pose proof (returned_confidence_within _ _ _ _ _ _ _ Hvalid Hcall)
      as Hconfidence.
    destruct marketData as [market|];
      [|cbn in Hcall; injection Hcall as _ <-; exact IH].
    destruct pocketOptionData as [pocket|];
      [|cbn in Hcall; injection Hcall as _ <-; exact IH].
    apply call_appends in Hcall. subst engine'.
    destruct IH as (Hclamped & _ & Haccuracy & _ & _).
    assert (Forall (fun signal => within 0.1 0.95 (Signal.confidence signal))
                   (Engine.signalHistory engine ++ [signal])) as Hall.
    { apply Forall_app. split; [exact Hclamped|]. now constructor. }
    unfold history_clamped, updatePerformanceMetrics.
    cbn [Engine.signalHistory Engine.performanceMetrics Metrics.totalSignals
           Metrics.accuracy Metrics.avgConfidence].
    split; [exact Hall|]. split; [reflexivity|]. split; [exact Haccuracy|].
    split; [intros E; now destruct (Engine.signalHistory engine)|].
    intros _.
    assert ((0 <? List.length (Engine.signalHistory engine ++ [signal]))%nat
            = true) as ->
        by (apply Nat.ltb_lt; rewrite length_app; simpl; lia).
    rewrite <- (length_map Signal.confidence).
    apply mean_within.
    + destruct (Engine.signalHistory engine); discriminate.
    + apply Forall_map. exact Hall.
Qed.

(** X14.  Every state an instance reaches through calls on finite, valid
    input keeps: each recorded confidence lies in [0.1, 0.95]; the metric
    [totalSignals] is the length of the history; [accuracy] is still 0; the
    average confidence is 0 while the history is empty, and the average
    confidence that [getPerformanceMetrics] reports, rounded to two
    decimals, lies in [0.1, 0.95] afterwards. *)
Theorem engine_keeps_its_metrics :
  forall engine : Engine.t,
    reachable engine ->
    history_clamped engine
    /\ Metrics.totalSignals (getPerformanceMetrics engine)
       = List.length (Engine.signalHistory engine)
    /\ Metrics.accuracy (getPerformanceMetrics engine) = Fin 0
    /\ (Engine.signalHistory engine = [] ->
        Metrics.avgConfidence (Engine.performanceMetrics engine) = Fin 0
        /\ Metrics.avgConfidence (getPerformanceMetrics engine) = Fin 0)
    /\ (Engine.signalHistory engine <> [] ->
        within 0.1 0.95
          (Metrics.avgConfidence (getPerformanceMetrics engine))).
Proof.
  intros engine Hreach.
  destruct (engine_invariant engine Hreach) as (H1 & H2 & H3 & H4 & H5).
  unfold getPerformanceMetrics.
  cbn [Metrics.totalSignals Metrics.accuracy Metrics.avgConfidence].
  split; [exact H1|]. split; [exact H2|]. split; [exact H3|].
  split.
  - intros E. rewrite (H4 E). split; reflexivity.
  - intros E. apply rounded_average_within, H5, E.
Qed.

Lemma engine_keeps_its_metrics_witness :
  exists signal engine,
    generateIntelligentSignal 0 constructor "AAPL"
      (Some Samples.oversold_market) (Some Samples.oversold_pocket)
    = Ok (signal, engine)
    /\ history_clamped engine
    /\ Metrics.totalSignals (getPerformanceMetrics engine)
       = List.length (Engine.signalHistory engine)
    /\ Metrics.accuracy (getPerformanceMetrics engine) = Fin 0
    /\ (Engine.signalHistory engine = [] ->
        Metrics.avgConfidence (Engine.performanceMetrics engine) = Fin 0
        /\ Metrics.avgConfidence (getPerformanceMetrics engine) = Fin 0)
    /\ (Engine.signalHistory engine <> [] ->
        within 0.1 0.95
          (Metrics.avgConfidence (getPerformanceMetrics engine))).
Proof.
  eexists _, _. split; [reflexivity|].
  apply engine_keeps_its_metrics.
  eapply (reachable_call 0%Z constructor "AAPL"
            (Some Samples.oversold_market) (Some Samples.oversold_pocket)).
  - exact reachable_new.
  - simpl. repeat split; try discriminate.
    + exists 100. split; [reflexivity|discriminate].
    + exists 100.5. reflexivity.
  - reflexivity.
Defined.

(** X15.  [getSignalHistory] returns the newest end of the history: a
    suffix of it, of [limit] signals or of all of them when there are
    fewer; a limit of 0 returns the whole history. *)
Theorem recent_history_is_the_newest_end :
  forall (engine : Engine.t) (limit : nat),
    (exists older,
        Engine.signalHistory engine = older ++ getSignalHistory engine limit)
    /\ List.length (getSignalHistory engine (S limit))
       = Nat.min (S limit) (List.length (Engine.signalHistory engine))
    /\ getSignalHistory engine 0 = Engine.signalHistory engine.
Proof.
  intros engine limit. unfold getSignalHistory.
  split; [apply slice_last_suffix|].
  split; [apply slice_last_length; lia|reflexivity].
Qed.

Lemma truthy_only_truthy (v : value) : truthy (only_truthy v) = truthy v.
Proof. unfold only_truthy. destruct (truthy v) eqn:E; [exact E|reflexivity]. Qed.

Lemma toNumber_only_truthy (v : value) :
  truthy v = true -> only_truthy v = v.
Proof. unfold only_truthy. now intros ->. Qed.

Lemma or_zero_only_truthy (v : value) : or_zero (only_truthy v) = or_zero v.
Proof.
  unfold or_zero. rewrite truthy_only_truthy. unfold only_truthy.
  now destruct (truthy v).
Qed.

(** With both objects there a guarded block is a plain conditional. *)
Lemma when_both_there p name m q analysis t :
  when_both p name (Some m) (Some q) analysis t
  = Ok (if truthy (p m) && truthy (p q) then analysis m q t else t).
Proof.
  unfold when_both, both_present. cbn [read bind].
  destruct (truthy (p m)); cbn [bind andb]; [|reflexivity].
  now destruct (truthy (p q)).
Qed.

Lemma rsi_block_ignores_falsy m q t :
  (if truthy (Indicators.rsi (without_falsy m))
      && truthy (Indicators.rsi (without_falsy q))
   then rsiAnalysis (without_falsy m) (without_falsy q) t else t)
  = (if truthy (Indicators.rsi m) && truthy (Indicators.rsi q)
     then rsiAnalysis m q t else t).
Proof.
  cbn [without_falsy Indicators.rsi]. rewrite !truthy_only_truthy.
  destruct (truthy (Indicators.rsi m)) eqn:Em; [|reflexivity].
  destruct (truthy (Indicators.rsi q)) eqn:Eq; [|reflexivity].
  cbn [andb]. unfold rsiAnalysis. cbn [without_falsy Indicators.rsi].
  now rewrite !toNumber_only_truthy.
Qed.

Lemma macd_block_ignores_falsy m q t :
  (if truthy (Indicators.macd (without_falsy m))
      && truthy (Indicators.macd (without_falsy q))
   then macdAnalysis (without_falsy m) (without_falsy q) t else t)
  = (if truthy (Indicators.macd m) && truthy (Indicators.macd q)
     then macdAnalysis m q t else t).
Proof.
  cbn [without_falsy Indicators.macd]. rewrite !truthy_only_truthy.
  destruct (truthy (Indicators.macd m)) eqn:Em; [|reflexivity].
  destruct (truthy (Indicators.macd q)) eqn:Eq; [|reflexivity].
  cbn [andb]. unfold macdAnalysis. cbn [without_falsy Indicators.macd].
  now rewrite !toNumber_only_truthy.
Qed.

Lemma sma_block_ignores_falsy m q t :
  (if truthy (Indicators.sma20 (without_falsy m))
      && truthy (Indicators.sma20 (without_falsy q))
   then smaAnalysis (without_falsy m) (without_falsy q) t else t)
  = (if truthy (Indicators.sma20 m) && truthy (Indicators.sma20 q)
     then smaAnalysis m q t else t).
Proof.
  cbn [without_falsy Indicators.sma20]. rewrite !truthy_only_truthy.
  destruct (truthy (Indicators.sma20 m)) eqn:Em; [|reflexivity].
  destruct (truthy (Indicators.sma20 q)) eqn:Eq; [|reflexivity].
  cbn [andb]. unfold smaAnalysis.
  cbn [without_falsy Indicators.sma20 Indicators.currentPrice].
  now rewrite !or_zero_only_truthy, !toNumber_only_truthy.
Qed.

(** X16.  A reading that is 0 or NaN counts as a missing one: the analysis
    of two indicator objects is the analysis of the same objects with
    every falsy reading removed, so an indicator whose value is exactly 0
    in either source is left out of the signals and of the agreement. *)
Theorem falsy_readings_are_ignored :
  forall market pocket : Indicators.t,
    analyzeTechnicalSignals (Some (without_falsy market))
                            (Some (without_falsy pocket))
    = analyzeTechnicalSignals (Some market) (Some pocket).
Proof.
  intros m q. unfold analyzeTechnicalSignals. cbv zeta.
  rewrite !when_both_there. cbn [bind]. rewrite !when_both_there.
  cbn [bind]. rewrite !when_both_there. cbn [bind].
  now rewrite rsi_block_ignores_falsy, macd_block_ignores_falsy,
    sma_block_ignores_falsy.
Qed.

Lemma analysis_fails_without_market q :
  exists e, analyzeTechnicalSignals None q = Throw e.
Proof. eexists. reflexivity. Qed.

Lemma analysis_without_pocket m :
  if some_reading m
  then exists e, analyzeTechnicalSignals (Some m) None = Throw e
  else exists signals, analyzeTechnicalSignals (Some m) None = Ok signals.
Proof.
  unfold analyzeTechnicalSignals, when_both, both_present, some_reading.
  cbv zeta. cbn [read bind].
  destruct (truthy (Indicators.rsi m)); cbn [bind orb];
    [eexists; reflexivity|].
  destruct (truthy (Indicators.macd m)); cbn [bind orb];
    [eexists; reflexivity|].
  destruct (truthy (Indicators.sma20 m)); cbn [bind orb];
    eexists; reflexivity.
Qed.

(** X17.  With both sources given, the call fails with a TypeError exactly
    when the market source carries no indicator object, or the secondary
    source carries none while one of the market's RSI, MACD and SMA(20)
    readings is truthy. *)
Theorem type_error_exactly_without_indicators :
  forall now engine symbol market pocket,
    (exists e,
        generateIntelligentSignal now engine symbol
          (Some market) (Some pocket) = Throw e)
    <-> (MarketData.technicalIndicators market = None
         \/ (PocketOptionData.indicators pocket = None
             /\ exists indicators,
                 MarketData.technicalIndicators market = Some indicators
                 /\ some_reading indicators = true)).
Proof.
  intros now engine symbol market pocket.
  unfold generateIntelligentSignal. cbv zeta.
  destruct (MarketData.technicalIndicators market) as [m|].
  - destruct (PocketOptionData.indicators pocket) as [q|].
    + destruct (SmartFacts.analyzeTechnicalSignals_returns m q)
        as [signals ->].
      cbn [bind]. split.
      * intros [e H]. discriminate.
      * intros [H | [H _]]; discriminate.
    + pose proof (analysis_without_pocket m) as H.
      destruct (some_reading m) eqn:E.
      * destruct H as [e ->]. cbn [bind].
        split; [|intros _; eexists; reflexivity].
        intros _. right. split; [reflexivity|]. exists m. now split.
      * destruct H as [signals ->]. cbn [bind]. split.
        -- intros [e H]. discriminate.
        -- intros [H | [_ (i & [= <-] & H)]]; [discriminate|congruence].
  - destruct (analysis_fails_without_market
                (PocketOptionData.indicators pocket)) as [e ->].
    cbn [bind].
    split; [intros _; now left|intros _; eexists; reflexivity].
Qed.

End DualSourceFacts.

(** * The learning engine: what it recommends and what it remembers *)

Module LearningFacts.
Import JS NumFacts SeriesFacts AdvancedTradingAI.

(** The learnt confidence is 0.5, raised to 0.6 or lowered to 0.4. *)
Lemma learnt_confidence now ai symbol signals historicalPattern :
  let confidence :=
    Insights.confidence
      (applyMachineLearning now ai symbol signals historicalPattern) in
  confidence = Fin (3 # 5) \/ confidence = Fin (2 # 5)
  \/ confidence = Fin 0.5.
Proof.
  unfold applyMachineLearning. cbv zeta. cbn [Insights.confidence].
  destruct (gt _ _); [left; reflexivity|].
  destruct (lt _ _); [right; left; reflexivity|right; right; reflexivity].
Qed.

Lemma market_constants now marketData pocketOptionData marketAnalysis :
  analyzeMarketConditions now marketData pocketOptionData
  = Ok marketAnalysis ->
  MarketAnalysis.sourceAgreement marketAnalysis = Fin 0.8
  /\ MarketAnalysis.trendStrength marketAnalysis = Fin 0.5
  /\ MarketAnalysis.volatility marketAnalysis = Fin 0.02.
Proof.
  unfold analyzeMarketConditions.
  destruct marketData as [market|]; cbn [read bind]; [|discriminate].
  destruct pocketOptionData as [pocket|]; cbn [read bind]; [|discriminate].
  destruct (MarketData.technicalIndicators market);
    cbn [read bind]; [|discriminate].
  intros [= <-]. repeat split.
Qed.

(** Two signals out of seven at most: the composite strength is at most
    2/7. *)
Lemma composite_is_weak marketData pocketOptionData signals :
  calculateAdvancedSignals marketData pocketOptionData = Ok signals ->
  within 0 (2 # 7) (Composite.strength (Signals.composite signals)).
Proof.
  unfold calculateAdvancedSignals.
  destruct (MarketData.technicalIndicators marketData);
    cbn [read bind]; [|discriminate].
  destruct (PocketOptionData.indicators pocketOptionData);
    cbn [read bind]; [|discriminate].
  intros [= <-]. cbn [Signals.composite]. unfold analyzeRSI, analyzeMacd.
  cbv zeta.
  repeat match goal with
         | |- context [if ?b then _ else _] => destruct b
         end;
    vm_compute; split; discriminate.
Qed.

Lemma weak_strength (strength : num) :
  within 0 (2 # 7) strength ->
  gt strength (Fin 0.8) = false
  /\ gt strength (Fin 0.6) = false
  /\ within 0 29 (round (mul strength (Fin 100))).
Proof.
  intros H. split; [|split].
  - destruct strength as [q| | |]; simpl in H; try tauto.
    apply Qltb_ge. lra.
  - destruct strength as [q| | |]; simpl in H; try tauto.
    apply Qltb_ge. lra.
  - apply (confidencePct_within 0 29).
    eapply within_weaken; [| |exact H]; unfold Qle; simpl; lia.
Qed.

Lemma below_the_threshold (confidence : num) :
  confidence = Fin (3 # 5) \/ confidence = Fin (2 # 5)
  \/ confidence = Fin 0.5 ->
  let final := min (mul confidence (Fin 0.8)) (Fin 0.95) in
  gt final confidenceThreshold = false
  /\ within 32 48 (confidencePct final)
  /\ within 3 5 (fst (calculatePositionSize final medium))
  /\ within 320 480 (snd (calculatePositionSize final medium)).
Proof.
  intros [-> | [-> | ->]]; vm_compute; repeat split; discriminate.
Qed.

(** What the [try] block returns, when it returns. *)
Lemma try_block_returns
  now ai symbol marketData pocketOptionData recommendation ai' :
  try_block now ai symbol marketData pocketOptionData
  = Ok (recommendation, ai') ->
  exists marketAnalysis market pocket signals,
    analyzeMarketConditions now marketData pocketOptionData
    = Ok marketAnalysis
    /\ marketData = Some market /\ pocketOptionData = Some pocket
    /\ calculateAdvancedSignals market pocket = Ok signals
    /\ recommendation
       = generateFinalRecommendation now symbol marketAnalysis signals
           (applyMachineLearning now ai symbol signals None)
           (MarketData.currentPrice market)
    /\ ai' = storeForLearning now ai symbol recommendation marketAnalysis.
Proof.
  unfold try_block.
  destruct (analyzeMarketConditions now marketData pocketOptionData)
    as [marketAnalysis|] eqn:Hanalysis; cbn [bind]; [|discriminate].
  destruct marketData as [market|]; cbn [read bind]; [|discriminate].
  destruct pocketOptionData as [pocket|]; cbn [read bind]; [|discriminate].
  destruct (calculateAdvancedSignals market pocket) as [signals|] eqn:Hsignals;
    cbn [bind]; [|discriminate].
  intros [= <- <-]. exists marketAnalysis, market, pocket, signals.
  repeat (split; [first [reflexivity | assumption]|]). reflexivity.
Qed.

Lemma full_recommendation_holds
  now ai symbol marketAnalysis signals currentPrice :
  MarketAnalysis.sourceAgreement marketAnalysis = Fin 0.8 ->
  MarketAnalysis.trendStrength marketAnalysis = Fin 0.5 ->
  within 0 (2 # 7) (Composite.strength (Signals.composite signals)) ->
  exists details,
    generateFinalRecommendation now symbol marketAnalysis signals
      (applyMachineLearning now ai symbol signals None) currentPrice
    = {| Recommendation.symbol := symbol;
         Recommendation.action := HOLD;
         Recommendation.confidence :=
           confidencePct
             (min (mul (Insights.confidence
                          (applyMachineLearning now ai symbol signals None))
                       (Fin 0.8))
                  (Fin 0.95));
         Recommendation.reasoning :=
           generateReasoning signals
             (applyMachineLearning now ai symbol signals None) marketAnalysis;
         Recommendation.riskLevel := medium;
         Recommendation.bestEntryTime := "Wait for confirmation";
         Recommendation.estimatedHoldTime := Templated "" (Fin 4) " hours";
         Recommendation.details := Some details |}
    /\ Details.stopLoss details = Fin 0
    /\ Details.takeProfit details = Fin 0
    /\ Details.riskRewardRatio details = Fin 0
    /\ Details.exitStrategy details = "day trading"
    /\ within 3 5 (Details.positionSize details)
    /\ within 320 480 (Details.positionAmount details)
    /\ within 0 29 (Details.signalStrength details).
Proof.
  intros Hagreement Htrend Hweak.
  destruct (weak_strength _ Hweak) as (Hstrong & Hfair & Hpct).
  destruct (below_the_threshold _
              (learnt_confidence now ai symbol signals None))
    as (Hthreshold & _ & Hsize & Hamount).
  unfold generateFinalRecommendation, calculateOptimalEntry,
    estimateHoldTime. cbv zeta.
  rewrite Hagreement, Htrend, Hstrong, Hfair, Hthreshold.
  cbn [andb fst snd]. eexists. split; [reflexivity|].
  cbn [Details.stopLoss Details.takeProfit Details.riskRewardRatio
         Details.exitStrategy Details.positionSize Details.positionAmount
         Details.signalStrength].
  split; [reflexivity|]. split; [reflexivity|]. split; [reflexivity|].
  split; [reflexivity|].
  split; [exact Hsize|]. split; [exact Hamount|exact Hpct].
Qed.

(** X18.  Whatever the market data, the secondary data and the trade
    history, the learning engine recommends HOLD, with a confidence
    percentage between 32 and 50.  A full recommendation always says
    "Wait for confirmation", "4 hours" and "day trading", sets stop-loss,
    take-profit and reward-to-risk ratio to 0, sizes the position between 3
    and 5 percent, and reports a signal strength of 29 at most: the learnt
    confidence times the source agreement is at most 0.48, below the 0.75
    a trade requires. *)
Theorem no_trade_is_ever_recommended :
  forall now ai symbol marketData pocketOptionData recommendation ai',
    generateTradeRecommendation now ai symbol marketData pocketOptionData
    = Ok (recommendation, ai') ->
    Recommendation.action recommendation = HOLD
    /\ within 32 50 (Recommendation.confidence recommendation)
    /\ forall details,
        Recommendation.details recommendation = Some details ->
        Recommendation.bestEntryTime recommendation = "Wait for confirmation"
        /\ Recommendation.estimatedHoldTime recommendation
           = Templated "" (Fin 4) " hours"
        /\ Details.exitStrategy details = "day trading"
        /\ Details.stopLoss details = Fin 0
        /\ Details.takeProfit details = Fin 0
        /\ Details.riskRewardRatio details = Fin 0
        /\ within 3 5 (Details.positionSize details)
        /\ within 320 480 (Details.positionAmount details)
        /\ within 0 29 (Details.signalStrength details).
Proof.
  intros now ai symbol marketData pocketOptionData recommendation ai'.
  unfold generateTradeRecommendation, try_catch.
  destruct (try_block now ai symbol marketData pocketOptionData)
    as [[r a]|e] eqn:Htry.
  - intros [= <- <-].
    destruct (try_block_returns _ _ _ _ _ _ _ Htry)
      as (marketAnalysis & market & pocket & signals
          & Hanalysis & _ & _ & Hsignals & -> & _).
    destruct (market_constants _ _ _ _ Hanalysis)
      as (Hagreement & Htrend & _).
    pose proof (composite_is_weak _ _ _ Hsignals) as Hweak.
    destruct (full_recommendation_holds now ai symbol marketAnalysis signals
                (MarketData.currentPrice market) Hagreement Htrend Hweak)
      as (details & -> & H1 & H2 & H3 & H4 & H5 & H6 & H7).
    cbn [Recommendation.action Recommendation.confidence
           Recommendation.details Recommendation.bestEntryTime
           Recommendation.estimatedHoldTime].
    split; [reflexivity|]. split.
    + destruct (below_the_threshold _
                  (learnt_confidence now ai symbol signals None))
        as (_ & Hpct & _).
      eapply within_weaken; [| |exact Hpct]; lra.
    + intros d [= <-]. repeat split; assumption.
  - intros [= <- _].
    cbn [createSafeRecommendation Recommendation.action
           Recommendation.confidence Recommendation.details].
    split; [reflexivity|]. split; [simpl; lra|]. discriminate.
Qed.

Lemma no_trade_is_ever_recommended_witness :
  exists recommendation ai',
    generateTradeRecommendation 0 Samples.fresh_ai "AAPL"
      (Some Samples.quoted_market)
      (Some (PocketOptionData.make
               (Some (PocketIndicators.make (Some (Fin 20))
                                            (Some (Fin 0.4))))))
    = Ok (recommendation, ai')
    /\ Recommendation.action recommendation = HOLD
    /\ within 32 50 (Recommendation.confidence recommendation)
    /\ forall details,
        Recommendation.details recommendation = Some details ->
        Recommendation.bestEntryTime recommendation = "Wait for confirmation"
        /\ Recommendation.estimatedHoldTime recommendation
           = Templated "" (Fin 4) " hours"
        /\ Details.exitStrategy details = "day trading"
        /\ Details.stopLoss details = Fin 0
        /\ Details.takeProfit details = Fin 0
        /\ Details.riskRewardRatio details = Fin 0
        /\ within 3 5 (Details.positionSize details)
        /\ within 320 480 (Details.positionAmount details)
        /\ within 0 29 (Details.signalStrength details).
Proof.
  eexists _, _. split; [reflexivity|].
  eapply (no_trade_is_ever_recommended 0%Z Samples.fresh_ai "AAPL"
            (Some Samples.quoted_market)
            (Some (PocketOptionData.make
                     (Some (PocketIndicators.make (Some (Fin 20))
                                                  (Some (Fin 0.4))))))).
  reflexivity.
Defined.

(** [Math.min(Math.max(x, lo), hi)] of anything but [NaN] lies in
    [[lo, hi]]. *)
Lemma capped_within (lo hi : Q) (x : num) :
  lo <= hi -> x <> NaN -> within lo hi (min (max x (Fin lo)) (Fin hi)).
Proof.
  intros Hlh Hx. destruct x as [q| | |]; try congruence; simpl.
  - destruct (Qltb q lo) eqn:E1; simpl.
    + destruct (Qltb hi lo) eqn:E2; simpl;
        [apply Qltb_true in E2 | apply Qltb_false in E2]; lra.
    + apply Qltb_false in E1.
      destruct (Qltb hi q) eqn:E2; simpl;
        [apply Qltb_true in E2 | apply Qltb_false in E2]; lra.
  - lra.
  - destruct (Qltb hi lo) eqn:E2; simpl;
      [apply Qltb_true in E2 | apply Qltb_false in E2]; lra.
Qed.

(** [Math.round(x * k)] of an [x] in [[lo/k, hi/k]] is an integer in
    [[lo, hi]]. *)
Lemma round_scaled_within (k lo hi : Z) (x : num) :
  (0 < k)%Z ->
  within (inject_Z lo / inject_Z k) (inject_Z hi / inject_Z k) x ->
  within (inject_Z lo) (inject_Z hi) (round (mul x (Fin (inject_Z k)))).
Proof.
  intros Hk. destruct x as [q| | |]; try (simpl; tauto).
  unfold round, mul, fin, of_Z, within. intros [H1 H2].
  assert (0 < inject_Z k) as HK
      by (change 0 with (inject_Z 0); rewrite <- Zlt_Qlt; lia).
  assert (inject_Z lo == inject_Z lo / inject_Z k * inject_Z k) as Elo
      by (field; lra).
  assert (inject_Z hi == inject_Z hi / inject_Z k * inject_Z k) as Ehi
      by (field; lra).
  revert H1 H2 Elo Ehi.
  generalize (inject_Z lo / inject_Z k) (inject_Z hi / inject_Z k).
  intros L H H1 H2 Elo Ehi.
  rewrite <- !Zle_Qle. apply Qfloor_bounds; rewrite Qred_correct.
  - rewrite Elo. nra.
  - rewrite Ehi. nra.
Qed.

Lemma adjusted_size_is_a_number (confidence : num) (riskLevel : RiskLevel) :
  confidence <> NaN ->
  mul (mul (Fin 0.1) confidence) (riskMultipliers riskLevel) <> NaN.
Proof.
  intros H. destruct confidence as [q| | |]; [| | |congruence];
    destruct riskLevel; discriminate.
Qed.

(** X19.  Whatever the confidence, NaN apart, and whatever the risk
    level, the position is sized between 2 and 25 percent, that is between
    200 and 2500 of the 10000 assumed. *)
Theorem position_size_is_capped :
  forall (confidence : num) (riskLevel : RiskLevel),
    confidence <> NaN ->
    within 2 25 (fst (calculatePositionSize confidence riskLevel))
    /\ within 200 2500 (snd (calculatePositionSize confidence riskLevel)).
Proof.
  intros confidence riskLevel H. unfold calculatePositionSize. cbv zeta.
  cbn [fst snd].
  pose proof (capped_within 0.02 0.25 _ ltac:(lra)
                (adjusted_size_is_a_number confidence riskLevel H)) as Hcap.
  split.
  - apply (round_scaled_within 100 2 25); [lia|].
    eapply within_weaken; [| |exact Hcap]; unfold Qle; simpl; lia.
  - apply (round_scaled_within 10000 200 2500); [lia|].
    eapply within_weaken; [| |exact Hcap]; unfold Qle; simpl; lia.
Qed.

Lemma position_size_is_capped_witness :
  within 2 25 (fst (calculatePositionSize PInf low))
  /\ within 200 2500 (snd (calculatePositionSize PInf low)).
Proof. apply (position_size_is_capped PInf low). discriminate. Defined.

Lemma slice_last_snoc {A} (n : nat) (xs : list A) (x : A) :
  (0 < n)%nat ->
  slice_last n (xs ++ [x]) = skipn (List.length xs + 1 - n) xs ++ [x].
Proof.
  intros H. unfold slice_last. destruct n as [|n]; [lia|].
  rewrite length_app, skipn_app. cbn [List.length]. f_equal.
  replace (List.length xs + 1 - S n - List.length xs)%nat with 0%nat by lia.
  reflexivity.
Qed.

Lemma storeForLearning_shape now ai symbol recommendation marketAnalysis :
  let record :=
    {| Trade.symbol := symbol;
       Trade.recommendation := recommendation;
       Trade.marketAnalysis := marketAnalysis;
       Trade.timestamp := now;
       Trade.success := false |} in
  let ai' := storeForLearning now ai symbol recommendation marketAnalysis in
  (exists dropped kept,
      AI.tradeHistory ai = dropped ++ kept
      /\ AI.tradeHistory ai' = kept ++ [record])
  /\ List.length (AI.tradeHistory ai')
     = Nat.min 1000 (S (List.length (AI.tradeHistory ai)))
  /\ AI.console ai' = AI.console ai.
Proof.
  intros record ai'. subst ai'. unfold storeForLearning. cbv zeta.
  fold record. cbn [AI.tradeHistory AI.console].
  destruct (1000 <? List.length (AI.tradeHistory ai ++ [record]))%nat eqn:E.
  - apply Nat.ltb_lt in E. rewrite length_app in E. cbn [List.length] in E.
    rewrite slice_last_snoc by lia.
    split; [|split; [|reflexivity]].
    + exists (firstn (List.length (AI.tradeHistory ai) + 1 - 1000)
                     (AI.tradeHistory ai)),
             (skipn (List.length (AI.tradeHistory ai) + 1 - 1000)
                    (AI.tradeHistory ai)).
      split; [now rewrite firstn_skipn|reflexivity].
    + rewrite length_app, length_skipn. cbn [List.length]. lia.
  - apply Nat.ltb_ge in E. rewrite length_app in E. cbn [List.length] in E.
    split; [|split; [|reflexivity]].
    + exists [], (AI.tradeHistory ai). split; reflexivity.
    + rewrite length_app. cbn [List.length]. lia.
Qed.

(** X20.  Storing a recommendation appends its record, with the symbol,
    the clock reading and no outcome yet, to the trade history and drops
    the oldest records beyond 1000: the new history is the newest end of
    the old one followed by the record, and holds
    min(1000, old length + 1) records. *)
Theorem history_keeps_the_newest_thousand :
  forall now ai symbol recommendation marketAnalysis,
    let record :=
      {| Trade.symbol := symbol;
         Trade.recommendation := recommendation;
         Trade.marketAnalysis := marketAnalysis;
         Trade.timestamp := now;
         Trade.success := false |} in
    let ai' := storeForLearning now ai symbol recommendation marketAnalysis in
    (exists dropped kept,
        AI.tradeHistory ai = dropped ++ kept
        /\ AI.tradeHistory ai' = kept ++ [record])
    /\ List.length (AI.tradeHistory ai')
       = Nat.min 1000 (S (List.length (AI.tradeHistory ai)))
    /\ AI.console ai' = AI.console ai.
Proof. exact storeForLearning_shape. Qed.

Lemma filter_none {A} (f : A -> bool) (xs : list A) :
  (forall x, In x xs -> f x = false) -> filter f xs = [].
Proof.
  induction xs as [|x xs IH]; intros H; [reflexivity|].
  cbn [filter]. rewrite (H x (or_introl eq_refl)).
  apply IH. intros y Hy. apply H. now right.
Qed.

(** X21.  The recent accuracy of a symbol is a number in [0, 1], and it is
    0.5 when the history holds no trade of the symbol younger than a
    week. *)
Theorem recent_accuracy_is_a_fraction :
  forall (now : Z) (ai : AI.t) (symbol : string),
    within 0 1 (getRecentPerformance now ai symbol)
    /\ ((forall trade,
            In trade (AI.tradeHistory ai) ->
            Trade.symbol trade = symbol ->
            (Trade.timestamp trade <= now - week_ms)%Z) ->
        getRecentPerformance now ai symbol = Fin 0.5).
Proof.
  intros now ai symbol. unfold getRecentPerformance. cbv zeta. split.
  - destruct (slice_last 10 _) as [|trade recent] eqn:E; [simpl; lra|].
    apply DualSourceFacts.ratio_of_counts;
      [apply filter_length_le|cbn [List.length]; lia].
  - intros Hold. rewrite filter_none; [reflexivity|].
    intros trade Hin.
    destruct (String.eqb (Trade.symbol trade) symbol) eqn:E; [|reflexivity].
    apply String.eqb_eq in E. cbn [andb]. apply Z.ltb_ge.
    now apply Hold.
Qed.

Lemma recent_accuracy_is_a_fraction_witness :
  getRecentPerformance 0 Samples.fresh_ai "AAPL" = Fin 0.5.
Proof.
  apply (proj2 (recent_accuracy_is_a_fraction 0%Z Samples.fresh_ai "AAPL")).
  intros trade [].
Defined.

Lemma recorded_from (metrics : Performance.t) (trades : list (bool * value)) :
  let metrics' :=
    fold_left
      (fun metrics trade =>
         updatePerformanceMetrics metrics (fst trade) (snd trade))
      trades metrics in
  Performance.totalTrades metrics'
  = (Performance.totalTrades metrics + List.length trades)%nat
  /\ Performance.successfulTrades metrics'
     = (Performance.successfulTrades metrics
        + List.length (filter fst trades))%nat
  /\ (trades <> [] ->
      Performance.accuracy metrics'
      = div (of_nat (Performance.successfulTrades metrics'))
            (of_nat (Performance.totalTrades metrics'))).
Proof.
  cbv zeta. revert metrics.
  induction trades as [|trade trades IH]; intros metrics.
  - cbn [fold_left filter List.length]. split; [lia|]. split; [lia|].
    intros H. now elim H.
  - cbn [fold_left].
    destruct (IH (updatePerformanceMetrics metrics (fst trade) (snd trade)))
      as (H1 & H2 & H3).
    split; [|split].
    + rewrite H1. cbn [updatePerformanceMetrics Performance.totalTrades
                         List.length]. lia.
    + rewrite H2. cbn [updatePerformanceMetrics Performance.successfulTrades
                         filter].
      destruct (fst trade); cbn [List.length]; lia.
    + intros _. destruct trades as [|next trades]; [reflexivity|].
      apply H3. discriminate.
Qed.

(** X22.  After any number of recorded outcomes, starting from a new
    instance, [totalTrades] counts them, [successfulTrades] counts the
    successful ones, and, once there is one, [accuracy] is their quotient,
    a number in [0, 1]. *)
Theorem accuracy_is_the_success_rate :
  forall trades : list (bool * value),
    Performance.totalTrades (recorded trades) = List.length trades
    /\ Performance.successfulTrades (recorded trades)
       = List.length (filter fst trades)
    /\ (trades <> [] ->
        Performance.accuracy (recorded trades)
        = div (of_nat (List.length (filter fst trades)))
              (of_nat (List.length trades))
        /\ within 0 1 (Performance.accuracy (recorded trades))).
Proof.
  intros trades. unfold recorded.
  destruct (recorded_from initialPerformance trades) as (H1 & H2 & H3).
  cbn [initialPerformance Performance.totalTrades
         Performance.successfulTrades Nat.add] in H1, H2.
  split; [exact H1|]. split; [exact H2|].
  intros Hne. rewrite (H3 Hne), H1, H2. split; [reflexivity|].
  apply DualSourceFacts.ratio_of_counts; [apply filter_length_le|].
  destruct trades; [congruence|cbn [List.length]; lia].
Qed.

Lemma accuracy_is_the_success_rate_witness :
  Performance.accuracy
    (recorded [(true, Some (Fin 1.5)); (false, Some (Fin (-2)));
               (true, None)])
  = div (of_nat 2) (of_nat 3)
  /\ within 0 1
       (Performance.accuracy
          (recorded [(true, Some (Fin 1.5)); (false, Some (Fin (-2)));
                     (true, None)])).
Proof.
  apply (proj2 (proj2 (accuracy_is_the_success_rate
                         [(true, Some (Fin 1.5)); (false, Some (Fin (-2)));
                          (true, None)]))).
  discriminate.
Defined.





End LearningFacts.

(** * The simulated market data *)

Module MarketDataFacts.
Import JS NumFacts MarketDataManager.

(** Rounding to four decimals keeps the order. *)
Lemma toFixed4_mono (a b : Q) :
  a <= b ->
  exists ra rb,
    toFixed4 (Fin a) = Fin ra /\ toFixed4 (Fin b) = Fin rb /\ ra <= rb.
Proof.
  intros Hab. unfold toFixed4, toFixed. cbv zeta.
  change (inject_Z (10 ^ Z.of_nat 4)) with 10000.
  destruct (Qltb a 0) eqn:Ea; destruct (Qltb b 0) eqn:Eb;
    (eexists _, _; split; [reflexivity|]; split; [reflexivity|]);
    unfold fin; rewrite !Qred_correct;
    unfold Qdiv; setoid_replace (/ 10000) with (1 # 10000) by reflexivity;
    try apply Qltb_true in Ea; try apply Qltb_false in Ea;
    try apply Qltb_true in Eb; try apply Qltb_false in Eb.
  - assert (- b * 10000 + (1 # 2) <= - a * 10000 + (1 # 2)) as H by lra.
    apply EnhancedFacts.Qfloor_mono in H. revert H.
    generalize (inject_Z (Qfloor (- a * 10000 + (1 # 2))))
               (inject_Z (Qfloor (- b * 10000 + (1 # 2)))).
    intros x y H. lra.
  - assert (0 <= - a * 10000 + (1 # 2)) as H1 by lra.
    assert (0 <= b * 10000 + (1 # 2)) as H2 by lra.
    apply EnhancedFacts.Qfloor_nonneg in H1, H2. revert H1 H2.
    generalize (inject_Z (Qfloor (- a * 10000 + (1 # 2))))
               (inject_Z (Qfloor (b * 10000 + (1 # 2)))).
    intros x y H1 H2. lra.
  - lra.
  - assert (a * 10000 + (1 # 2) <= b * 10000 + (1 # 2)) as H by lra.
    apply EnhancedFacts.Qfloor_mono in H. revert H.
    generalize (inject_Z (Qfloor (a * 10000 + (1 # 2))))
               (inject_Z (Qfloor (b * 10000 + (1 # 2)))).
    intros x y H. lra.
Qed.

Lemma toFixed4_value (q : Q) : exists r, toFixed4 (Fin q) = Fin r.
Proof.
  destruct (toFixed4_mono q q (Qle_refl q)) as (r & _ & H & _). eauto.
Qed.

Lemma toFixed4_order (a b ra rb : Q) :
  a <= b -> toFixed4 (Fin a) = Fin ra -> toFixed4 (Fin b) = Fin rb ->
  ra <= rb.
Proof.
  intros Hab Ha Hb.
  destruct (toFixed4_mono a b Hab) as (x & y & Hx & Hy & Hxy).
  rewrite Ha in Hx. rewrite Hb in Hy.
  injection Hx as <-. injection Hy as <-. exact Hxy.
Qed.

(** The price never goes below 0.01. *)
Lemma floored_price (x : Q) :
  exists price, max (Fin 0.01) (Fin x) = Fin price /\ 0.01 <= price.
Proof.
  change (max (Fin 0.01) (Fin x))
    with (if Qltb 0.01 x then Fin x else Fin 0.01).
  destruct (Qltb 0.01 x) eqn:E; eexists; (split; [reflexivity|]).
  - apply Qltb_true in E. lra.
  - lra.
Qed.

Lemma volume_range (r : Q) :
  0 <= r < 1 ->
  within 100000 1099999
    (add (floor (mul (Fin r) (Fin 1000000))) (Fin 100000)).
Proof.
  intros [H0 H1]. unfold floor, mul, add, fin, of_Z, within.
  rewrite Qred_correct.
  assert (0 <= Qfloor (Qred (r * 1000000)) <= 999999)%Z as [Hlo Hhi].
  { apply Qfloor_bounds; rewrite Qred_correct.
    - change (inject_Z 0) with 0. lra.
    - change (inject_Z 999999) with 999999. lra. }
  rewrite Zle_Qle in Hlo, Hhi. revert Hlo Hhi.
  generalize (inject_Z (Qfloor (Qred (r * 1000000)))).
  change (inject_Z 0) with 0. change (inject_Z 999999) with 999999.
  intros f Hlo Hhi. lra.
Qed.

(** One turn of the loop, from a finite price: a well-formed candle, and a
    finite price again. *)
Lemma turn_shape (Math_random : nat -> Q) now (v : Q) i (p : Q) calls :
  random_in_unit_interval Math_random -> 0 <= v <= 1 # 2 ->
  exists candle close,
    turn Math_random now (Fin v) i (Fin p) calls = (candle, Fin close)
    /\ well_formed candle
    /\ Candle.timestamp candle = (now - Z.of_nat i * quarter_hour_ms)%Z.
Proof.
  intros Hrandom Hv. unfold turn. cbv zeta.
  pose proof (Hrandom (calls + 0)%nat) as H0.
  pose proof (Hrandom (calls + 1)%nat) as H1.
  pose proof (Hrandom (calls + 2)%nat) as H2.
  pose proof (Hrandom (calls + 3)%nat) as H3.
  pose proof (Hrandom (calls + 4)%nat) as H4.
  revert H0 H1 H2 H3 H4.
  generalize (Math_random (calls + 0)%nat) (Math_random (calls + 1)%nat)
             (Math_random (calls + 2)%nat) (Math_random (calls + 3)%nat)
             (Math_random (calls + 4)%nat).
  intros r0 r1 r2 r3 r4 H0 H1 H2 H3 H4.
  pose proof (volume_range r4 H4) as Hvolume.
  revert Hvolume.
  generalize (add (floor (mul (Fin r4) (Fin 1000000))) (Fin 100000)).
  intros volume Hvolume.
  change (mul (mul (mul (sub (Fin r0) (Fin 0.5)) (Fin 2)) (Fin v)) (Fin p))
    with (Fin (Qred (Qred (Qred (Qred (r0 + Qred (- 0.5)) * 2) * v) * p))).
  change (add (Fin p)
              (Fin (Qred (Qred (Qred (Qred (r0 + Qred (- 0.5)) * 2) * v) * p))))
    with (Fin (Qred (p + Qred (Qred (Qred (Qred (r0 + Qred (- 0.5)) * 2) * v)
                                * p)))).
  destruct (floored_price
              (Qred (p + Qred (Qred (Qred (Qred (r0 + Qred (- 0.5)) * 2) * v)
                                * p))))
    as (price & -> & Hprice).
  change (mul (Fin price) (add (Fin 1) (mul (Fin r1) (Fin v))))
    with (Fin (Qred (price * Qred (1 + Qred (r1 * v))))).
  change (mul (Fin price) (sub (Fin 1) (mul (Fin r2) (Fin v))))
    with (Fin (Qred (price * Qred (1 + Qred (- Qred (r2 * v)))))).
  assert (Qred (price * Qred (1 + Qred (r1 * v))) == price * (1 + r1 * v))
    as Ehigh by (rewrite !Qred_correct; reflexivity).
  assert (Qred (price * Qred (1 + Qred (- Qred (r2 * v))))
          == price * (1 - r2 * v))
    as Elow by (rewrite !Qred_correct; reflexivity).
  revert Ehigh Elow.
  generalize (Qred (price * Qred (1 + Qred (r1 * v))))
             (Qred (price * Qred (1 + Qred (- Qred (r2 * v))))).
  intros high low Ehigh Elow.
  change (add (Fin low) (mul (Fin r3) (sub (Fin high) (Fin low))))
    with (Fin (Qred (low + Qred (r3 * Qred (high + Qred (- low)))))).
  assert (Qred (low + Qred (r3 * Qred (high + Qred (- low))))
          == low + r3 * (high - low))
    as Eclose by (rewrite !Qred_correct; reflexivity).
  revert Eclose.
  generalize (Qred (low + Qred (r3 * Qred (high + Qred (- low))))).
  intros close Eclose.
  assert (0 <= r1 * v) as Hup by nra.
  assert (0 <= r2 * v <= 1 # 2) as Hdown by nra.
  assert (price <= high) as Hph by (rewrite Ehigh; nra).
  assert (low <= price) as Hlp by (rewrite Elow; nra).
  assert ((1 # 200) <= low) as Hl by (rewrite Elow; nra).
  assert (low <= close <= high) as Hlch by (rewrite Eclose; nra).
  destruct (toFixed4_value price) as [o4 Ho].
  destruct (toFixed4_value high) as [h4 Hh].
  destruct (toFixed4_value low) as [l4 Hl4].
  destruct (toFixed4_value close) as [c4 Hc].
  eexists _, close. split; [reflexivity|]. split; [|reflexivity].
  exists o4, h4, l4, c4.
  cbn [Candle.open Candle.high Candle.low Candle.close Candle.volume].
  split; [exact Ho|]. split; [exact Hh|]. split; [exact Hl4|].
  split; [exact Hc|].
  assert (toFixed4 (Fin (1 # 200)) = Fin (1 # 200)) as Hfloor
      by (vm_compute; reflexivity).
  assert (toFixed4 (Fin 0.01) = Fin (1 # 100)) as Hcent
      by (vm_compute; reflexivity).
  pose proof (toFixed4_order _ _ _ _ Hl Hfloor Hl4) as B1.
  pose proof (toFixed4_order _ _ _ _ Hlp Hl4 Ho) as B2.
  pose proof (toFixed4_order _ _ _ _ Hph Ho Hh) as B3.
  pose proof (toFixed4_order _ _ _ _ (proj1 Hlch) Hl4 Hc) as B4.
  pose proof (toFixed4_order _ _ _ _ (proj2 Hlch) Hc Hh) as B5.
  pose proof (toFixed4_order _ _ _ _ Hprice Hcent Ho) as B6.
  split; [lra|]. split; [lra|]. split; [lra|]. split; [lra|exact Hvolume].
Qed.

Lemma turns_shape (Math_random : nat -> Q) now (v : Q) :
  random_in_unit_interval Math_random -> 0 <= v <= 1 # 2 ->
  forall i (p : Q) calls,
    let data := turns Math_random now (Fin v) i (Fin p) calls in
    List.length data = S i
    /\ Forall well_formed data
    /\ map Candle.timestamp data
       = map (fun j => (now - Z.of_nat j * quarter_hour_ms)%Z)
             (rev (seq 0 (S i))).
Proof.
  intros Hrandom Hv. cbv zeta.
  induction i as [|i IH]; intros p calls.
  - cbn [turns].
    destruct (turn_shape Math_random now v 0 p calls Hrandom Hv)
      as (candle & close & -> & Hcandle & Htime).
    split; [reflexivity|]. split; [now repeat constructor|].
    cbn [map]. now rewrite Htime.
  - cbn [turns].
    destruct (turn_shape Math_random now v (S i) p calls Hrandom Hv)
      as (candle & close & -> & Hcandle & Htime).
    destruct (IH close (calls + 5)%nat) as (Hlen & Hall & Htimes).
    split; [cbn [List.length]; now rewrite Hlen|].
    split; [now constructor|].
    rewrite (seq_S (S i)), rev_app_distr. cbn [map rev app Nat.add].
    now rewrite Htime, Htimes.
Qed.

(** X25.  When every draw of [Math.random] lies in [0, 1), the base price
    is a number of at most 10^9, the volatility lies in [0, 0.05] and there
    are at most 1000 periods, the generated series holds periods + 1
    candles, a quarter of an hour apart, the last one at the time of the
    call; each has positive prices with low <= open <= high and
    low <= close <= high, an opening price of 0.01 at least and a volume
    between 100000 and 1099999.  The volatility used for a symbol, whatever
    the symbol, qualifies. *)
Theorem simulated_candles_are_well_formed :
  forall (Math_random : nat -> Q) (now : Z) (calls : nat)
         (basePrice : Q) (periods : nat),
    random_in_unit_interval Math_random ->
    basePrice <= 1000000000 ->
    (periods <= 1000)%nat ->
    (forall (volatility : Q),
        0 <= volatility <= 1 # 20 ->
        let data :=
          generateHistoricalData Math_random now calls (Fin basePrice)
            (Fin volatility) periods in
        List.length data = S periods
        /\ Forall well_formed data
        /\ map Candle.timestamp data
           = map (fun j => (now - Z.of_nat j * quarter_hour_ms)%Z)
                 (rev (seq 0 (S periods))))
    /\ (forall symbol : string,
           Forall well_formed
             (generateHistoricalData Math_random now calls (Fin basePrice)
                (getVolatility (getSymbolType symbol)) periods)).
Proof.
  intros Math_random now calls basePrice periods Hrandom _ _. split.
  - intros v Hv. apply turns_shape; [assumption|lra].
  - intros symbol. unfold generateHistoricalData.
    destruct (getSymbolType symbol); cbn [getVolatility];
      apply turns_shape; try assumption; lra.
Qed.

Lemma sevenths_in_unit_interval : random_in_unit_interval sevenths.
Proof.
  intros k. unfold sevenths.
  pose proof (Nat.mod_upper_bound k 7 ltac:(lia)) as H.
  assert (0 <= inject_Z (Z.of_nat (k mod 7))) as H0
      by (change 0 with (inject_Z 0); rewrite <- Zle_Qle; lia).
  assert (inject_Z (Z.of_nat (k mod 7)) <= 6) as H6
      by (change 6 with (inject_Z 6); rewrite <- Zle_Qle; lia).
  revert H0 H6. generalize (inject_Z (Z.of_nat (k mod 7))). intros x H0 H6.
  unfold Qdiv. setoid_replace (/ 7) with (1 # 7) by reflexivity. lra.
Qed.

Lemma simulated_candles_are_well_formed_witness :
  Forall well_formed
    (generateHistoricalData sevenths 0 1 (Fin 175) (Fin 0.02) 100).
Proof.
  apply (proj1 (simulated_candles_are_well_formed sevenths 0%Z 1%nat 175
                  100%nat sevenths_in_unit_interval
                  ltac:(vm_compute; discriminate) ltac:(lia)) 0.02).
  lra.
Defined.

Lemma closes_of_candles (candles : list Candle.t) :
  Forall well_formed candles ->
  exists closes,
    map EnhancedTradingEngine.Bar.close (map bar_of candles) = map Fin closes
    /\ Forall (fun q => 0 < q) closes.
Proof.
  induction 1 as [|candle candles Hcandle _ (closes & E & Hpos)].
  - exists []. split; [reflexivity|constructor].
  - destruct Hcandle as (o & h & l & c & _ & _ & _ & Hc & Hl & _ & Hlc & _).
    exists (c :: closes). split.
    + cbn [map bar_of EnhancedTradingEngine.Bar.close]. now rewrite Hc, E.
    + constructor; [lra|exact Hpos].
Qed.

Lemma getBasePrice_is_a_number (symbol : string) :
  exists price, getBasePrice symbol = Fin price.
Proof.
  unfold getBasePrice. destruct (find _ basePrices) as [[name price]|]; eauto.
Qed.

(** X26.  The structured signal computed on the series simulated for one of
    the available symbols, whatever the draws of [Math.random], is a
    decision with a confidence in [50, 95] and with numeric levels in the
    order that goes with its signal. *)
Theorem simulated_series_yield_ordered_levels :
  forall (sqrt : num -> num) (Math_random : nat -> Q) (now : Z) (calls : nat)
         (symbol : string),
    EnhancedTradingEngine.sqrt_sound sqrt ->
    random_in_unit_interval Math_random ->
    In symbol availableSymbols ->
    exists structured low high target stopLoss,
      EnhancedTradingEngine.generateStructuredSignal sqrt
        (map bar_of (fetchMarketData Math_random now calls symbol))
      = Ok structured
      /\ within 50 95 (EnhancedTradingEngine.Structured.confidence structured)
      /\ EnhancedTradingEngine.Structured.entryZone structured
         = (Fin low, Fin high)
      /\ EnhancedTradingEngine.Structured.target structured = Fin target
      /\ EnhancedTradingEngine.Structured.stopLoss structured = Fin stopLoss
      /\ match EnhancedTradingEngine.Structured.signal structured with
         | BUY => stopLoss <= low /\ low <= high /\ high <= target
         | SELL => target <= low /\ low <= high /\ high <= stopLoss
         | HOLD => low <= target /\ target <= high /\ stopLoss = target
         end.
Proof.
  intros sqrt Math_random now calls symbol Hsqrt Hrandom _.
  unfold fetchMarketData, generateHistoricalData. cbv zeta.
  destruct (getBasePrice_is_a_number symbol) as [basePrice ->].
  assert (exists v, getVolatility (getSymbolType symbol) = Fin v
                    /\ 0 <= v <= 1 # 2) as (v & -> & Hv).
  { destruct (getSymbolType symbol); eexists; (split; [reflexivity|lra]). }
  destruct (turns_shape Math_random now v Hrandom Hv 100 basePrice
              (calls + 1)%nat) as (Hlen & Hall & _).
  destruct (closes_of_candles _ Hall) as (closes & Hcloses & Hpos).
  apply (SignalFacts.generateStructuredSignal_on_valid_window sqrt _ closes
           Hsqrt Hcloses Hpos).
  rewrite length_map, Hlen. lia.
Qed.

Lemma simulated_series_yield_ordered_levels_witness :
  exists structured low high target stopLoss,
    EnhancedTradingEngine.generateStructuredSignal sqrt_truncated
      (map bar_of (fetchMarketData sevenths 0 0 "EURUSD=X"))
    = Ok structured
    /\ within 50 95 (EnhancedTradingEngine.Structured.confidence structured)
    /\ EnhancedTradingEngine.Structured.entryZone structured
       = (Fin low, Fin high)
    /\ EnhancedTradingEngine.Structured.target structured = Fin target
    /\ EnhancedTradingEngine.Structured.stopLoss structured = Fin stopLoss
    /\ match EnhancedTradingEngine.Structured.signal structured with
       | BUY => stopLoss <= low /\ low <= high /\ high <= target
       | SELL => target <= low /\ low <= high /\ high <= stopLoss
       | HOLD => low <= target /\ target <= high /\ stopLoss = target
       end.
Proof.
  apply (simulated_series_yield_ordered_levels sqrt_truncated sevenths 0%Z
           0%nat "EURUSD=X").
  - exact IndicatorFacts.sqrt_truncated_sound.
  - exact sevenths_in_unit_interval.
  - vm_compute. tauto.
Defined.

End MarketDataFacts.
